(** * The SQL store layer: teams, team members, status, jobs and system
    settings.

    A shallow embedding of [store/sqlstore]: the pure role resolver, the
    row-to-model mapper, and the store methods run against an in-memory
    relational backend whose statements can fail or interleave with other
    sessions.  Go's [(value, error)] results are kept as pairs of options,
    because several methods return a nil value together with a nil error. *)

From Stdlib Require Import ZArith List String Ascii Bool Lia.
From Stdlib Require Import Sorted Permutation OrderedTypeEx.
From stdpp Require Import gmap strings list.

Open Scope string_scope.
Open Scope Z_scope.

(* ================================================================== *)
(** * Definitions *)
(* ================================================================== *)

(** ** Go runtime: [int], [strings], [database/sql] *)

Module Go.

(** [int] and [int64] are 64-bit two's complement. *)
Definition wrap64 (z : Z) : Z := (z + 2 ^ 63) mod 2 ^ 64 - 2 ^ 63.
Definition int_add (a b : Z) : Z := wrap64 (a + b).

(** [len(slice)] as an [int]. *)
Definition len {A} (l : list A) : Z := Z.of_nat (length l).

(** The [asciiSpace] table of package [strings]: the white space that
    [strings.Fields] splits on in a string of ASCII bytes.  Role names and
    ids are ASCII; the Unicode white space that [Fields] also splits on in
    a string with bytes above 127 is outside this model, which takes such
    bytes for ordinary ones. *)
Definition isSpace (c : ascii) : bool :=
  match nat_of_ascii c with
  | 9%nat | 10%nat | 11%nat | 12%nat | 13%nat | 32%nat => true
  | _ => false
  end.

(** [fieldsFrom cur s]: [cur] is the field being read (from [fieldStart]
    up to the current byte), [s] the bytes still to scan. *)
Fixpoint fieldsFrom (cur : string) (s : string) : list string :=
  match s with
  | EmptyString =>
      match cur with EmptyString => [] | _ => [cur] end
  | String c s' =>
      if isSpace c then
        match cur with
        | EmptyString => fieldsFrom EmptyString s'
        | _ => cur :: fieldsFrom EmptyString s'
        end
      else fieldsFrom (cur ++ String c EmptyString) s'
  end.

(** [strings.Fields]. *)
Definition Fields (s : string) : list string := fieldsFrom EmptyString s.

(** [strings.Join]. *)
Fixpoint Join (elems : list string) (sep : string) : string :=
  match elems with
  | [] => EmptyString
  | [e] => e
  | e :: rest => e ++ sep ++ Join rest sep
  end.

(** [strings.Contains]. *)
Fixpoint Contains (s substr : string) : bool :=
  if String.prefix substr s then true
  else match s with
       | EmptyString => false
       | String _ s' => Contains s' substr
       end.

(** [append] on a slice of strings. *)
Definition append {A} (l : list A) (x : A) : list A := (l ++ [x])%list.

(** Go errors.  [sql.ErrNoRows] is a sentinel compared by identity; every
    other error here is carried by its text. *)
Inductive error : Type :=
| ErrNoRows
| errorString (msg : string).

Definition Error (e : error) : string :=
  match e with
  | ErrNoRows => "sql: no rows in result set"
  | errorString msg => msg
  end.

(** [sql.NullBool] and [sql.NullString]. *)
Record NullBool := { Bool : bool; Valid : bool }.
Record NullString := { String_ : string; SValid : bool }.

Definition nullString (o : option string) : NullString :=
  match o with
  | Some s => {| String_ := s; SValid := true |}
  | None => {| String_ := EmptyString; SValid := false |}
  end.

End Go.
Import Go.

(** ** Package [model]: the domain objects *)

Module Team.
Record t := {
  Id : string;
  CreateAt : Z;
  UpdateAt : Z;
  DeleteAt : Z;
  DisplayName : string;
  Name : string;
  Description : string;
  Email : string;
  CompanyName : string;
  AllowedDomains : string;
  InviteId : string;
  LastTeamIconUpdate : Z;
  SchemeId : option string;
  GroupConstrained : option bool
}.

Definition withTimes (team : t) (createAt updateAt : Z) : t :=
  {| Id := Id team; CreateAt := createAt; UpdateAt := updateAt;
     DeleteAt := DeleteAt team; DisplayName := DisplayName team;
     Name := Name team; Description := Description team;
     Email := Email team; CompanyName := CompanyName team;
     AllowedDomains := AllowedDomains team; InviteId := InviteId team;
     LastTeamIconUpdate := LastTeamIconUpdate team;
     SchemeId := SchemeId team;
     GroupConstrained := GroupConstrained team |}.
End Team.

Module TeamMember.
Record t := {
  TeamId : string;
  UserId : string;
  Roles : string;
  DeleteAt : Z;
  SchemeGuest : bool;
  SchemeUser : bool;
  SchemeAdmin : bool;
  ExplicitRoles : string
}.
End TeamMember.

Module Scheme.
Record t := {
  DefaultTeamGuestRole : string;
  DefaultTeamUserRole : string;
  DefaultTeamAdminRole : string
}.
End Scheme.

Module User.
Record t := { DeleteAt : Z }.
End User.

Module System.
Record t := { Name : string; Value : string }.
End System.

Module Status.
Record t := {
  UserId : string;
  Status : string;
  Manual : bool;
  LastActivityAt : Z;
  ActiveChannel : string
}.
End Status.

Module Job.
Record t := {
  Id : string;
  Type_ : string;
  Priority : Z;
  CreateAt : Z;
  StartAt : Z;
  LastActivityAt : Z;
  Status : string;
  Progress : Z;
  Data : list (string * string)
}.

(** A row of table [Jobs]: the [Data] map is stored as its JSON text. *)
Record row := {
  rId : string;
  rType : string;
  rPriority : Z;
  rCreateAt : Z;
  rStartAt : Z;
  rLastActivityAt : Z;
  rStatus : string;
  rProgress : Z;
  rData : string
}.
End Job.

(** The constants and methods of package [model] that the stores use; the
    package is not part of these sources, so they are parameters. *)
Class ModelPkg := {
  TEAM_GUEST_ROLE_ID : string;
  TEAM_USER_ROLE_ID : string;
  TEAM_ADMIN_ROLE_ID : string;
  JOB_STATUS_IN_PROGRESS : string;
  Team_PreUpdate : Team.t -> Team.t;
  Team_IsValid : Team.t -> option error;
  TeamMember_PreUpdate : TeamMember.t -> TeamMember.t;
  TeamMember_IsValid : TeamMember.t -> option error;
  Job_DataToJson : Job.t -> string
}.

(** ** [team_store.go]: rows, the role resolver and the mapper *)

Module teamMember.
Record t := {
  TeamId : string;
  UserId : string;
  Roles : string;
  DeleteAt : Z;
  SchemeUser : NullBool;
  SchemeAdmin : NullBool;
  SchemeGuest : NullBool
}.
End teamMember.

Definition NewTeamMemberFromModel (tm : TeamMember.t) : teamMember.t :=
  {| teamMember.TeamId := TeamMember.TeamId tm;
     teamMember.UserId := TeamMember.UserId tm;
     teamMember.Roles := TeamMember.ExplicitRoles tm;
     teamMember.DeleteAt := TeamMember.DeleteAt tm;
     teamMember.SchemeGuest := {| Valid := true; Bool := TeamMember.SchemeGuest tm |};
     teamMember.SchemeUser := {| Valid := true; Bool := TeamMember.SchemeUser tm |};
     teamMember.SchemeAdmin := {| Valid := true; Bool := TeamMember.SchemeAdmin tm |} |}.

Module teamMemberWithSchemeRoles.
Record t := {
  TeamId : string;
  UserId : string;
  Roles : string;
  DeleteAt : Z;
  SchemeGuest : NullBool;
  SchemeUser : NullBool;
  SchemeAdmin : NullBool;
  TeamSchemeDefaultGuestRole : NullString;
  TeamSchemeDefaultUserRole : NullString;
  TeamSchemeDefaultAdminRole : NullString
}.
End teamMemberWithSchemeRoles.

Record rolesInfo := {
  roles : list string;
  explicitRoles : list string;
  schemeGuest : bool;
  schemeUser : bool;
  schemeAdmin : bool
}.

Section RoleResolver.
Context `{M : ModelPkg}.

(** One iteration of the first loop of [getTeamRoles]: the [switch] on the
    role token. *)
Definition absorbRole (result : rolesInfo) (role : string) : rolesInfo :=
  if String.eqb role TEAM_GUEST_ROLE_ID then
    {| roles := roles result; explicitRoles := explicitRoles result;
       schemeGuest := true; schemeUser := schemeUser result;
       schemeAdmin := schemeAdmin result |}
  else if String.eqb role TEAM_USER_ROLE_ID then
    {| roles := roles result; explicitRoles := explicitRoles result;
       schemeGuest := schemeGuest result; schemeUser := true;
       schemeAdmin := schemeAdmin result |}
  else if String.eqb role TEAM_ADMIN_ROLE_ID then
    {| roles := roles result; explicitRoles := explicitRoles result;
       schemeGuest := schemeGuest result; schemeUser := schemeUser result;
       schemeAdmin := true |}
  else
    {| roles := append (roles result) role;
       explicitRoles := append (explicitRoles result) role;
       schemeGuest := schemeGuest result; schemeUser := schemeUser result;
       schemeAdmin := schemeAdmin result |}.

(** The name a set scheme flag stands for: the scheme's default role when
    it has one, the well-known id otherwise. *)
Definition impliedRole (flag : bool) (defaultRole wellKnown : string)
  : list string :=
  if flag then
    if negb (String.eqb defaultRole EmptyString) then [defaultRole] else [wellKnown]
  else [].

(** The inner loop: is [impliedRole] already among [roles]? *)
Definition alreadyThere (rs : list string) (impliedRole : string) : bool :=
  fold_left (fun found role => if String.eqb role impliedRole then true else found)
            rs false.

Definition addImplied (rs : list string) (impliedRole : string) : list string :=
  if negb (alreadyThere rs impliedRole) then append rs impliedRole else rs.

Definition getTeamRoles (schemeGuest0 schemeUser0 schemeAdmin0 : bool)
    (defaultTeamGuestRole defaultTeamUserRole defaultTeamAdminRole : string)
    (roles0 : list string) : rolesInfo :=
  let result :=
    fold_left absorbRole roles0
      {| roles := []; explicitRoles := [];
         schemeGuest := schemeGuest0; schemeUser := schemeUser0;
         schemeAdmin := schemeAdmin0 |} in
  let schemeImpliedRoles :=
    (impliedRole (schemeGuest result) defaultTeamGuestRole TEAM_GUEST_ROLE_ID
     ++ impliedRole (schemeUser result) defaultTeamUserRole TEAM_USER_ROLE_ID
     ++ impliedRole (schemeAdmin result) defaultTeamAdminRole TEAM_ADMIN_ROLE_ID)%list in
  {| roles := fold_left addImplied schemeImpliedRoles (roles result);
     explicitRoles := explicitRoles result;
     schemeGuest := schemeGuest result;
     schemeUser := schemeUser result;
     schemeAdmin := schemeAdmin result |}.

(** [teamMemberWithSchemeRoles.ToModel]. *)
Definition ToModel (db : teamMemberWithSchemeRoles.t) : TeamMember.t :=
  let guest :=
    Valid (teamMemberWithSchemeRoles.SchemeGuest db)
    && Bool (teamMemberWithSchemeRoles.SchemeGuest db) in
  let user :=
    Valid (teamMemberWithSchemeRoles.SchemeUser db)
    && Bool (teamMemberWithSchemeRoles.SchemeUser db) in
  let admin :=
    Valid (teamMemberWithSchemeRoles.SchemeAdmin db)
    && Bool (teamMemberWithSchemeRoles.SchemeAdmin db) in
  let orEmpty (ns : NullString) := if SValid ns then String_ ns else EmptyString in
  let defaultTeamGuestRole :=
    orEmpty (teamMemberWithSchemeRoles.TeamSchemeDefaultGuestRole db) in
  let defaultTeamUserRole :=
    orEmpty (teamMemberWithSchemeRoles.TeamSchemeDefaultUserRole db) in
  let defaultTeamAdminRole :=
    orEmpty (teamMemberWithSchemeRoles.TeamSchemeDefaultAdminRole db) in
  let rolesResult :=
    getTeamRoles guest user admin
      defaultTeamGuestRole defaultTeamUserRole defaultTeamAdminRole
      (Fields (teamMemberWithSchemeRoles.Roles db)) in
  {| TeamMember.TeamId := teamMemberWithSchemeRoles.TeamId db;
     TeamMember.UserId := teamMemberWithSchemeRoles.UserId db;
     TeamMember.Roles := Join (roles rolesResult) " ";
     TeamMember.DeleteAt := teamMemberWithSchemeRoles.DeleteAt db;
     TeamMember.SchemeGuest := schemeGuest rolesResult;
     TeamMember.SchemeUser := schemeUser rolesResult;
     TeamMember.SchemeAdmin := schemeAdmin rolesResult;
     TeamMember.ExplicitRoles := Join (explicitRoles rolesResult) " " |}.

(** [teamMemberWithSchemeRolesList.ToModel]. *)
Definition ToModelList (db : list teamMemberWithSchemeRoles.t)
  : list TeamMember.t :=
  fold_left (fun tms tm => append tms (ToModel tm)) db [].

(** The body of the per-row loop of [MigrateTeamMembers], up to the
    [transaction.Update]: one token of the row's legacy roles. *)
Definition migrateRole (st : teamMember.t * list string) (role : string)
  : teamMember.t * list string :=
  let '(member, newRoles) := st in
  if String.eqb role TEAM_ADMIN_ROLE_ID then
    ({| teamMember.TeamId := teamMember.TeamId member;
        teamMember.UserId := teamMember.UserId member;
        teamMember.Roles := teamMember.Roles member;
        teamMember.DeleteAt := teamMember.DeleteAt member;
        teamMember.SchemeUser := teamMember.SchemeUser member;
        teamMember.SchemeAdmin := {| Bool := true; Valid := true |};
        teamMember.SchemeGuest := teamMember.SchemeGuest member |}, newRoles)
  else if String.eqb role TEAM_USER_ROLE_ID then
    ({| teamMember.TeamId := teamMember.TeamId member;
        teamMember.UserId := teamMember.UserId member;
        teamMember.Roles := teamMember.Roles member;
        teamMember.DeleteAt := teamMember.DeleteAt member;
        teamMember.SchemeUser := {| Bool := true; Valid := true |};
        teamMember.SchemeAdmin := teamMember.SchemeAdmin member;
        teamMember.SchemeGuest := teamMember.SchemeGuest member |}, newRoles)
  else if String.eqb role TEAM_GUEST_ROLE_ID then
    ({| teamMember.TeamId := teamMember.TeamId member;
        teamMember.UserId := teamMember.UserId member;
        teamMember.Roles := teamMember.Roles member;
        teamMember.DeleteAt := teamMember.DeleteAt member;
        teamMember.SchemeUser := teamMember.SchemeUser member;
        teamMember.SchemeAdmin := teamMember.SchemeAdmin member;
        teamMember.SchemeGuest := {| Bool := true; Valid := true |} |}, newRoles)
  else (member, append newRoles role).

Definition orFalse (b : NullBool) : NullBool :=
  if negb (Valid b) then {| Bool := false; Valid := true |} else b.

(** The tokens that remain after the loop, before they are joined. *)
Definition migrateTokens (member : teamMember.t) : teamMember.t * list string :=
  let roles := Fields (teamMember.Roles member) in
  let member :=
    {| teamMember.TeamId := teamMember.TeamId member;
       teamMember.UserId := teamMember.UserId member;
       teamMember.Roles := teamMember.Roles member;
       teamMember.DeleteAt := teamMember.DeleteAt member;
       teamMember.SchemeUser := orFalse (teamMember.SchemeUser member);
       teamMember.SchemeAdmin := orFalse (teamMember.SchemeAdmin member);
       teamMember.SchemeGuest := orFalse (teamMember.SchemeGuest member) |} in
  fold_left migrateRole roles (member, []).

(** The row that [MigrateTeamMembers] writes back. *)
Definition migrateMember (member : teamMember.t) : teamMember.t :=
  let '(member, newRoles) := migrateTokens member in
  {| teamMember.TeamId := teamMember.TeamId member;
     teamMember.UserId := teamMember.UserId member;
     teamMember.Roles := Join newRoles " ";
     teamMember.DeleteAt := teamMember.DeleteAt member;
     teamMember.SchemeUser := teamMember.SchemeUser member;
     teamMember.SchemeAdmin := teamMember.SchemeAdmin member;
     teamMember.SchemeGuest := teamMember.SchemeGuest member |}.

End RoleResolver.

(** An instance to run the stores on concrete inputs: the values the
    constants have in package [model], [PreUpdate] as the identity, and
    [IsValid] asking for ids of 26 characters. *)
Definition IsValidId (id : string) : bool := (String.length id =? 26)%nat.

Definition upstream : ModelPkg :=
  {| TEAM_GUEST_ROLE_ID := "team_guest";
     TEAM_USER_ROLE_ID := "team_user";
     TEAM_ADMIN_ROLE_ID := "team_admin";
     JOB_STATUS_IN_PROGRESS := "in_progress";
     Team_PreUpdate := fun team => team;
     Team_IsValid := fun team =>
       if IsValidId (Team.Id team) then None
       else Some (errorString "model.team.is_valid.id.app_error");
     TeamMember_PreUpdate := fun tm => tm;
     TeamMember_IsValid := fun tm =>
       if negb (IsValidId (TeamMember.TeamId tm))
       then Some (errorString "model.team_member.is_valid.team_id.app_error")
       else if negb (IsValidId (TeamMember.UserId tm))
       then Some (errorString "model.team_member.is_valid.user_id.app_error")
       else None;
     Job_DataToJson := fun _ => "{}" |}.

(** ** The relational backend

    The stores talk to a master and a replica connection through gorp.  The
    backend below keeps the tables in memory and executes one statement at a
    time; what the rest of the world does to a statement is given by a
    script of events, one per statement issued: the statement proceeds, it
    fails with a driver error, or another session changes the master's
    tables just before it runs.  An empty script lets every statement
    proceed.  Every statement issued is appended to a log. *)

Inductive Driver := DATABASE_DRIVER_MYSQL | DATABASE_DRIVER_POSTGRES.

Record DB := {
  Teams : gmap string Team.t;
  Schemes : gmap string Scheme.t;
  Users : gmap string User.t;
  TeamMembers : list teamMember.t;
  Systems : gmap string string;
  StatusRows : gmap string Status.t;
  Jobs : gmap string Job.row
}.

Definition withTeams (db : DB) (v : gmap string Team.t) : DB :=
  {| Teams := v; Schemes := Schemes db; Users := Users db;
     TeamMembers := TeamMembers db; Systems := Systems db;
     StatusRows := StatusRows db; Jobs := Jobs db |}.

Definition withTeamMembers (db : DB) (v : list teamMember.t) : DB :=
  {| Teams := Teams db; Schemes := Schemes db; Users := Users db;
     TeamMembers := v; Systems := Systems db;
     StatusRows := StatusRows db; Jobs := Jobs db |}.

Definition withSystems (db : DB) (v : gmap string string) : DB :=
  {| Teams := Teams db; Schemes := Schemes db; Users := Users db;
     TeamMembers := TeamMembers db; Systems := v;
     StatusRows := StatusRows db; Jobs := Jobs db |}.

Definition withStatusRows (db : DB) (v : gmap string Status.t) : DB :=
  {| Teams := Teams db; Schemes := Schemes db; Users := Users db;
     TeamMembers := TeamMembers db; Systems := Systems db;
     StatusRows := v; Jobs := Jobs db |}.

Definition withJobs (db : DB) (v : gmap string Job.row) : DB :=
  {| Teams := Teams db; Schemes := Schemes db; Users := Users db;
     TeamMembers := TeamMembers db; Systems := Systems db;
     StatusRows := StatusRows db; Jobs := v |}.

Definition emptyDB : DB :=
  {| Teams := ∅; Schemes := ∅; Users := ∅; TeamMembers := [];
     Systems := ∅; StatusRows := ∅; Jobs := ∅ |}.

Inductive event :=
| Proceed
| Fails (e : error)
| Concurrent (f : DB -> DB).

Inductive Verb := BEGIN | COMMIT | SELECT | INSERT | UPDATE.

Record Statement := { verb : Verb; table : string; keys : list string }.

Record SqlStore := {
  DriverName : Driver;
  (** the strict order in which the database compares ids *)
  collation : string -> string -> bool;
  master : DB;
  replica : DB;
  script : list event;
  log : list Statement
}.

Definition withMaster (s : SqlStore) (db : DB) : SqlStore :=
  {| DriverName := DriverName s; collation := collation s; master := db;
     replica := replica s; script := script s; log := log s |}.

(** A store method is a computation on the store. *)
Definition Conn (A : Type) : Type := SqlStore -> A * SqlStore.

#[global] Instance Conn_ret : MRet Conn := fun A a s => (a, s).
#[global] Instance Conn_bind : MBind Conn :=
  fun A B f m s => let '(a, s1) := m s in f a s1.

Definition getDriverName : Conn Driver := fun s => (DriverName s, s).
Definition getCollation : Conn (string -> string -> bool) :=
  fun s => (collation s, s).

(** Issue a statement: log it and take the next event of the script. *)
Definition issue (st : Statement) : Conn event := fun s =>
  let logged rest :=
    {| DriverName := DriverName s; collation := collation s;
       master := master s; replica := replica s; script := rest;
       log := (log s ++ [st])%list |} in
  match script s with
  | [] => (Proceed, logged [])
  | ev :: rest => (ev, logged rest)
  end.

(** A statement on the master connection. *)
Definition onMaster {A} (st : Statement) (zero : A)
    (q : DB -> A * option error * DB) : Conn (A * option error) :=
  fun s0 =>
    let '(ev, s) := issue st s0 in
    match ev with
    | Fails e => ((zero, Some e), s)
    | Proceed =>
        let '(a, err, db) := q (master s) in ((a, err), withMaster s db)
    | Concurrent f =>
        let '(a, err, db) := q (f (master s)) in ((a, err), withMaster s db)
    end.

(** A query on the replica connection. *)
Definition onReplica {A} (st : Statement) (zero : A)
    (q : DB -> A * option error) : Conn (A * option error) :=
  fun s0 =>
    let '(ev, s) := issue st s0 in
    match ev with
    | Fails e => ((zero, Some e), s)
    | Proceed => (q (replica s), s)
    | Concurrent f => (q (replica s), withMaster s (f (master s)))
    end.

(** A [*gorp.Transaction]: the tables as the open transaction sees them.
    Nothing reaches the master before [Commit]; leaving the method without
    it is the rollback of [finalizeTransaction]. *)
Definition Transaction : Type := DB.

Definition Begin : Conn (option Transaction * option error) :=
  onMaster {| verb := BEGIN; table := EmptyString; keys := [] |} None
    (fun db => (Some db, None, db)).

Definition inTx {A} (st : Statement) (zero : A)
    (q : DB -> A * option error * DB) (tx : Transaction)
  : Conn (A * option error * Transaction) :=
  fun s0 =>
    let '(ev, s) := issue st s0 in
    match ev with
    | Fails e => ((zero, Some e, tx), s)
    | Proceed => (q tx, s)
    | Concurrent f => (q (f tx), withMaster s (f (master s)))
    end.

Definition Commit (tx : Transaction) : Conn (option error) :=
  fun s0 =>
    let '(ev, s) :=
      issue {| verb := COMMIT; table := EmptyString; keys := [] |} s0 in
    match ev with
    | Fails e => (Some e, s)
    | Proceed => (None, withMaster s tx)
    | Concurrent f => (None, withMaster s (f tx))
    end.

(** The text of the driver's primary-key violation. *)
Definition quoted (s : string) : string :=
  String (ascii_of_nat 34) (s ++ String (ascii_of_nat 34) EmptyString).

Definition duplicateKey (d : Driver) (index constraint value : string) : error :=
  match d with
  | DATABASE_DRIVER_MYSQL =>
      errorString ("Error 1062: Duplicate entry '" ++ value
                   ++ "' for key '" ++ index ++ "'")
  | DATABASE_DRIVER_POSTGRES =>
      errorString ("pq: duplicate key value violates unique constraint "
                   ++ quoted constraint)
  end.

(** [SelectOne]: exactly one row, [sql.ErrNoRows] for none. *)
Definition selectOne {A} (rows : list A) : option A * option error :=
  match rows with
  | [] => (None, Some ErrNoRows)
  | [row] => (Some row, None)
  | _ => (None, Some (errorString "gorp: multiple rows returned"))
  end.

Definition isErrNoRows (e : error) : bool :=
  match e with ErrNoRows => true | _ => false end.

Definition rowsOf {A} (o : option A) : list A :=
  match o with Some row => [row] | None => [] end.

(** [ORDER BY]: insertion into a list sorted by the strict order [lt]. *)
Fixpoint insertBy {A} (lt : A -> A -> bool) (x : A) (l : list A) : list A :=
  match l with
  | [] => [x]
  | y :: l' => if lt y x then y :: insertBy lt x l' else x :: l
  end.

Definition orderBy {A} (lt : A -> A -> bool) (l : list A) : list A :=
  fold_right (insertBy lt) [] l.

(** The row comparison [(a1, a2) < (b1, b2)] of SQL. *)
Definition keyLt (lt : string -> string -> bool) (a b : string * string) : bool :=
  lt (fst a) (fst b) || (String.eqb (fst a) (fst b) && lt (snd a) (snd b)).

Definition memberKey (row : teamMember.t) : string * string :=
  (teamMember.TeamId row, teamMember.UserId row).

Definition sameKey (a b : teamMember.t) : bool :=
  String.eqb (teamMember.TeamId a) (teamMember.TeamId b)
  && String.eqb (teamMember.UserId a) (teamMember.UserId b).

(** The row of the scheme-defaults query of the bulk member methods. *)
Module defaultTeamRoles.
Record t := {
  Id : string;
  Guest : NullString;
  User : NullString;
  Admin : NullString
}.
Definition zero : t :=
  {| Id := EmptyString; Guest := nullString None; User := nullString None;
     Admin := nullString None |}.
End defaultTeamRoles.

(** A Go call either returns or panics. *)
Inductive outcome (A : Type) : Type :=
| returns (a : A)
| panics (msg : string).
Arguments returns {A} a.
Arguments panics {A} msg.

(** A [DELETE] sent through [Exec] on the master connection.  The log has
    no verb for it: the statement takes its event from the script and is
    not logged. *)
Definition execDelete (q : DB -> DB) : Conn (option error) :=
  fun s =>
    let rest := match script s with [] => [] | _ :: rest => rest end in
    let next db :=
      {| DriverName := DriverName s; collation := collation s; master := db;
         replica := replica s; script := rest; log := log s |} in
    match script s with
    | [] | Proceed :: _ => (None, next (q (master s)))
    | Fails e :: _ => (Some e, next (master s))
    | Concurrent f :: _ => (None, next (q (f (master s))))
    end.

(** [strings.Repeat], for a count that is not negative. *)
Fixpoint Repeat (s : string) (count : nat) : string :=
  match count with
  | O => EmptyString
  | S count' => s ++ Repeat s count'
  end.

(** A member row with column [Roles] set. *)
Definition withRoles (row : teamMember.t) (newRoles : string) : teamMember.t :=
  {| teamMember.TeamId := teamMember.TeamId row;
     teamMember.UserId := teamMember.UserId row;
     teamMember.Roles := newRoles;
     teamMember.DeleteAt := teamMember.DeleteAt row;
     teamMember.SchemeUser := teamMember.SchemeUser row;
     teamMember.SchemeAdmin := teamMember.SchemeAdmin row;
     teamMember.SchemeGuest := teamMember.SchemeGuest row |}.

(** ** [team_store.go]: teams *)

Module SqlTeamStore.
Section Teams.
Context `{M : ModelPkg}.

(** Does another team already own [team]'s unique [Name]? *)
Definition nameTaken (teams : gmap string Team.t) (team : Team.t) : bool :=
  existsb (fun '(id, row) =>
             negb (String.eqb id (Team.Id team))
             && String.eqb (Team.Name row) (Team.Name team))
          (map_to_list teams).

(** gorp's [Update] of a team: all columns, by primary key; the number of
    rows matched. *)
Definition gorpUpdate (team : Team.t) : Conn (Z * option error) :=
  d ← getDriverName;
  onMaster {| verb := UPDATE; table := "Teams"; keys := [Team.Id team] |} 0
    (fun db =>
       match Teams db !! Team.Id team with
       | None => (0, None, db)
       | Some _ =>
           if nameTaken (Teams db) team
           then (0, Some (duplicateKey d "Name" "teams_name_key" (Team.Name team)), db)
           else (1, None, withTeams db (<[Team.Id team := team]> (Teams db)))
       end).

(** [Update]; [now] is what [model.GetMillis] returns. *)
Definition Update (team : Team.t) (now : Z)
  : Conn (option Team.t * option error) :=
  let team := Team_PreUpdate team in
  match Team_IsValid team with
  | Some err => mret (None, Some err)
  | None =>
      '(oldResult, err) ←
        onMaster {| verb := SELECT; table := "Teams"; keys := [Team.Id team] |}
          None (fun db => (Teams db !! Team.Id team, None, db));
      match err with
      | Some _ => mret (None, err)
      | None =>
          match oldResult with
          | None => mret (None, err)
          | Some oldTeam =>
              let team := Team.withTimes team (Team.CreateAt oldTeam) now in
              '(count, err) ← gorpUpdate team;
              match err with
              | Some _ => mret (None, err)
              | None =>
                  if negb (count =? 1) then mret (None, err)
                  else mret (Some team, None)
              end
          end
      end
  end.

Definition Get (id : string) : Conn (option Team.t * option error) :=
  '(obj, err) ←
    onReplica {| verb := SELECT; table := "Teams"; keys := [id] |}
      None (fun db => (Teams db !! id, None));
  match err with
  | Some _ => mret (None, err)
  | None =>
      match obj with
      | None => mret (None, err)
      | Some team => mret (Some team, None)
      end
  end.

Definition GetByName (name : string) : Conn (option Team.t * option error) :=
  '(team, err) ←
    onReplica {| verb := SELECT; table := "Teams"; keys := [name] |}
      None
      (fun db =>
         selectOne (List.filter (fun row => String.eqb (Team.Name row) name)
                                (map snd (map_to_list (Teams db)))));
  match err with
  | Some e =>
      if isErrNoRows e then mret (None, err) else mret (None, err)
  | None => mret (team, None)
  end.

(** *** Team members *)

(** The row that the bulk [INSERT] writes for a member, in the column
    order of [teamMemberSliceColumns]. *)
Definition teamMemberToSlice (member : TeamMember.t) : teamMember.t :=
  {| teamMember.TeamId := TeamMember.TeamId member;
     teamMember.UserId := TeamMember.UserId member;
     teamMember.Roles := TeamMember.ExplicitRoles member;
     teamMember.DeleteAt := TeamMember.DeleteAt member;
     teamMember.SchemeUser := {| Bool := TeamMember.SchemeUser member; Valid := true |};
     teamMember.SchemeAdmin := {| Bool := TeamMember.SchemeAdmin member; Valid := true |};
     teamMember.SchemeGuest := {| Bool := TeamMember.SchemeGuest member; Valid := true |} |}.

(** [SELECT Teams.Id, TeamScheme.Default...Role FROM Teams LEFT JOIN
    Schemes TeamScheme ... WHERE Teams.Id IN teams]. *)
Definition selectDefaultTeamRoles (teams : list string) (db : DB)
  : list defaultTeamRoles.t :=
  omap (fun '(id, team) =>
          if existsb (String.eqb id) teams then
            let scheme := Team.SchemeId team ≫= (fun sid => Schemes db !! sid) in
            Some {| defaultTeamRoles.Id := id;
                    defaultTeamRoles.Guest :=
                      nullString (Scheme.DefaultTeamGuestRole <$> scheme);
                    defaultTeamRoles.User :=
                      nullString (Scheme.DefaultTeamUserRole <$> scheme);
                    defaultTeamRoles.Admin :=
                      nullString (Scheme.DefaultTeamAdminRole <$> scheme) |}
          else None)
       (map_to_list (Teams db)).

(** Is the row an active membership of an active user? *)
Definition activeMember (db : DB) (row : teamMember.t) : bool :=
  (teamMember.DeleteAt row =? 0)
  && match Users db !! teamMember.UserId row with
     | Some user => User.DeleteAt user =? 0
     | None => false
     end.

(** [SELECT COUNT(0), TeamId FROM TeamMembers JOIN Users ... GROUP BY
    TeamId]: one counter per team that has an active member. *)
Definition selectMemberCounts (teams : list string) (db : DB)
  : list (Z * string) :=
  omap (fun teamId =>
          let n := len (List.filter
                          (fun row => String.eqb (teamMember.TeamId row) teamId
                                      && activeMember db row)
                          (TeamMembers db)) in
          if n =? 0 then None else Some (n, teamId))
       teams.

(** The first row of a bulk insert whose key is already taken. *)
Fixpoint firstDuplicate (taken : list teamMember.t) (rows : list teamMember.t)
  : option teamMember.t :=
  match rows with
  | [] => None
  | row :: rest =>
      if existsb (sameKey row) taken then Some row
      else firstDuplicate (row :: taken) rest
  end.

Definition insertMembers (d : Driver) (rows : list teamMember.t) (db : DB)
  : unit * option error * DB :=
  match firstDuplicate (TeamMembers db) rows with
  | Some row =>
      (tt, Some (duplicateKey d "PRIMARY" "teammembers_pkey"
                   (teamMember.TeamId row ++ "-" ++ teamMember.UserId row)), db)
  | None => (tt, None, withTeamMembers db (TeamMembers db ++ rows)%list)
  end.

(** The second loop of [SaveMultipleMembers]: count the new members of each
    team and validate them. *)
Fixpoint countNewMembers (members : list TeamMember.t)
    (newTeamMembers : gmap string Z) : gmap string Z + error :=
  match members with
  | [] => inl newTeamMembers
  | member :: rest =>
      let newTeamMembers :=
        <[TeamMember.TeamId member :=
            int_add (default 0 (newTeamMembers !! TeamMember.TeamId member)) 1]>
          newTeamMembers in
      match TeamMember_IsValid member with
      | Some err => inr err
      | None => countNewMembers rest newTeamMembers
      end
  end.

(** The body of the last loop of [SaveMultipleMembers] and of
    [UpdateMultipleMembers]: resolve the roles of one member. *)
Definition resolveMember
    (defaultTeamRolesByTeam : gmap string defaultTeamRoles.t)
    (member : TeamMember.t) : TeamMember.t :=
  let defaults :=
    default defaultTeamRoles.zero
            (defaultTeamRolesByTeam !! TeamMember.TeamId member) in
  let defaultTeamGuestRole := String_ (defaultTeamRoles.Guest defaults) in
  let defaultTeamUserRole := String_ (defaultTeamRoles.User defaults) in
  let defaultTeamAdminRole := String_ (defaultTeamRoles.Admin defaults) in
  let rolesResult :=
    getTeamRoles (TeamMember.SchemeGuest member) (TeamMember.SchemeUser member)
      (TeamMember.SchemeAdmin member)
      defaultTeamGuestRole defaultTeamUserRole defaultTeamAdminRole
      (Fields (TeamMember.ExplicitRoles member)) in
  {| TeamMember.TeamId := TeamMember.TeamId member;
     TeamMember.UserId := TeamMember.UserId member;
     TeamMember.Roles := Join (roles rolesResult) " ";
     TeamMember.DeleteAt := TeamMember.DeleteAt member;
     TeamMember.SchemeGuest := schemeGuest rolesResult;
     TeamMember.SchemeUser := schemeUser rolesResult;
     TeamMember.SchemeAdmin := schemeAdmin rolesResult;
     TeamMember.ExplicitRoles := Join (explicitRoles rolesResult) " " |}.

Definition byTeam (defaultTeamsRoles : list defaultTeamRoles.t)
  : gmap string defaultTeamRoles.t :=
  fold_left (fun m defaultRoles => <[defaultTeamRoles.Id defaultRoles := defaultRoles]> m)
            defaultTeamsRoles ∅.

(** The [existingMembers] of a team among the counters. *)
Definition existingMembers (counters : list (Z * string)) (teamId : string) : Z :=
  fold_left (fun existing '(count, counterTeam) =>
               if String.eqb counterTeam teamId then count else existing)
            counters 0.

(** The capacity check: [Some err] when the method returns from inside it
    (with [nil] members and that [err]), [None] when it goes on. *)
Definition checkCapacity (teams : list string) (newTeamMembers : gmap string Z)
    (maxUsersPerTeam : Z) : Conn (option (option error)) :=
  '(counters, err) ←
    onMaster {| verb := SELECT; table := "TeamMembers"; keys := teams |} []
      (fun db => (selectMemberCounts teams db, None, db));
  match err with
  | Some _ => mret (Some err)
  | None =>
      if existsb (fun '(teamId, newMembers) =>
                    int_add (existingMembers counters teamId) newMembers
                    >? maxUsersPerTeam)
                 (map_to_list newTeamMembers)
      then mret (Some err)
      else mret None
  end.

Definition SaveMultipleMembers (members : list TeamMember.t) (maxUsersPerTeam : Z)
  : Conn (option (list TeamMember.t) * option error) :=
  let newTeamMembers :=
    fold_left (fun m member => <[TeamMember.TeamId member := 0]> m) members
              (∅ : gmap string Z) in
  match countNewMembers members newTeamMembers with
  | inr err => mret (None, Some err)
  | inl newTeamMembers =>
      let teams := (map_to_list newTeamMembers).*1 in
      d ← getDriverName;
      '(defaultTeamsRoles, err) ←
        onMaster {| verb := SELECT; table := "Teams"; keys := teams |} []
          (fun db => (selectDefaultTeamRoles teams db, None, db));
      match err with
      | Some _ => mret (None, err)
      | None =>
          let defaultTeamRolesByTeam := byTeam defaultTeamsRoles in
          returned ←
            (if maxUsersPerTeam >=? 0
             then checkCapacity teams newTeamMembers maxUsersPerTeam
             else mret None);
          match returned with
          | Some err => mret (None, err)
          | None =>
              match members with
              | [] =>
                  mret (None, Some (errorString
                    "insert statements must have at least one set of values or select clause"))
              | _ =>
                  '(_, err) ←
                    onMaster {| verb := INSERT; table := "TeamMembers"; keys := teams |} tt
                      (insertMembers d (map teamMemberToSlice members));
                  match err with
                  | Some _ => mret (None, err)
                  | None =>
                      mret (Some (map (resolveMember defaultTeamRolesByTeam) members),
                            None)
                  end
              end
          end
      end
  end.

(** gorp's [Update] of a member row, by primary key. *)
Definition updateMemberRow (row : teamMember.t) (db : DB) : Z * option error * DB :=
  (len (List.filter (sameKey row) (TeamMembers db)), None,
   withTeamMembers db
     (map (fun old => if sameKey row old then row else old) (TeamMembers db))).

(** The first loop of [UpdateMultipleMembers]; it yields the members as
    [PreUpdate] left them and the team ids collected. *)
Fixpoint updateEach (members : list TeamMember.t)
    (done : list TeamMember.t) (teams : list string)
  : Conn (option (list TeamMember.t * list string) * option error) :=
  match members with
  | [] => mret (Some (done, teams), None)
  | member :: rest =>
      let member := TeamMember_PreUpdate member in
      match TeamMember_IsValid member with
      | Some err => mret (None, Some err)
      | None =>
          '(_, err) ←
            onMaster {| verb := UPDATE; table := "TeamMembers";
                        keys := [TeamMember.TeamId member; TeamMember.UserId member] |}
              0 (updateMemberRow (NewTeamMemberFromModel member));
          match err with
          | Some _ => mret (None, err)
          | None =>
              updateEach rest (append done member)
                         (append teams (TeamMember.TeamId member))
          end
      end
  end.

Definition UpdateMultipleMembers (members : list TeamMember.t)
  : Conn (option (list TeamMember.t) * option error) :=
  '(updated, err) ← updateEach members [] [];
  match updated with
  | None => mret (None, err)
  | Some (members, teams) =>
      '(defaultTeamsRoles, err) ←
        onMaster {| verb := SELECT; table := "Teams"; keys := teams |} []
          (fun db => (selectDefaultTeamRoles teams db, None, db));
      match err with
      | Some _ => mret (None, err)
      | None =>
          let defaultTeamRolesByTeam := byTeam defaultTeamsRoles in
          mret (Some (map (resolveMember defaultTeamRolesByTeam) members), None)
      end
  end.

(** The [SELECT ... WHERE (TeamId, UserId) > (:FromTeamId, :FromUserId)
    ORDER BY TeamId, UserId LIMIT 100] of [MigrateTeamMembers]. *)
Definition selectAfter (lt : string -> string -> bool)
    (fromTeamId fromUserId : string) (limit : nat) (db : DB)
  : list teamMember.t :=
  firstn limit
    (orderBy (fun a b => keyLt lt (memberKey a) (memberKey b))
       (List.filter (fun row => keyLt lt (fromTeamId, fromUserId) (memberKey row))
                    (TeamMembers db))).

(** The per-row loop of [MigrateTeamMembers]. *)
Fixpoint migrateEach (teamMembers : list teamMember.t) (tx : Transaction)
  : Conn (option error * Transaction) :=
  match teamMembers with
  | [] => mret (None, tx)
  | member :: rest =>
      let member := migrateMember member in
      '(_, err, tx) ←
        inTx {| verb := UPDATE; table := "TeamMembers";
                keys := [teamMember.TeamId member; teamMember.UserId member] |}
          0 (updateMemberRow member) tx;
      match err with
      | Some _ => mret (err, tx)
      | None => migrateEach rest tx
      end
  end.

Definition MigrateTeamMembers (fromTeamId fromUserId : string)
  : Conn (option (gmap string string) * option error) :=
  lt ← getCollation;
  '(transaction, err) ← Begin;
  match transaction, err with
  | Some transaction, None =>
      '(teamMembers, err, transaction) ←
        inTx {| verb := SELECT; table := "TeamMembers";
                keys := [fromTeamId; fromUserId] |} []
          (fun db => (selectAfter lt fromTeamId fromUserId 100 db, None, db))
          transaction;
      match err with
      | Some _ => mret (None, err)
      | None =>
          match last (teamMembers : list teamMember.t) with
          | None => mret (None, None)
          | Some lastMember =>
              '(err, transaction) ← migrateEach teamMembers transaction;
              match err with
              | Some _ => mret (None, err)
              | None =>
                  err ← Commit transaction;
                  match err with
                  | Some _ => mret (None, err)
                  | None =>
                      let data : gmap string string :=
                        <["UserId" := teamMember.UserId lastMember]>
                          (<["TeamId" := teamMember.TeamId lastMember]> ∅) in
                      mret (Some data, None)
                  end
              end
          end
      end
  | _, _ => mret (None, err)
  end.

(** *** Reading members back *)

(** One row of [getTeamMembersWithSchemeSelectQuery]: the member row
    left-joined with its team and with the team's scheme. *)
Definition withSchemeRoles (db : DB) (row : teamMember.t)
  : teamMemberWithSchemeRoles.t :=
  let scheme :=
    Teams db !! teamMember.TeamId row
      ≫= (fun team => Team.SchemeId team ≫= (fun sid => Schemes db !! sid)) in
  {| teamMemberWithSchemeRoles.TeamId := teamMember.TeamId row;
     teamMemberWithSchemeRoles.UserId := teamMember.UserId row;
     teamMemberWithSchemeRoles.Roles := teamMember.Roles row;
     teamMemberWithSchemeRoles.DeleteAt := teamMember.DeleteAt row;
     teamMemberWithSchemeRoles.SchemeGuest := teamMember.SchemeGuest row;
     teamMemberWithSchemeRoles.SchemeUser := teamMember.SchemeUser row;
     teamMemberWithSchemeRoles.SchemeAdmin := teamMember.SchemeAdmin row;
     teamMemberWithSchemeRoles.TeamSchemeDefaultGuestRole :=
       nullString (Scheme.DefaultTeamGuestRole <$> scheme);
     teamMemberWithSchemeRoles.TeamSchemeDefaultUserRole :=
       nullString (Scheme.DefaultTeamUserRole <$> scheme);
     teamMemberWithSchemeRoles.TeamSchemeDefaultAdminRole :=
       nullString (Scheme.DefaultTeamAdminRole <$> scheme) |}.

(** The rows of [getTeamMembersWithSchemeSelectQuery] under a [WHERE]. *)
Definition selectWithSchemeRoles (db : DB) (cond : teamMember.t -> bool)
  : list teamMemberWithSchemeRoles.t :=
  map (withSchemeRoles db) (List.filter cond (TeamMembers db)).

Definition GetMember (teamId userId : string)
  : Conn (option TeamMember.t * option error) :=
  '(dbMember, err) ←
    onReplica {| verb := SELECT; table := "TeamMembers"; keys := [teamId; userId] |}
      None
      (fun db =>
         selectOne
           (selectWithSchemeRoles db
              (fun row => String.eqb (teamMember.TeamId row) teamId
                          && String.eqb (teamMember.UserId row) userId)));
  match err, dbMember with
  | Some e, _ =>
      if isErrNoRows e then mret (None, err) else mret (None, err)
  | None, Some dbMember => mret (Some (ToModel dbMember), None)
  | None, None => mret (None, None)
  end.

Definition GetTeamsForUser (userId : string)
  : Conn (option (list TeamMember.t) * option error) :=
  '(dbMembers, err) ←
    onReplica {| verb := SELECT; table := "TeamMembers"; keys := [userId] |}
      []
      (fun db =>
         (selectWithSchemeRoles db
            (fun row => String.eqb (teamMember.UserId row) userId), None));
  match err with
  | Some _ => mret (None, err)
  | None => mret (Some (ToModelList dbMembers), None)
  end.

(** [SaveMember]: the first element of what [SaveMultipleMembers] returns;
    indexing a nil or empty slice panics. *)
Definition SaveMember (member : TeamMember.t) (maxUsersPerTeam : Z)
  : Conn (outcome (option TeamMember.t * option error)) :=
  '(members, err) ← SaveMultipleMembers [member] maxUsersPerTeam;
  match err with
  | Some _ => mret (returns (None, err))
  | None =>
      match members with
      | Some (first :: _) => mret (returns (Some first, None))
      | _ => mret (panics "runtime error: index out of range [0] with length 0")
      end
  end.

Definition UpdateMember (member : TeamMember.t)
  : Conn (outcome (option TeamMember.t * option error)) :=
  '(members, err) ← UpdateMultipleMembers [member];
  match err with
  | Some _ => mret (returns (None, err))
  | None =>
      match members with
      | Some (first :: _) => mret (returns (Some first, None))
      | _ => mret (panics "runtime error: index out of range [0] with length 0")
      end
  end.

(** [GetByInviteId].  The [WHERE InviteId = :InviteId] is the database's
    comparison: two strings are equal for it when the collation orders
    neither before the other (a case-insensitive collation finds more than
    the exact string), which is what the method checks again on the row. *)
Definition GetByInviteId (inviteId : string)
  : Conn (option Team.t * option error) :=
  lt ← getCollation;
  '(team, err) ←
    onReplica {| verb := SELECT; table := "Teams"; keys := [inviteId] |}
      None
      (fun db =>
         selectOne (List.filter
                      (fun row => negb (lt (Team.InviteId row) inviteId)
                                  && negb (lt inviteId (Team.InviteId row)))
                      (map snd (map_to_list (Teams db)))));
  match err, team with
  | Some _, _ => mret (None, err)
  | None, Some team =>
      if (String.length inviteId =? 0)%nat
         || negb (String.eqb (Team.InviteId team) inviteId)
      then mret (None, err)
      else mret (Some team, None)
  | None, None => mret (None, err)
  end.

(** [GetByNames].  [utils.RemoveDuplicatesFromStringArray] is not part of
    these sources: it is a parameter. *)
Definition GetByNames (RemoveDuplicatesFromStringArray : list string -> list string)
    (names : list string) : Conn (option (list Team.t) * option error) :=
  let uniqueNames := RemoveDuplicatesFromStringArray names in
  '(teams, err) ←
    onReplica {| verb := SELECT; table := "Teams"; keys := uniqueNames |}
      []
      (fun db =>
         (List.filter (fun row => existsb (String.eqb (Team.Name row)) uniqueNames)
                      (map snd (map_to_list (Teams db))), None));
  match err with
  | Some e =>
      if isErrNoRows e then mret (None, err) else mret (None, err)
  | None =>
      if negb (len (teams : list Team.t) =? len uniqueNames) then mret (None, err)
      else mret (Some teams, None)
  end.

(** [RemoveMembers]: [DELETE FROM TeamMembers WHERE TeamId = ? AND UserId IN
    (...)]. *)
Definition RemoveMembers (teamId : string) (userIds : list string)
  : Conn (option error) :=
  err ←
    execDelete
      (fun db =>
         withTeamMembers db
           (List.filter
              (fun row =>
                 negb (String.eqb (teamMember.TeamId row) teamId
                       && existsb (String.eqb (teamMember.UserId row)) userIds))
              (TeamMembers db)));
  match err with
  | Some _ => mret err
  | None => mret None
  end.

Definition RemoveMember (teamId userId : string) : Conn (option error) :=
  RemoveMembers teamId [userId].

Definition RemoveAllMembersByTeam (teamId : string) : Conn (option error) :=
  err ←
    execDelete
      (fun db =>
         withTeamMembers db
           (List.filter
              (fun row => negb (String.eqb (teamMember.TeamId row) teamId))
              (TeamMembers db)));
  match err with
  | Some _ => mret err
  | None => mret None
  end.

Definition RemoveAllMembersByUser (userId : string) : Conn (option error) :=
  err ←
    execDelete
      (fun db =>
         withTeamMembers db
           (List.filter
              (fun row => negb (String.eqb (teamMember.UserId row) userId))
              (TeamMembers db)));
  match err with
  | Some _ => mret err
  | None => mret None
  end.

(** *** Custom role assignments *)

(** The two inner loops of [ClearAllCustomRoleAssignments]: the tokens of
    [roles] that are names of built-in roles.  [builtInRoles] holds the
    names of the map that [model.MakeDefaultRoles] returns. *)
Definition keepBuiltIn (builtInRoles : list string) (roles : string) : list string :=
  fold_left (fun newRoles role =>
               if existsb (fun name => String.eqb name role) builtInRoles
               then append newRoles role else newRoles)
            (Fields roles) [].

(** [UPDATE TeamMembers SET Roles = :Roles WHERE UserId = :UserId AND
    TeamId = :TeamId]. *)
Definition updateRoles (teamId userId newRoles : string) (db : DB)
  : Z * option error * DB :=
  let hit (old : teamMember.t) :=
    String.eqb (teamMember.UserId old) userId
    && String.eqb (teamMember.TeamId old) teamId in
  (len (List.filter hit (TeamMembers db)), None,
   withTeamMembers db
     (map (fun old => if hit old then withRoles old newRoles else old)
          (TeamMembers db))).

(** The loop over the rows of one batch; it yields the cursor it has
    reached. *)
Fixpoint clearEach (builtInRoles : list string) (teamMembers : list teamMember.t)
    (lastTeamId lastUserId : string) (transaction : Transaction)
  : Conn (option error * Transaction * (string * string)) :=
  match teamMembers with
  | [] => mret (None, transaction, (lastTeamId, lastUserId))
  | member :: rest =>
      let lastUserId := teamMember.UserId member in
      let lastTeamId := teamMember.TeamId member in
      let newRoles := keepBuiltIn builtInRoles (teamMember.Roles member) in
      let newRolesString := Join newRoles " " in
      if negb (String.eqb newRolesString (teamMember.Roles member)) then
        '(_, err, transaction) ←
          inTx {| verb := UPDATE; table := "TeamMembers";
                  keys := [teamMember.TeamId member; teamMember.UserId member] |}
            0
            (updateRoles (teamMember.TeamId member) (teamMember.UserId member)
                         newRolesString)
            transaction;
        match err with
        | Some _ => mret (err, transaction, (lastTeamId, lastUserId))
        | None => clearEach builtInRoles rest lastTeamId lastUserId transaction
        end
      else clearEach builtInRoles rest lastTeamId lastUserId transaction
  end.

(** The outer [for] of [ClearAllCustomRoleAssignments], one transaction per
    batch of 1000 rows.  [fuel] bounds the number of batches; the result is
    [None] when it runs out, and what the method returns otherwise. *)
Fixpoint clearLoop (builtInRoles : list string) (fuel : nat)
    (lastTeamId lastUserId : string) : Conn (option (option error)) :=
  match fuel with
  | O => mret None
  | S fuel' =>
      lt ← getCollation;
      '(transaction, err) ← Begin;
      match transaction, err with
      | Some transaction, None =>
          '(teamMembers, err, transaction) ←
            inTx {| verb := SELECT; table := "TeamMembers";
                    keys := [lastTeamId; lastUserId] |} []
              (fun db => (selectAfter lt lastTeamId lastUserId 1000 db, None, db))
              transaction;
          match err with
          | Some _ => mret (Some err)
          | None =>
              if len (teamMembers : list teamMember.t) =? 0 then mret (Some None)
              else
                '(err, transaction, last) ←
                  clearEach builtInRoles teamMembers lastTeamId lastUserId
                            transaction;
                match err with
                | Some _ => mret (Some err)
                | None =>
                    err ← Commit transaction;
                    match err with
                    | Some _ => mret (Some err)
                    | None => clearLoop builtInRoles fuel' (fst last) (snd last)
                    end
                end
          end
      | _, _ => mret (Some err)
      end
  end.

Definition ClearAllCustomRoleAssignments (builtInRoles : list string) (fuel : nat)
  : Conn (option (option error)) :=
  let lastUserId := Repeat "0" 26 in
  let lastTeamId := Repeat "0" 26 in
  clearLoop builtInRoles fuel lastTeamId lastUserId.

End Teams.
End SqlTeamStore.

(** ** [system_store.go] *)

Module SqlSystemStore.

Definition InsertIfExists (system : System.t)
  : Conn (option System.t * option error) :=
  d ← getDriverName;
  '(tx, err) ← Begin;
  match tx, err with
  | Some tx, None =>
      '(row, err, tx) ←
        inTx {| verb := SELECT; table := "Systems"; keys := [System.Name system] |}
          None
          (fun db =>
             (selectOne
                (rowsOf ((fun v => {| System.Name := System.Name system;
                                       System.Value := v |})
                           <$> Systems db !! System.Name system)), db))
          tx;
      let origSystem :=
        default {| System.Name := EmptyString; System.Value := EmptyString |} row in
      if match err with Some e => negb (isErrNoRows e) | None => false end
      then mret (None, err)
      else if negb (String.eqb (System.Value origSystem) EmptyString)
      then mret (Some origSystem, None)
      else
        '(_, err, tx) ←
          inTx {| verb := INSERT; table := "Systems"; keys := [System.Name system] |}
            tt
            (fun db =>
               match Systems db !! System.Name system with
               | Some _ =>
                   (tt, Some (duplicateKey d "PRIMARY" "systems_pkey"
                                           (System.Name system)), db)
               | None =>
                   (tt, None,
                    withSystems db
                      (<[System.Name system := System.Value system]> (Systems db)))
               end)
            tx;
        match err with
        | Some _ => mret (None, err)
        | None =>
            err ← Commit tx;
            match err with
            | Some _ => mret (None, err)
            | None => mret (Some system, None)
            end
        end
  | _, _ => mret (None, err)
  end.

(** gorp's [Insert] and [Update] of a system row, by the primary key
    [Name]. *)
Definition insertSystem (d : Driver) (system : System.t) (db : DB)
  : unit * option error * DB :=
  match Systems db !! System.Name system with
  | Some _ =>
      (tt, Some (duplicateKey d "PRIMARY" "systems_pkey" (System.Name system)), db)
  | None =>
      (tt, None,
       withSystems db (<[System.Name system := System.Value system]> (Systems db)))
  end.

Definition updateSystem (system : System.t) (db : DB) : Z * option error * DB :=
  match Systems db !! System.Name system with
  | Some _ =>
      (1, None,
       withSystems db (<[System.Name system := System.Value system]> (Systems db)))
  | None => (0, None, db)
  end.

(** [SELECT * FROM Systems WHERE Name = :Name] through [SelectOne]. *)
Definition selectSystem (name : string) (db : DB) : option System.t * option error :=
  selectOne (rowsOf ((fun v => {| System.Name := name; System.Value := v |})
                       <$> Systems db !! name)).

Definition Save (system : System.t) : Conn (option error) :=
  d ← getDriverName;
  '(_, err) ←
    onMaster {| verb := INSERT; table := "Systems"; keys := [System.Name system] |}
      tt (insertSystem d system);
  match err with
  | Some _ => mret err
  | None => mret None
  end.

Definition SaveOrUpdate (system : System.t) : Conn (option error) :=
  d ← getDriverName;
  '(_, err) ←
    onMaster {| verb := SELECT; table := "Systems"; keys := [System.Name system] |}
      None
      (fun db => (selectSystem (System.Name system) db, db));
  match err with
  | None =>
      '(_, err) ←
        onMaster {| verb := UPDATE; table := "Systems"; keys := [System.Name system] |}
          0 (updateSystem system);
      match err with
      | Some _ => mret err
      | None => mret None
      end
  | Some _ =>
      '(_, err) ←
        onMaster {| verb := INSERT; table := "Systems"; keys := [System.Name system] |}
          tt (insertSystem d system);
      match err with
      | Some _ => mret err
      | None => mret None
      end
  end.

Definition Update (system : System.t) : Conn (option error) :=
  '(_, err) ←
    onMaster {| verb := UPDATE; table := "Systems"; keys := [System.Name system] |}
      0 (updateSystem system);
  match err with
  | Some _ => mret err
  | None => mret None
  end.

(** [Get]: every row, as a map from names to values. *)
Definition Get : Conn (option (gmap string string) * option error) :=
  '(systems, err) ←
    onReplica {| verb := SELECT; table := "Systems"; keys := [] |} []
      (fun db => (map_to_list (Systems db), None));
  match err with
  | Some _ => mret (None, err)
  | None =>
      mret (Some (fold_left (fun props '(name, value) => <[name := value]> props)
                            systems ∅), None)
  end.

Definition GetByName (name : string) : Conn (option System.t * option error) :=
  '(system, err) ←
    onMaster {| verb := SELECT; table := "Systems"; keys := [name] |}
      None (fun db => (selectSystem name db, db));
  match err with
  | Some _ => mret (None, err)
  | None =>
      mret (Some (default {| System.Name := EmptyString; System.Value := EmptyString |}
                          system), None)
  end.

(** [PermanentDeleteByName]: what it returns is the [system] variable that
    nothing has written to. *)
Definition PermanentDeleteByName (name : string)
  : Conn (option System.t * option error) :=
  let system := {| System.Name := EmptyString; System.Value := EmptyString |} in
  err ← execDelete (fun db => withSystems db (delete name (Systems db)));
  match err with
  | Some _ => mret (None, err)
  | None => mret (Some system, None)
  end.

End SqlSystemStore.

(** ** The status store *)

Module SqlStatusStore.

Definition SaveOrUpdate (status : Status.t) : Conn (option error) :=
  d ← getDriverName;
  '(_, err) ←
    onReplica {| verb := SELECT; table := "Status"; keys := [Status.UserId status] |}
      None
      (fun db => selectOne (rowsOf (StatusRows db !! Status.UserId status)));
  match err with
  | None =>
      '(_, err) ←
        onMaster {| verb := UPDATE; table := "Status"; keys := [Status.UserId status] |}
          0
          (fun db =>
             match StatusRows db !! Status.UserId status with
             | Some _ =>
                 (1, None,
                  withStatusRows db
                    (<[Status.UserId status := status]> (StatusRows db)))
             | None => (0, None, db)
             end);
      match err with
      | Some _ => mret err
      | None => mret None
      end
  | Some _ =>
      '(_, err) ←
        onMaster {| verb := INSERT; table := "Status"; keys := [Status.UserId status] |}
          tt
          (fun db =>
             match StatusRows db !! Status.UserId status with
             | Some _ =>
                 (tt, Some (duplicateKey d "PRIMARY" "status_pkey"
                                         (Status.UserId status)), db)
             | None =>
                 (tt, None,
                  withStatusRows db
                    (<[Status.UserId status := status]> (StatusRows db)))
             end);
      match err with
      | Some e =>
          if negb (Contains (Error e) "for key 'PRIMARY'"
                   && Contains (Error e) "Duplicate entry")
          then mret err
          else mret None
      | None => mret None
      end
  end.

Definition Get (userId : string) : Conn (option Status.t * option error) :=
  '(status, err) ←
    onReplica {| verb := SELECT; table := "Status"; keys := [userId] |}
      None
      (fun db => selectOne (rowsOf (StatusRows db !! userId)));
  match err with
  | Some e =>
      if isErrNoRows e then mret (None, err) else mret (None, err)
  | None =>
      mret (Some (default {| Status.UserId := EmptyString;
                             Status.Status := EmptyString;
                             Status.Manual := false;
                             Status.LastActivityAt := 0;
                             Status.ActiveChannel := EmptyString |} status), None)
  end.

End SqlStatusStore.

(** ** The job store *)

Module SqlJobStore.
Section Jobs.
Context `{M : ModelPkg}.

(** [UpdateOptimistically]; [now] is what [model.GetMillis] returns. *)
Definition UpdateOptimistically (job : Job.t) (currentStatus : string) (now : Z)
  : Conn (bool * option error) :=
  '(rows, err) ←
    onMaster {| verb := UPDATE; table := "Jobs"; keys := [Job.Id job] |} 0
      (fun db =>
         match Jobs db !! Job.Id job with
         | Some row =>
             if String.eqb (Job.rStatus row) currentStatus then
               (1, None,
                withJobs db
                  (<[Job.Id job :=
                       {| Job.rId := Job.rId row; Job.rType := Job.rType row;
                          Job.rPriority := Job.rPriority row;
                          Job.rCreateAt := Job.rCreateAt row;
                          Job.rStartAt := Job.rStartAt row;
                          Job.rLastActivityAt := now;
                          Job.rStatus := Job.Status job;
                          Job.rProgress := Job.Progress job;
                          Job.rData := Job_DataToJson job |}]> (Jobs db)))
             else (0, None, db)
         | None => (0, None, db)
         end);
  match err with
  | Some _ => mret (false, err)
  | None =>
      if negb (rows =? 1) then mret (false, None) else mret (true, None)
  end.

(** [UpdateStatusOptimistically]; [now] and [startAt] are the two readings
    of [model.GetMillis]. *)
Definition UpdateStatusOptimistically (id currentStatus newStatus : string)
    (now startAt : Z) : Conn (bool * option error) :=
  '(rows, err) ←
    onMaster {| verb := UPDATE; table := "Jobs"; keys := [id] |} 0
      (fun db =>
         match Jobs db !! id with
         | Some row =>
             if String.eqb (Job.rStatus row) currentStatus then
               (1, None,
                withJobs db
                  (<[id :=
                       {| Job.rId := Job.rId row; Job.rType := Job.rType row;
                          Job.rPriority := Job.rPriority row;
                          Job.rCreateAt := Job.rCreateAt row;
                          Job.rStartAt :=
                            (if String.eqb newStatus JOB_STATUS_IN_PROGRESS
                             then startAt else Job.rStartAt row);
                          Job.rLastActivityAt := now;
                          Job.rStatus := newStatus;
                          Job.rProgress := Job.rProgress row;
                          Job.rData := Job.rData row |}]> (Jobs db)))
             else (0, None, db)
         | None => (0, None, db)
         end);
  match err with
  | Some _ => mret (false, err)
  | None =>
      if negb (rows =? 1) then mret (false, None) else mret (true, None)
  end.

(** [UpdateStatus]: gorp's [UpdateColumns] writes the two columns of the
    row with the job's id; its count of rows is dropped.  [now] is what
    [model.GetMillis] returns. *)
Definition UpdateStatus (id status : string) (now : Z)
  : Conn (option Job.t * option error) :=
  let job :=
    {| Job.Id := id; Job.Type_ := EmptyString; Job.Priority := 0;
       Job.CreateAt := 0; Job.StartAt := 0; Job.LastActivityAt := now;
       Job.Status := status; Job.Progress := 0; Job.Data := [] |} in
  '(_, err) ←
    onMaster {| verb := UPDATE; table := "Jobs"; keys := [id] |} 0
      (fun db =>
         match Jobs db !! id with
         | Some row =>
             (1, None,
              withJobs db
                (<[id :=
                     {| Job.rId := Job.rId row; Job.rType := Job.rType row;
                        Job.rPriority := Job.rPriority row;
                        Job.rCreateAt := Job.rCreateAt row;
                        Job.rStartAt := Job.rStartAt row;
                        Job.rLastActivityAt := Job.LastActivityAt job;
                        Job.rStatus := Job.Status job;
                        Job.rProgress := Job.rProgress row;
                        Job.rData := Job.rData row |}]> (Jobs db)))
         | None => (0, None, db)
         end);
  match err with
  | Some _ => mret (None, err)
  | None => mret (Some job, None)
  end.

(** [Delete]. *)
Definition Delete (id : string) : Conn (string * option error) :=
  err ← execDelete (fun db => withJobs db (delete id (Jobs db)));
  match err with
  | Some _ => mret (EmptyString, err)
  | None => mret (id, None)
  end.

End Jobs.
End SqlJobStore.

(** ** Vocabulary of the statements *)

Section RoleVocabulary.
Context `{M : ModelPkg}.

(** A token that is one of the three well-known scheme role ids. *)
Definition isSchemeRole (role : string) : bool :=
  String.eqb role TEAM_GUEST_ROLE_ID
  || String.eqb role TEAM_USER_ROLE_ID
  || String.eqb role TEAM_ADMIN_ROLE_ID.

Definition nonSchemeRoles (tokens : list string) : list string :=
  List.filter (fun role => negb (isSchemeRole role)) tokens.

Definition hasRole (id : string) (tokens : list string) : bool :=
  existsb (fun role => String.eqb role id) tokens.

(** The three constants are the labels of one [switch]: Go rejects a
    [switch] with a repeated constant label, so they differ. *)
Definition roleIdsDistinct : Prop :=
  TEAM_GUEST_ROLE_ID <> TEAM_USER_ROLE_ID
  /\ TEAM_GUEST_ROLE_ID <> TEAM_ADMIN_ROLE_ID
  /\ TEAM_USER_ROLE_ID <> TEAM_ADMIN_ROLE_ID.

(** The flag a nullable scheme column stands for. *)
Definition flagOf (b : NullBool) : bool := Valid b && Bool b.

End RoleVocabulary.

(** A field of [strings.Fields]: not empty and free of white space. *)
Fixpoint noSpace (s : string) : bool :=
  match s with
  | EmptyString => true
  | String c s' => negb (isSpace c) && noSpace s'
  end.

Definition isField (t : string) : Prop := noSpace t = true /\ t <> EmptyString.

Section StoreVocabulary.
Context `{M : ModelPkg}.



End StoreVocabulary.

(** The test that [SqlStatusStore.SaveOrUpdate] applies to the text of an
    insert error. *)
Definition isDuplicatePrimary (e : error) : bool :=
  Contains (Error e) "for key 'PRIMARY'" && Contains (Error e) "Duplicate entry".

(** The two ways the [INSERT] of [SqlStatusStore.SaveOrUpdate] fails after a
    lookup that ran: the driver reports an error for it, or the master
    already holds a row for the user. *)
Inductive statusInsertFails (status : Status.t) (s : SqlStore) : error -> Prop :=
| insert_driver_error (e : error) (rest : list event) :
    script s = Proceed :: Fails e :: rest ->
    statusInsertFails status s e
| insert_key_taken (row : Status.t) :
    script s = [] ->
    StatusRows (master s) !! Status.UserId status = Some row ->
    statusInsertFails status s
      (duplicateKey (DriverName s) "PRIMARY" "status_pkey" (Status.UserId status)).

(** The keys of the [UPDATE]s of table [TeamMembers] in a log, in the order
    in which they were issued. *)
Definition updatedMembers (l : list Statement) : list (string * string) :=
  omap (fun st =>
          match verb st, keys st with
          | UPDATE, [teamId; userId] =>
              if String.eqb (table st) "TeamMembers" then Some (teamId, userId)
              else None
          | _, _ => None
          end) l.

(** A collation is a strict total order on ids. *)
Definition strictTotal {A} (lt : A -> A -> bool) : Prop :=
  (forall a, lt a a = false)
  /\ (forall a b c, lt a b = true -> lt b c = true -> lt a c = true)
  /\ (forall a b, a <> b -> lt a b = true \/ lt b a = true).

(** [a] comes before [b] in the order [lt]. *)
Definition ascendingBy {A} (lt : A -> A -> bool) (a b : A) : Prop := lt a b = true.

(** The keys that a migration cursor has still to visit, in the order of
    the [SELECT]. *)
Definition pending (lt : string -> string -> bool) (cursor : string * string)
    (rows : list teamMember.t) : list (string * string) :=
  orderBy (keyLt lt) (List.filter (keyLt lt cursor) (map memberKey rows)).

(** The store after the statements [sts] have been issued and have all
    proceeded. *)
Definition logged (sts : list Statement) (s : SqlStore) : SqlStore :=
  {| DriverName := DriverName s; collation := collation s;
     master := master s; replica := replica s; script := [];
     log := (log s ++ sts)%list |}.

(** What the per-row loop of [MigrateTeamMembers] does to the tables of the
    transaction, and the statements it issues, when every statement
    proceeds. *)
Definition applyMigration `{M : ModelPkg} (batch : list teamMember.t) (tx : DB) : DB :=
  fold_left (fun tx member =>
               snd (SqlTeamStore.updateMemberRow (migrateMember member) tx))
            batch tx.

Definition updateStmt `{M : ModelPkg} (member : teamMember.t) : Statement :=
  {| verb := UPDATE; table := "TeamMembers";
     keys := [teamMember.TeamId (migrateMember member);
              teamMember.UserId (migrateMember member)] |}.

(** The cursor that [MigrateTeamMembers] returns after [member]. *)
Definition cursorOf (member : teamMember.t) : gmap string string :=
  <["UserId" := teamMember.UserId member]>
    (<["TeamId" := teamMember.TeamId member]> ∅).

(** A computation whose result satisfies [P] and that issues at most [n]
    updates of member rows. *)
Definition updatesAtMost {A} (n : nat) (P : A -> Prop) (c : Conn A) : Prop :=
  forall s,
    P (fst (c s))
    /\ (length (updatedMembers (log (snd (c s))))
        <= length (updatedMembers (log s)) + n)%nat.

(** The caller of [MigrateTeamMembers]: call it again from the cursor it
    returned, until it returns no cursor; [fuel] bounds the number of calls.
    The boolean tells whether the terminal, empty result was reached. *)
Fixpoint migrationLoop `{M : ModelPkg} (fuel : nat) (fromTeamId fromUserId : string)
  : Conn (option error * bool) :=
  match fuel with
  | O => mret (None, false)
  | S fuel' =>
      '(data, err) ← SqlTeamStore.MigrateTeamMembers fromTeamId fromUserId;
      match err with
      | Some _ => mret (err, false)
      | None =>
          match data with
          | None => mret (None, true)
          | Some data =>
              migrationLoop fuel'
                (default EmptyString (data !! "TeamId"))
                (default EmptyString (data !! "UserId"))
          end
      end
  end.

(** ** Concrete inputs *)

Module Sample.

Definition teamA : string := "teamaaaaaaaaaaaaaaaaaaaaaa".
Definition teamB : string := "teambbbbbbbbbbbbbbbbbbbbbb".
Definition user1 : string := "user1aaaaaaaaaaaaaaaaaaaaa".
Definition user2 : string := "user2aaaaaaaaaaaaaaaaaaaaa".
Definition user3 : string := "user3aaaaaaaaaaaaaaaaaaaaa".

Definition member (teamId userId explicitRoles : string) : TeamMember.t :=
  {| TeamMember.TeamId := teamId; TeamMember.UserId := userId;
     TeamMember.Roles := EmptyString; TeamMember.DeleteAt := 0;
     TeamMember.SchemeGuest := false; TeamMember.SchemeUser := true;
     TeamMember.SchemeAdmin := false;
     TeamMember.ExplicitRoles := explicitRoles |}.

(** A legacy row: no scheme columns yet, everything in [Roles]. *)
Definition legacyRow (teamId userId roles : string) : teamMember.t :=
  {| teamMember.TeamId := teamId; teamMember.UserId := userId;
     teamMember.Roles := roles; teamMember.DeleteAt := 0;
     teamMember.SchemeUser := {| Bool := false; Valid := false |};
     teamMember.SchemeAdmin := {| Bool := false; Valid := false |};
     teamMember.SchemeGuest := {| Bool := false; Valid := false |} |}.

Definition team (id name : string) (createAt : Z) : Team.t :=
  {| Team.Id := id; Team.CreateAt := createAt; Team.UpdateAt := createAt;
     Team.DeleteAt := 0; Team.DisplayName := name; Team.Name := name;
     Team.Description := EmptyString; Team.Email := EmptyString;
     Team.CompanyName := EmptyString; Team.AllowedDomains := EmptyString;
     Team.InviteId := EmptyString; Team.LastTeamIconUpdate := 0;
     Team.SchemeId := None; Team.GroupConstrained := None |}.

Definition job (id status : string) : Job.t :=
  {| Job.Id := id; Job.Type_ := "data_retention"; Job.Priority := 0;
     Job.CreateAt := 1; Job.StartAt := 0; Job.LastActivityAt := 1;
     Job.Status := status; Job.Progress := 0; Job.Data := [] |}.

Definition jobRow (id status : string) : Job.row :=
  {| Job.rId := id; Job.rType := "data_retention"; Job.rPriority := 0;
     Job.rCreateAt := 1; Job.rStartAt := 0; Job.rLastActivityAt := 1;
     Job.rStatus := status; Job.rProgress := 0; Job.rData := "{}" |}.

Definition status (userId value : string) : Status.t :=
  {| Status.UserId := userId; Status.Status := value; Status.Manual := false;
     Status.LastActivityAt := 0; Status.ActiveChannel := EmptyString |}.

(** Team A with one active member, team B with none; one job; one system
    row with an empty value; a status row for user 1. *)
Definition tables : DB :=
  {| Teams := {[ teamA := team teamA "alpha" 5; teamB := team teamB "beta" 6 ]};
     Schemes := ∅;
     Users := {[ user1 := {| User.DeleteAt := 0 |};
                 user2 := {| User.DeleteAt := 0 |};
                 user3 := {| User.DeleteAt := 0 |} ]};
     TeamMembers := [legacyRow teamA user1 "team_user team_admin custom"];
     Systems := {[ "InstallationDate" := EmptyString ]};
     StatusRows := {[ user1 := status user1 "online" ]};
     Jobs := {[ "job1" := jobRow "job1" "pending" ]} |}.

Definition store (d : Driver) (master replica : DB) : SqlStore :=
  {| DriverName := d; collation := String.ltb; master := master;
     replica := replica; script := []; log := [] |}.

Definition healthy : SqlStore := store DATABASE_DRIVER_MYSQL tables tables.

(** Three legacy member rows, stored out of key order. *)
Definition legacy : SqlStore :=
  let db :=
    withTeamMembers tables
      [legacyRow teamB user3 "team_user";
       legacyRow teamA user2 "team_guest custom";
       legacyRow teamA user1 "team_user team_admin"] in
  store DATABASE_DRIVER_POSTGRES db db.

(** A replica that has not yet seen the status row of user 1. *)
Definition staleReplica : SqlStore :=
  store DATABASE_DRIVER_MYSQL tables (withStatusRows tables ∅).

End Sample.


(** ** Vocabulary of the further statements *)

(** The role names that the set scheme flags stand for, in the order in
    which [getTeamRoles] collects them. *)
Definition schemeImpliedRoles `{M : ModelPkg} (guest user admin : bool)
    (defaultTeamGuestRole defaultTeamUserRole defaultTeamAdminRole : string)
  : list string :=
  (impliedRole guest defaultTeamGuestRole TEAM_GUEST_ROLE_ID
   ++ impliedRole user defaultTeamUserRole TEAM_USER_ROLE_ID
   ++ impliedRole admin defaultTeamAdminRole TEAM_ADMIN_ROLE_ID)%list.


(** The default role names that the join of a member row brings along:
    those of the scheme of the member's team, empty where there is no team,
    no scheme, or a NULL. *)
Definition schemeOf (db : DB) (teamId : string) : option Scheme.t :=
  Teams db !! teamId
    ≫= (fun team => Team.SchemeId team ≫= (fun sid => Schemes db !! sid)).

Definition defaultName (column : option string) : string :=
  let ns := nullString column in
  if SValid ns then String_ ns else EmptyString.

(** The member that [ToModel] builds from the key columns and the resolved
    roles. *)
Definition memberOf (teamId userId : string) (deleteAt : Z) (r : rolesInfo)
  : TeamMember.t :=
  {| TeamMember.TeamId := teamId;
     TeamMember.UserId := userId;
     TeamMember.Roles := Join (roles r) " ";
     TeamMember.DeleteAt := deleteAt;
     TeamMember.SchemeGuest := schemeGuest r;
     TeamMember.SchemeUser := schemeUser r;
     TeamMember.SchemeAdmin := schemeAdmin r;
     TeamMember.ExplicitRoles := Join (explicitRoles r) " " |}.

(** No other session writes while the method runs: the script holds no
    interleaved write. *)
Definition noOtherSession (s : SqlStore) : Prop :=
  Forall (fun ev => match ev with Concurrent _ => False | _ => True end)
         (script s).

(** The store as a reader finds it once replication has caught up: the
    replica shows the master's tables, and nothing is scripted. *)
Definition caughtUp (s : SqlStore) : SqlStore :=
  {| DriverName := DriverName s; collation := collation s;
     master := master s; replica := master s; script := [];
     log := log s |}.

(** The active members of a team, as the capacity check counts them. *)
Definition activeMembers `{M : ModelPkg} (db : DB) (teamId : string) : Z :=
  len (List.filter
         (fun row => String.eqb (teamMember.TeamId row) teamId
                     && SqlTeamStore.activeMember db row)
         (TeamMembers db)).

(** Is there a row for the key of [member]? *)
Definition hasRow (db : DB) (teamId userId : string) : bool :=
  existsb (fun row => String.eqb (teamMember.TeamId row) teamId
                      && String.eqb (teamMember.UserId row) userId)
          (TeamMembers db).

(** What the update loop of [UpdateMultipleMembers] has written once it has
    gone through [members] with every statement proceeding. *)
Definition applyUpdates `{M : ModelPkg} (members : list TeamMember.t) (db : DB) : DB :=
  fold_left (fun db member =>
               snd (SqlTeamStore.updateMemberRow
                      (NewTeamMemberFromModel (TeamMember_PreUpdate member)) db))
            members db.

(** A row of the table in which the rows whose key satisfies [visited]
    have been rewritten by [f] and the others are as they were. *)
Definition rewrittenWhere (f : teamMember.t -> teamMember.t)
    (visited : string * string -> bool) (row : teamMember.t) : teamMember.t :=
  if visited (memberKey row) then f row else row.

(** The row that [ClearAllCustomRoleAssignments] leaves: only the built-in
    roles stay in column [Roles]. *)
Definition clearRow (builtInRoles : list string) (row : teamMember.t)
  : teamMember.t :=
  withRoles row (Join (SqlTeamStore.keepBuiltIn builtInRoles (teamMember.Roles row)) " ").

(** Is the token the name of a built-in role? *)
Definition isBuiltIn (builtInRoles : list string) (role : string) : bool :=
  existsb (fun name => String.eqb name role) builtInRoles.

(** The first cursor of [ClearAllCustomRoleAssignments]. *)
Definition zeroId : string := Repeat "0" 26.

(** What the loop body of [ClearAllCustomRoleAssignments] does to the rows
    of the transaction for one member, when its statement proceeds. *)
Definition clearStep (builtInRoles : list string) (member : teamMember.t)
    (rows : list teamMember.t) : list teamMember.t :=
  let newRolesString :=
    Join (SqlTeamStore.keepBuiltIn builtInRoles (teamMember.Roles member)) " " in
  if negb (String.eqb newRolesString (teamMember.Roles member)) then
    map (fun old =>
           if String.eqb (teamMember.UserId old) (teamMember.UserId member)
              && String.eqb (teamMember.TeamId old) (teamMember.TeamId member)
           then withRoles old newRolesString else old)
        rows
  else rows.

(** ** Further concrete inputs *)

Module Cases.

Definition teamC : string := "teamcccccccccccccccccccccc".
Definition scheme1 : string := "scheme1aaaaaaaaaaaaaaaaaaa".

(** A team with an invite id and a scheme that names its own roles. *)
Definition invited : Team.t :=
  {| Team.Id := teamC; Team.CreateAt := 7; Team.UpdateAt := 7;
     Team.DeleteAt := 0; Team.DisplayName := "gamma"; Team.Name := "gamma";
     Team.Description := EmptyString; Team.Email := EmptyString;
     Team.CompanyName := EmptyString; Team.AllowedDomains := EmptyString;
     Team.InviteId := "invite1"; Team.LastTeamIconUpdate := 0;
     Team.SchemeId := Some scheme1; Team.GroupConstrained := None |}.

Definition tables : DB :=
  {| Teams := <[teamC := invited]> (Teams Sample.tables);
     Schemes := {[ scheme1 := {| Scheme.DefaultTeamGuestRole := "gamma_guest";
                                 Scheme.DefaultTeamUserRole := "gamma_user";
                                 Scheme.DefaultTeamAdminRole := "gamma_admin" |} ]};
     Users := Users Sample.tables;
     TeamMembers := TeamMembers Sample.tables;
     Systems := Systems Sample.tables;
     StatusRows := StatusRows Sample.tables;
     Jobs := Jobs Sample.tables |}.

Definition store : SqlStore := Sample.store DATABASE_DRIVER_POSTGRES tables tables.

(** The member that the bulk insert returns for user 2 in team C. *)
Definition saved : TeamMember.t :=
  {| TeamMember.TeamId := teamC; TeamMember.UserId := Sample.user2;
     TeamMember.Roles := "custom gamma_user gamma_admin";
     TeamMember.DeleteAt := 0;
     TeamMember.SchemeGuest := false; TeamMember.SchemeUser := true;
     TeamMember.SchemeAdmin := true;
     TeamMember.ExplicitRoles := "custom" |}.




(** The member read from the legacy row of user 1 in team A. *)
Definition read : TeamMember.t :=
  {| TeamMember.TeamId := Sample.teamA; TeamMember.UserId := Sample.user1;
     TeamMember.Roles := "custom team_user team_admin";
     TeamMember.DeleteAt := 0;
     TeamMember.SchemeGuest := false; TeamMember.SchemeUser := true;
     TeamMember.SchemeAdmin := true;
     TeamMember.ExplicitRoles := "custom" |}.

(** An instance of [utils.RemoveDuplicatesFromStringArray]: the first
    occurrences, in their order. *)
Definition removeDuplicates (arr : list string) : list string :=
  fold_left (fun result item =>
               if existsb (String.eqb item) result then result
               else append result item)
            arr [].

(** Some names of [model.MakeDefaultRoles]. *)
Definition builtInRoles : list string :=
  ["team_guest"; "team_user"; "team_admin"; "system_user"; "system_admin"].

End Cases.
(* ================================================================== *)
(** * Theorems *)
(* ================================================================== *)

Example getTeamRoles_ex1 :
  getTeamRoles (M:=upstream) false false false EmptyString EmptyString EmptyString
    ["team_user"; "custom"; "team_admin"; "other"]
  = {| roles := ["custom"; "other"; "team_user"; "team_admin"];
       explicitRoles := ["custom"; "other"];
       schemeGuest := false; schemeUser := true; schemeAdmin := true |}.
Proof. reflexivity. Qed.

Example Fields_ex1 : Fields "  team_user   custom	x " = ["team_user"; "custom"; "x"].
Proof. reflexivity. Qed.

(** ** The role resolver *)

Section RoleResolverFacts.
Context `{M : ModelPkg}.

Lemma absorbRole_lists (rs : list string) : forall r,
  explicitRoles (fold_left absorbRole rs r)
    = (explicitRoles r ++ nonSchemeRoles rs)%list
  /\ roles (fold_left absorbRole rs r) = (roles r ++ nonSchemeRoles rs)%list.
Proof.
  induction rs as [|role rs IH]; intros r; simpl.
  - rewrite !app_nil_r. split; reflexivity.
  - destruct (IH (absorbRole r role)) as [He Hr]. rewrite He, Hr.
    unfold absorbRole, isSchemeRole, append.
    destruct (String.eqb role TEAM_GUEST_ROLE_ID); simpl; [split; reflexivity|].
    destruct (String.eqb role TEAM_USER_ROLE_ID); simpl; [split; reflexivity|].
    destruct (String.eqb role TEAM_ADMIN_ROLE_ID); simpl; [split; reflexivity|].
    rewrite <- !app_assoc. split; reflexivity.
Qed.

Lemma absorbRole_flags (rs : list string) :
  roleIdsDistinct -> forall r,
  schemeGuest (fold_left absorbRole rs r)
    = schemeGuest r || hasRole TEAM_GUEST_ROLE_ID rs
  /\ schemeUser (fold_left absorbRole rs r)
    = schemeUser r || hasRole TEAM_USER_ROLE_ID rs
  /\ schemeAdmin (fold_left absorbRole rs r)
    = schemeAdmin r || hasRole TEAM_ADMIN_ROLE_ID rs.
Proof.
  intros (Hgu & Hga & Hua).
  induction rs as [|role rs IH]; intros r; simpl.
  - rewrite !orb_false_r. repeat split; reflexivity.
  - destruct (IH (absorbRole r role)) as (Hg & Hu & Ha).
    rewrite Hg, Hu, Ha. clear IH Hg Hu Ha. unfold absorbRole.
    destruct (String.eqb_spec role TEAM_GUEST_ROLE_ID) as [->|Hg];
      [| destruct (String.eqb_spec role TEAM_USER_ROLE_ID) as [->|Hu];
         [| destruct (String.eqb_spec role TEAM_ADMIN_ROLE_ID) as [->|Ha]]];
      simpl;
      repeat match goal with
      | |- context [String.eqb ?a ?b] =>
          destruct (String.eqb_spec a b); try congruence
      end; simpl;
      rewrite ?orb_true_r, ?orb_false_r; simpl; repeat split; reflexivity.
Qed.

Lemma getTeamRoles_explicitRoles g u a dg du da (rs : list string) :
  explicitRoles (getTeamRoles g u a dg du da rs) = nonSchemeRoles rs.
Proof.
  unfold getTeamRoles; simpl.
  destruct (absorbRole_lists rs
    {| roles := []; explicitRoles := []; schemeGuest := g;
       schemeUser := u; schemeAdmin := a |}) as [He _].
  exact He.
Qed.

Lemma getTeamRoles_flags g u a dg du da (rs : list string) :
  roleIdsDistinct ->
  schemeGuest (getTeamRoles g u a dg du da rs) = g || hasRole TEAM_GUEST_ROLE_ID rs
  /\ schemeUser (getTeamRoles g u a dg du da rs) = u || hasRole TEAM_USER_ROLE_ID rs
  /\ schemeAdmin (getTeamRoles g u a dg du da rs) = a || hasRole TEAM_ADMIN_ROLE_ID rs.
Proof.
  intros Hd. unfold getTeamRoles; simpl.
  exact (absorbRole_flags rs Hd
    {| roles := []; explicitRoles := []; schemeGuest := g;
       schemeUser := u; schemeAdmin := a |}).
Qed.

Lemma nonSchemeRoles_count (rs : list string) (t : string) :
  count_occ string_dec (nonSchemeRoles rs) t
  = if isSchemeRole t then 0%nat else count_occ string_dec rs t.
Proof.
  induction rs as [|role rs IH]; simpl.
  - destruct (isSchemeRole t); reflexivity.
  - destruct (isSchemeRole role) eqn:Hr; simpl.
    + rewrite IH. destruct (string_dec role t) as [->|]; [|reflexivity].
      rewrite Hr. reflexivity.
    + rewrite IH. destruct (string_dec role t) as [->|]; [|reflexivity].
      rewrite Hr. reflexivity.
Qed.

Lemma nonSchemeRoles_In (rs : list string) (t : string) :
  In t (nonSchemeRoles rs) <-> In t rs /\ isSchemeRole t = false.
Proof.
  unfold nonSchemeRoles. rewrite filter_In, negb_true_iff. reflexivity.
Qed.

End RoleResolverFacts.

Section RoleResolverClaims.
Context `{M : ModelPkg}.

(** C2 (as amended): for every token list given to [getTeamRoles], the
    explicit-role list is exactly the non-scheme tokens in their original
    order, each occurring as many times as it occurs in the input (a
    repeated token stays repeated, a scheme id never occurs); each of the
    three flags is the flag passed in OR-ed with the presence of its
    well-known id among the tokens. *)
Theorem getTeamRoles_partition g u a dg du da (tokens : list string) :
  roleIdsDistinct ->
  let r := getTeamRoles g u a dg du da tokens in
  explicitRoles r = nonSchemeRoles tokens
  /\ (forall t, count_occ string_dec (explicitRoles r) t
                = if isSchemeRole t then 0%nat
                  else count_occ string_dec tokens t)
  /\ schemeGuest r = g || hasRole TEAM_GUEST_ROLE_ID tokens
  /\ schemeUser r = u || hasRole TEAM_USER_ROLE_ID tokens
  /\ schemeAdmin r = a || hasRole TEAM_ADMIN_ROLE_ID tokens.
Proof.
  intros Hd r. subst r.
  split; [apply getTeamRoles_explicitRoles|].
  split.
  - intros t. rewrite getTeamRoles_explicitRoles. apply nonSchemeRoles_count.
  - apply getTeamRoles_flags. exact Hd.
Qed.

Lemma migrateRole_fold (rs : list string) :
  roleIdsDistinct -> forall member acc,
  let '(m', newRoles) := fold_left migrateRole rs (member, acc) in
  newRoles = (acc ++ nonSchemeRoles rs)%list
  /\ teamMember.TeamId m' = teamMember.TeamId member
  /\ teamMember.UserId m' = teamMember.UserId member
  /\ teamMember.Roles m' = teamMember.Roles member
  /\ teamMember.DeleteAt m' = teamMember.DeleteAt member
  /\ teamMember.SchemeGuest m'
     = (if hasRole TEAM_GUEST_ROLE_ID rs then {| Bool := true; Valid := true |}
        else teamMember.SchemeGuest member)
  /\ teamMember.SchemeUser m'
     = (if hasRole TEAM_USER_ROLE_ID rs then {| Bool := true; Valid := true |}
        else teamMember.SchemeUser member)
  /\ teamMember.SchemeAdmin m'
     = (if hasRole TEAM_ADMIN_ROLE_ID rs then {| Bool := true; Valid := true |}
        else teamMember.SchemeAdmin member).
Proof.
  intros (Hgu & Hga & Hua).
  induction rs as [|role rs IH]; intros member acc; simpl.
  - rewrite app_nil_r. repeat split; reflexivity.
  - unfold isSchemeRole, append.
    destruct (String.eqb_spec role TEAM_ADMIN_ROLE_ID) as [->|Ha];
      [| destruct (String.eqb_spec role TEAM_USER_ROLE_ID) as [->|Hu];
         [| destruct (String.eqb_spec role TEAM_GUEST_ROLE_ID) as [->|Hg]]];
      match goal with
      | |- context [fold_left migrateRole rs (?m, ?a)] =>
          specialize (IH m a); destruct (fold_left migrateRole rs (m, a)) as [m' nr]
      end;
      destruct IH as (-> & -> & -> & -> & -> & -> & -> & ->); simpl;
      repeat match goal with
      | |- context [String.eqb ?a ?b] =>
          destruct (String.eqb_spec a b); try congruence
      end; simpl;
      repeat match goal with
      | |- context [if ?b then _ else _] => destruct b
      end;
      rewrite <- ?app_assoc; repeat split; reflexivity.
Qed.

Lemma orFalse_flagOf (b : NullBool) :
  orFalse b = {| Bool := flagOf b; Valid := true |}.
Proof. destruct b as [b [|]]; reflexivity. Qed.

(** C5: the per-row migration of [MigrateTeamMembers] computes the
    partition of the role resolver: the tokens it keeps are the resolver's
    explicit roles (the non-scheme tokens in original order), and each
    scheme column becomes a valid boolean equal to the resolver's flag,
    that is the stored flag (NULL counting as false) OR-ed with the
    presence of the well-known id among the tokens. *)
Theorem migrateMember_partition (member : teamMember.t) dg du da :
  roleIdsDistinct ->
  let tokens := Fields (teamMember.Roles member) in
  let r := getTeamRoles (flagOf (teamMember.SchemeGuest member))
                        (flagOf (teamMember.SchemeUser member))
                        (flagOf (teamMember.SchemeAdmin member))
                        dg du da tokens in
  let m' := migrateMember member in
  snd (migrateTokens member) = explicitRoles r
  /\ snd (migrateTokens member) = nonSchemeRoles tokens
  /\ teamMember.Roles m' = Join (explicitRoles r) " "
  /\ teamMember.SchemeGuest m' = {| Bool := schemeGuest r; Valid := true |}
  /\ teamMember.SchemeUser m' = {| Bool := schemeUser r; Valid := true |}
  /\ teamMember.SchemeAdmin m' = {| Bool := schemeAdmin r; Valid := true |}
  /\ schemeGuest r
     = flagOf (teamMember.SchemeGuest member) || hasRole TEAM_GUEST_ROLE_ID tokens
  /\ schemeUser r
     = flagOf (teamMember.SchemeUser member) || hasRole TEAM_USER_ROLE_ID tokens
  /\ schemeAdmin r
     = flagOf (teamMember.SchemeAdmin member) || hasRole TEAM_ADMIN_ROLE_ID tokens
  /\ teamMember.TeamId m' = teamMember.TeamId member
  /\ teamMember.UserId m' = teamMember.UserId member
  /\ teamMember.DeleteAt m' = teamMember.DeleteAt member.
Proof.
  intros Hd tokens r m'. subst m'.
  destruct (getTeamRoles_flags
              (flagOf (teamMember.SchemeGuest member))
              (flagOf (teamMember.SchemeUser member))
              (flagOf (teamMember.SchemeAdmin member))
              dg du da tokens Hd) as (Hg & Hu & Ha).
  fold r in Hg, Hu, Ha.
  assert (He : explicitRoles r = nonSchemeRoles tokens)
    by apply getTeamRoles_explicitRoles.
  clearbody r.
  unfold migrateMember, migrateTokens. fold tokens. clearbody tokens.
  match goal with
  | |- context [fold_left migrateRole tokens (?m, ?a)] =>
      pose proof (migrateRole_fold tokens Hd m a) as Hf;
      destruct (fold_left migrateRole tokens (m, a)) as [m1 nr]
  end.
  simpl in Hf. destruct Hf as (-> & Ht & Hi & _ & Hdel & Hsg & Hsu & Hsa).
  simpl. rewrite Hg, Hu, Ha, He, Ht, Hi, Hdel, Hsg, Hsu, Hsa.
  rewrite !orFalse_flagOf.
  repeat split; try reflexivity;
    match goal with
    | |- context [hasRole ?i tokens] => destruct (hasRole i tokens)
    end; rewrite ?orb_true_r, ?orb_false_r; reflexivity.
Qed.

End RoleResolverClaims.

(** ** Running a method on a quiet backend *)

Lemma issue_quiet (st : Statement) (s : SqlStore) :
  script s = [] -> issue st s = (Proceed, logged [st] s).
Proof. intros Hq. unfold issue. rewrite Hq. reflexivity. Qed.

Lemma logged_nil (s : SqlStore) : script s = [] -> logged [] s = s.
Proof.
  intros Hq. destruct s; simpl in *. subst. unfold logged; simpl.
  rewrite app_nil_r. reflexivity.
Qed.

Lemma logged_logged (a b : list Statement) (s : SqlStore) :
  logged b (logged a s) = logged (a ++ b) s.
Proof. unfold logged; simpl. rewrite app_assoc. reflexivity. Qed.

Lemma logged_withMaster (a : list Statement) (s : SqlStore) (db : DB) :
  logged a (withMaster s db) = withMaster (logged a s) db.
Proof. reflexivity. Qed.

Lemma withMaster_withMaster (s : SqlStore) (db1 db2 : DB) :
  withMaster (withMaster s db1) db2 = withMaster s db2.
Proof. reflexivity. Qed.

Lemma withMaster_same (s : SqlStore) : withMaster s (master s) = s.
Proof. destruct s; reflexivity. Qed.

Ltac conn_unfold :=
  unfold mbind, Conn_bind, mret, Conn_ret, getDriverName, getCollation,
    Begin, Commit, onMaster, onReplica, inTx in *.

(** ** The job store *)

Section JobStoreClaims.
Context `{M : ModelPkg}.

(** C8: with a [currentStatus] that differs from the status of the job's
    row, [UpdateOptimistically] and [UpdateStatusOptimistically] return
    false with a nil error, leave the tables as they were, and issue exactly
    one statement (there is no retry). *)
Theorem optimistic_update_mismatch (s : SqlStore) (job : Job.t) (row : Job.row)
    (currentStatus newStatus : string) (now startAt : Z) :
  script s = [] ->
  Jobs (master s) !! Job.Id job = Some row ->
  Job.rStatus row <> currentStatus ->
  (exists s',
      SqlJobStore.UpdateOptimistically job currentStatus now s
      = ((false, None), s')
      /\ master s' = master s
      /\ replica s' = replica s
      /\ log s' = (log s ++ [{| verb := UPDATE; table := "Jobs";
                                keys := [Job.Id job] |}])%list)
  /\ (exists s',
      SqlJobStore.UpdateStatusOptimistically (Job.Id job) currentStatus
        newStatus now startAt s
      = ((false, None), s')
      /\ master s' = master s
      /\ replica s' = replica s
      /\ log s' = (log s ++ [{| verb := UPDATE; table := "Jobs";
                                keys := [Job.Id job] |}])%list).
Proof.
  intros Hq Hrow Hne.
  apply String.eqb_neq in Hne.
  split; eexists;
    unfold SqlJobStore.UpdateOptimistically,
      SqlJobStore.UpdateStatusOptimistically;
    conn_unfold; rewrite (issue_quiet _ _ Hq); simpl;
    rewrite Hrow, Hne; simpl;
    (split; [reflexivity|]); simpl;
    destruct s; repeat split; reflexivity.
Qed.

End JobStoreClaims.

(** ** Teams: [Get], [GetByName], [Update] *)

Section TeamStoreClaims.
Context `{M : ModelPkg}.

Lemma no_row_named (teams : gmap string Team.t) (name : string) :
  (forall id team, teams !! id = Some team -> Team.Name team <> name) ->
  List.filter (fun row => String.eqb (Team.Name row) name)
              (map snd (map_to_list teams)) = [].
Proof.
  intros Hno.
  assert (Hall : forall p, In p (map_to_list teams) -> Team.Name (snd p) <> name).
  { intros [id team] Hin. apply (Hno id).
    apply elem_of_map_to_list, list_elem_of_In, Hin. }
  induction (map_to_list teams) as [|p l IH]; [reflexivity|]. simpl.
  destruct (String.eqb_spec (Team.Name (snd p)) name) as [Heq|_].
  - exfalso. apply (Hall p); [left; reflexivity | exact Heq].
  - apply IH. intros q Hq. apply Hall. right. exact Hq.
Qed.

(** C7: evaluation of the two lookups when no row matches.  [GetByName]
    returns the sentinel [sql.ErrNoRows]; [Get] returns a nil team with a
    nil error, that is no error at all. *)
Theorem Get_no_row (s : SqlStore) (id name : string) :
  script s = [] ->
  Teams (replica s) !! id = None ->
  (forall i team, Teams (replica s) !! i = Some team -> Team.Name team <> name) ->
  fst (SqlTeamStore.Get id s) = (None, None)
  /\ fst (SqlTeamStore.GetByName name s) = (None, Some ErrNoRows).
Proof.
  intros Hq Hid Hname. split.
  - unfold SqlTeamStore.Get. conn_unfold.
    rewrite (issue_quiet _ _ Hq). simpl. rewrite Hid. reflexivity.
  - unfold SqlTeamStore.GetByName. conn_unfold.
    rewrite (issue_quiet _ _ Hq). simpl.
    rewrite (no_row_named _ _ Hname). reflexivity.
Qed.

(** C6: evaluation of [Update] for a team whose id has no row: the method
    returns a nil team with a nil error and writes nothing. *)
Theorem Update_no_prior_row (s : SqlStore) (team : Team.t) (now : Z) :
  script s = [] ->
  Team_IsValid (Team_PreUpdate team) = None ->
  Teams (master s) !! Team.Id (Team_PreUpdate team) = None ->
  fst (SqlTeamStore.Update team now s) = (None, None)
  /\ master (snd (SqlTeamStore.Update team now s)) = master s.
Proof.
  intros Hq Hvalid Hid.
  unfold SqlTeamStore.Update. rewrite Hvalid. conn_unfold.
  rewrite (issue_quiet _ _ Hq). simpl. rewrite Hid. simpl.
  split; reflexivity.
Qed.

(** The same happens when another session deletes the row between the
    read and the write, so that the write matches no row. *)
Lemma Update_zero_rows (s : SqlStore) (team : Team.t) (old : Team.t) (now : Z) :
  let id := Team.Id (Team_PreUpdate team) in
  script s = [Proceed; Concurrent (fun db => withTeams db (delete id (Teams db)))] ->
  Team_IsValid (Team_PreUpdate team) = None ->
  Teams (master s) !! id = Some old ->
  fst (SqlTeamStore.Update team now s) = (None, None).
Proof.
  intros id Hs Hvalid Hid. subst id.
  unfold SqlTeamStore.Update, SqlTeamStore.gorpUpdate. rewrite Hvalid.
  conn_unfold. unfold issue. rewrite Hs. simpl. rewrite Hid. simpl.
  rewrite lookup_delete_eq. reflexivity.
Qed.

(** When the write goes through, the stored row keeps the creation
    timestamp of the prior row. *)
Lemma Update_keeps_CreateAt (s : SqlStore) (team : Team.t) (old : Team.t) (now : Z) :
  let id := Team.Id (Team_PreUpdate team) in
  script s = [] ->
  Team_IsValid (Team_PreUpdate team) = None ->
  Teams (master s) !! id = Some old ->
  SqlTeamStore.nameTaken (Teams (master s))
    (Team.withTimes (Team_PreUpdate team) (Team.CreateAt old) now) = false ->
  exists team',
    fst (SqlTeamStore.Update team now s) = (Some team', None)
    /\ Team.CreateAt team' = Team.CreateAt old
    /\ Teams (master (snd (SqlTeamStore.Update team now s))) !! id = Some team'.
Proof.
  intros id Hq Hvalid Hid Hname. subst id.
  unfold SqlTeamStore.Update, SqlTeamStore.gorpUpdate. rewrite Hvalid.
  conn_unfold. rewrite (issue_quiet _ _ Hq). simpl. rewrite Hid. simpl.
  unfold issue. simpl. rewrite Hid, Hname. simpl.
  eexists. split; [reflexivity|]. split; [reflexivity|].
  apply lookup_insert_eq.
Qed.

End TeamStoreClaims.

(** ** The system store *)

(** C9: evaluation of [InsertIfExists] when the key already has a row whose
    value is the empty string: the method takes the key for absent, the
    [INSERT] violates the primary key, and the caller gets that error instead
    of the existing row.  The table is left as it was. *)
Theorem InsertIfExists_empty_value (s : SqlStore) (system : System.t) :
  script s = [] ->
  Systems (master s) !! System.Name system = Some EmptyString ->
  fst (SqlSystemStore.InsertIfExists system s)
  = (None, Some (duplicateKey (DriverName s) "PRIMARY" "systems_pkey"
                              (System.Name system)))
  /\ master (snd (SqlSystemStore.InsertIfExists system s)) = master s.
Proof.
  intros Hq Hrow.
  unfold SqlSystemStore.InsertIfExists. conn_unfold.
  rewrite (issue_quiet _ _ Hq). simpl.
  unfold issue. simpl. rewrite Hrow. simpl.
  split; [reflexivity|]. destruct s; reflexivity.
Qed.

(** A row with a non-empty value is returned untouched. *)
Lemma InsertIfExists_present (s : SqlStore) (system : System.t) (value : string) :
  script s = [] ->
  Systems (master s) !! System.Name system = Some value ->
  value <> EmptyString ->
  fst (SqlSystemStore.InsertIfExists system s)
  = (Some {| System.Name := System.Name system; System.Value := value |}, None)
  /\ master (snd (SqlSystemStore.InsertIfExists system s)) = master s.
Proof.
  intros Hq Hrow Hne. apply String.eqb_neq in Hne.
  unfold SqlSystemStore.InsertIfExists. conn_unfold.
  rewrite (issue_quiet _ _ Hq). simpl.
  unfold issue. simpl. rewrite Hrow. simpl. rewrite Hne. simpl.
  split; [reflexivity|]. destruct s; reflexivity.
Qed.

(** An absent key is inserted and committed, and the new row is returned. *)
Lemma InsertIfExists_absent (s : SqlStore) (system : System.t) :
  script s = [] ->
  Systems (master s) !! System.Name system = None ->
  fst (SqlSystemStore.InsertIfExists system s) = (Some system, None)
  /\ Systems (master (snd (SqlSystemStore.InsertIfExists system s)))
     = <[System.Name system := System.Value system]> (Systems (master s)).
Proof.
  intros Hq Hrow.
  unfold SqlSystemStore.InsertIfExists. conn_unfold.
  rewrite (issue_quiet _ _ Hq). simpl.
  unfold issue. simpl. rewrite Hrow. simpl.
  split; reflexivity.
Qed.

(** ** The status store *)

Lemma Contains_append_r (a b p : string) :
  Contains b p = true -> Contains (a ++ b) p = true.
Proof.
  intros Hb. induction a as [|c a IH]; [exact Hb|].
  change (Contains (String c a ++ b) p)
    with (if String.prefix p (String c (a ++ b)) then true
          else Contains (a ++ b) p).
  destruct (String.prefix p (String c (a ++ b))); [reflexivity | exact IH].
Qed.

(** MySQL's primary-key violation passes the test of [SaveOrUpdate];
    PostgreSQL's does not. *)
Lemma mysql_duplicate_matches (constraint value : string) :
  isDuplicatePrimary
    (duplicateKey DATABASE_DRIVER_MYSQL "PRIMARY" constraint value) = true.
Proof.
  unfold isDuplicatePrimary, duplicateKey, Error.
  apply andb_true_iff. split.
  - change ("Error 1062: Duplicate entry '" ++ value ++ "' for key '" ++ "PRIMARY" ++ "'")
      with (("Error 1062: Duplicate entry '" ++ value) ++ "' for key 'PRIMARY'").
    + apply Contains_append_r. reflexivity.
  - reflexivity.
Qed.

Lemma postgres_duplicate_does_not_match (value : string) :
  isDuplicatePrimary
    (duplicateKey DATABASE_DRIVER_POSTGRES "PRIMARY" "status_pkey" value) = false.
Proof. reflexivity. Qed.

(** C10: in [SaveOrUpdate], when the lookup finds no row and the insert fails
    with error [e], the method returns nil if the text of [e] contains both
    [for key 'PRIMARY'] and [Duplicate entry], and [e] otherwise.  In both
    cases it issues the lookup and the insert and nothing else: no update
    follows, and the master's tables are as they were, without the new
    status value. *)
Theorem SaveOrUpdate_insert_error (s : SqlStore) (status : Status.t) (e : error) :
  StatusRows (replica s) !! Status.UserId status = None ->
  statusInsertFails status s e ->
  fst (SqlStatusStore.SaveOrUpdate status s)
  = (if isDuplicatePrimary e then None else Some e)
  /\ master (snd (SqlStatusStore.SaveOrUpdate status s)) = master s
  /\ log (snd (SqlStatusStore.SaveOrUpdate status s))
     = (log s ++ [{| verb := SELECT; table := "Status";
                     keys := [Status.UserId status] |};
                  {| verb := INSERT; table := "Status";
                     keys := [Status.UserId status] |}])%list.
Proof.
  intros Hreplica Hfails.
  unfold SqlStatusStore.SaveOrUpdate, isDuplicatePrimary. conn_unfold.
  destruct Hfails as [e rest Hs | row Hs Hrow];
    unfold issue; rewrite Hs; simpl; rewrite Hreplica; simpl.
  - destruct (Contains (Error e) "for key 'PRIMARY'" && Contains (Error e) "Duplicate entry");
      simpl; rewrite <- app_assoc; destruct s; repeat split; reflexivity.
  - rewrite Hrow. simpl.
    destruct (Contains _ "for key 'PRIMARY'" && Contains _ "Duplicate entry");
      simpl; rewrite <- app_assoc; destruct s; repeat split; reflexivity.
Qed.

(** ** [strings.Fields] and [strings.Join] *)

Lemma string_app_cons (x : ascii) (a b : string) :
  String x a ++ b = String x (a ++ b).
Proof. reflexivity. Qed.

Lemma string_app_assoc (a b c : string) : (a ++ b) ++ c = a ++ (b ++ c).
Proof.
  induction a as [|x a IH]; [reflexivity|].
  rewrite !string_app_cons, IH. reflexivity.
Qed.

Lemma string_app_nil_r (a : string) : a ++ EmptyString = a.
Proof.
  induction a as [|x a IH]; [reflexivity|].
  rewrite string_app_cons, IH. reflexivity.
Qed.

Lemma noSpace_app (a b : string) : noSpace (a ++ b) = noSpace a && noSpace b.
Proof.
  induction a as [|x a IH]; [reflexivity|].
  rewrite string_app_cons. simpl. rewrite IH, andb_assoc. reflexivity.
Qed.

Lemma fieldsFrom_isField (s : string) : forall cur,
  noSpace cur = true -> Forall isField (fieldsFrom cur s).
Proof.
  induction s as [|c s IH]; intros cur Hcur; simpl.
  - destruct cur; constructor; [|constructor]. split; [exact Hcur | discriminate].
  - destruct (isSpace c) eqn:Hc.
    + destruct cur as [|x cur]; [apply IH; reflexivity|].
      constructor; [split; [exact Hcur | discriminate] | apply IH; reflexivity].
    + apply IH. rewrite noSpace_app, Hcur. simpl. rewrite Hc. reflexivity.
Qed.

Lemma Fields_isField (s : string) : Forall isField (Fields s).
Proof. apply fieldsFrom_isField. reflexivity. Qed.

Lemma fieldsFrom_token (t rest : string) : forall cur,
  noSpace t = true -> fieldsFrom cur (t ++ rest) = fieldsFrom (cur ++ t) rest.
Proof.
  induction t as [|c t IH]; intros cur Ht.
  - rewrite string_app_nil_r. reflexivity.
  - simpl in Ht. apply andb_true_iff in Ht as [Hc Ht].
    apply negb_true_iff in Hc.
    rewrite string_app_cons. simpl. rewrite Hc.
    rewrite (IH _ Ht), string_app_assoc. reflexivity.
Qed.

Lemma Fields_Join (l : list string) :
  Forall isField l -> Fields (Join l " ") = l.
Proof.
  unfold Fields. induction l as [|e l IH]; intros Hl; [reflexivity|].
  inversion Hl as [|? ? [He Hne] Hl']; subst.
  destruct l as [|e2 l].
  - simpl. rewrite <- (string_app_nil_r e) at 1.
    rewrite (fieldsFrom_token e EmptyString EmptyString He).
    change (EmptyString ++ e) with e.
    destruct e; [contradiction | reflexivity].
  - change (Join (e :: e2 :: l) " ") with (e ++ " " ++ Join (e2 :: l) " ").
    rewrite (fieldsFrom_token e _ EmptyString He).
    change (EmptyString ++ e) with e.
    change (" " ++ Join (e2 :: l) " ") with (String " " (Join (e2 :: l) " ")).
    destruct e; [contradiction|].
    change (fieldsFrom (String a e) (String " " (Join (e2 :: l) " ")))
      with (String a e :: fieldsFrom EmptyString (Join (e2 :: l) " ")).
    f_equal. apply IH. exact Hl'.
Qed.

Lemma nonSchemeRoles_isField `{M : ModelPkg} (l : list string) :
  Forall isField l -> Forall isField (nonSchemeRoles l).
Proof.
  intros Hl. rewrite Forall_forall in *.
  intros t Ht. apply list_elem_of_In, nonSchemeRoles_In in Ht as [Ht _].
  apply Hl, list_elem_of_In, Ht.
Qed.


(** ** Team members: what the bulk methods return *)

Section MemberResults.
Context `{M : ModelPkg}.








Lemma ToModelList_map (db : list teamMemberWithSchemeRoles.t) :
  ToModelList db = map ToModel db.
Proof.
  unfold ToModelList.
  assert (Hgen : forall acc,
    fold_left (fun tms tm => append tms (ToModel tm)) db acc
    = (acc ++ map ToModel db)%list).
  { induction db as [|row db IH]; intros acc; simpl.
    - rewrite app_nil_r. reflexivity.
    - rewrite IH. unfold append. rewrite <- app_assoc. reflexivity. }
  apply (Hgen []).
Qed.




End MemberResults.

(** ** [SaveMultipleMembers]: the capacity check *)

Section Capacity.
Context `{M : ModelPkg}.

(** C1: evaluation of [SaveMultipleMembers] when the capacity check
    trips: for a batch whose members are valid and in which some team would
    end above a non-negative [maxUsersPerTeam], the method inserts nothing
    (the master's tables are as they were), but what it returns is a nil
    member list with a nil error. *)
Theorem SaveMultipleMembers_over_capacity (s : SqlStore)
    (members : list TeamMember.t) (maxUsersPerTeam : Z)
    (newTeamMembers : gmap string Z) (teamId : string) (newMembers : Z) :
  script s = [] ->
  SqlTeamStore.countNewMembers members
    (fold_left (fun m member => <[TeamMember.TeamId member := 0]> m) members ∅)
  = inl newTeamMembers ->
  0 <= maxUsersPerTeam ->
  newTeamMembers !! teamId = Some newMembers ->
  int_add (SqlTeamStore.existingMembers
             (SqlTeamStore.selectMemberCounts
                (map_to_list newTeamMembers).*1 (master s)) teamId)
          newMembers > maxUsersPerTeam ->
  fst (SqlTeamStore.SaveMultipleMembers members maxUsersPerTeam s) = (None, None)
  /\ master (snd (SqlTeamStore.SaveMultipleMembers members maxUsersPerTeam s))
     = master s.
Proof.
  intros Hq Hcount Hmax Hteam Hover.
  unfold SqlTeamStore.SaveMultipleMembers, SqlTeamStore.checkCapacity.
  rewrite Hcount. conn_unfold.
  rewrite (issue_quiet _ _ Hq). simpl.
  unfold issue. simpl.
  assert (Hge : (maxUsersPerTeam >=? 0) = true) by (apply Z.geb_le; lia).
  rewrite Hge. simpl.
  match goal with
  | |- context [existsb ?f ?l] =>
      assert (Hex : existsb f l = true)
  end.
  { apply existsb_exists. exists (teamId, newMembers). split.
    - apply list_elem_of_In, elem_of_map_to_list. exact Hteam.
    - apply Z.gtb_lt. lia. }
  rewrite Hex. simpl. split; [reflexivity|]. destruct s; reflexivity.
Qed.

(** A negative [maxUsersPerTeam] skips the check: no counting query is
    issued. *)
Lemma SaveMultipleMembers_unlimited (s : SqlStore)
    (members : list TeamMember.t) (maxUsersPerTeam : Z) :
  maxUsersPerTeam < 0 ->
  Forall (fun st => table st <> "TeamMembers" \/ verb st <> SELECT)
         (skipn (length (log s))
                (log (snd (SqlTeamStore.SaveMultipleMembers members
                             maxUsersPerTeam s)))).
Proof.
  intros Hneg.
  assert (Hge : (maxUsersPerTeam >=? 0) = false).
  { destruct (maxUsersPerTeam >=? 0) eqn:E; [|reflexivity].
    apply Z.geb_le in E. lia. }
  assert (Hissue : forall st s0,
    log (snd (issue st s0)) = (log s0 ++ [st])%list).
  { intros st s0. unfold issue. destruct (script s0); reflexivity. }
  unfold SqlTeamStore.SaveMultipleMembers. rewrite Hge.
  destruct (SqlTeamStore.countNewMembers _ _) as [ntm|err]; simpl.
  2:{ rewrite skipn_all. constructor. }
  conn_unfold.
  pose proof (Hissue {| verb := SELECT; table := "Teams";
                        keys := (map_to_list ntm).*1 |} s) as H1.
  destruct (issue _ s) as [ev s1]. simpl in H1.
  assert (Hdrop1 : skipn (length (log s)) (log s1)
                   = [{| verb := SELECT; table := "Teams";
                         keys := (map_to_list ntm).*1 |}]).
  { rewrite H1, skipn_app, skipn_all, Nat.sub_diag. reflexivity. }
  assert (Hteams : Forall (fun st => table st <> "TeamMembers" \/ verb st <> SELECT)
                          (skipn (length (log s)) (log s1))).
  { rewrite Hdrop1. constructor; [left; discriminate | constructor]. }
  destruct ev as [|e|f]; simpl; [| exact Hteams |].
  - destruct members as [|member rest]; simpl; [exact Hteams|].
    match goal with
    | |- context [issue ?st ?s0] =>
        pose proof (Hissue st s0) as H2; destruct (issue st s0) as [ev2 s2]
    end.
    simpl in H2.
    assert (Hall : Forall (fun st => table st <> "TeamMembers" \/ verb st <> SELECT)
                          (skipn (length (log s)) (log s2))).
    { rewrite H2, H1, <- app_assoc, skipn_app, skipn_all, Nat.sub_diag.
      simpl. repeat constructor; discriminate. }
    destruct ev2; simpl; try exact Hall;
      destruct (SqlTeamStore.insertMembers _ _ _) as [[u [e|]] db];
      simpl; exact Hall.
  - destruct members as [|member rest]; simpl; [exact Hteams|].
    match goal with
    | |- context [issue ?st ?s0] =>
        pose proof (Hissue st s0) as H2; destruct (issue st s0) as [ev2 s2]
    end.
    simpl in H2.
    assert (Hall : Forall (fun st => table st <> "TeamMembers" \/ verb st <> SELECT)
                          (skipn (length (log s)) (log s2))).
    { rewrite H2, H1, <- app_assoc, skipn_app, skipn_all, Nat.sub_diag.
      simpl. repeat constructor; discriminate. }
    destruct ev2; simpl; try exact Hall;
      destruct (SqlTeamStore.insertMembers _ _ _) as [[u [e|]] db];
      simpl; exact Hall.
Qed.

End Capacity.

(** ** [ORDER BY] on a key without duplicates *)

Section OrderBy.
Context {A : Type} (lt : A -> A -> bool).
Hypothesis lt_strict : strictTotal lt.


Lemma insertBy_In (x a : A) (l : list A) :
  In x (insertBy lt a l) <-> x = a \/ In x l.
Proof.
  induction l as [|y l IH]; simpl; [intuition|].
  destruct (lt y a); simpl; [rewrite IH|]; intuition.
Qed.

Lemma orderBy_In (x : A) (l : list A) : In x (orderBy lt l) <-> In x l.
Proof.
  induction l as [|a l IH]; simpl; [reflexivity|].
  rewrite insertBy_In, IH. intuition.
Qed.

Lemma orderBy_length (l : list A) : length (orderBy lt l) = length l.
Proof.
  assert (Hins : forall a k, length (insertBy lt a k) = S (length k)).
  { intros a k. induction k as [|y k IH]; simpl; [reflexivity|].
    destruct (lt y a); simpl; [rewrite IH|]; reflexivity. }
  induction l as [|a l IH]; simpl; [reflexivity|].
  rewrite Hins, IH. reflexivity.
Qed.

Lemma insertBy_sorted (a : A) (l : list A) :
  StronglySorted (ascendingBy lt) l -> ~ In a l -> StronglySorted (ascendingBy lt) (insertBy lt a l).
Proof.
  destruct lt_strict as (Hirr & Htrans & Htotal).
  induction l as [|y l IH]; intros Hs Hnin; simpl.
  - repeat constructor.
  - inversion Hs as [|? ? Hs' Hall]; subst.
    destruct (lt y a) eqn:Hya.
    + constructor.
      * apply IH; [exact Hs' | intros Hin; apply Hnin; right; exact Hin].
      * apply List.Forall_forall. intros z Hz.
        apply insertBy_In in Hz as [->|Hz]; [exact Hya|].
        rewrite List.Forall_forall in Hall. apply Hall, Hz.
    + assert (Hay : (ascendingBy lt) a y).
      { destruct (Htotal a y) as [H|H]; [|exact H|].
        - intros ->. apply Hnin. left. reflexivity.
        - unfold ascendingBy in *. congruence. }
      constructor; [exact Hs|].
      constructor; [exact Hay|].
      rewrite List.Forall_forall in *. intros z Hz.
      apply (Htrans a y z Hay), Hall, Hz.
Qed.

Lemma orderBy_sorted (l : list A) :
  List.NoDup l -> StronglySorted (ascendingBy lt) (orderBy lt l).
Proof.
  induction 1 as [|a l Hnin Hnd IH]; simpl; [constructor|].
  apply insertBy_sorted; [exact IH|].
  rewrite orderBy_In. exact Hnin.
Qed.

Lemma sorted_not_In (a : A) (l : list A) :
  Forall ((ascendingBy lt) a) l -> ~ In a l.
Proof.
  destruct lt_strict as (Hirr & _ & _).
  rewrite List.Forall_forall. intros Hall Hin.
  specialize (Hall a Hin). unfold ascendingBy in Hall. rewrite Hirr in Hall. discriminate.
Qed.

Lemma sorted_unique (l1 : list A) : forall l2,
  StronglySorted (ascendingBy lt) l1 -> StronglySorted (ascendingBy lt) l2 ->
  (forall x, In x l1 <-> In x l2) -> l1 = l2.
Proof.
  destruct lt_strict as (Hirr & Htrans & _).
  induction l1 as [|a l1 IH]; intros [|b l2] H1 H2 Hsame.
  - reflexivity.
  - exfalso. apply (proj2 (Hsame b)). left. reflexivity.
  - exfalso. apply (proj1 (Hsame a)). left. reflexivity.
  - inversion H1 as [|? ? H1' Ha]; inversion H2 as [|? ? H2' Hb]; subst.
    assert (Hab : a = b).
    { destruct (proj1 (Hsame a) (or_introl eq_refl)) as [<-|Hin2]; [reflexivity|].
      destruct (proj2 (Hsame b) (or_introl eq_refl)) as [<-|Hin1]; [reflexivity|].
      rewrite List.Forall_forall in Ha, Hb.
      specialize (Ha b Hin1). specialize (Hb a Hin2).
      pose proof (Htrans a b a Ha Hb) as Haa. rewrite Hirr in Haa. discriminate. }
    subst b. f_equal. apply IH; [exact H1' | exact H2' |].
    intros x. split; intros Hx.
    + destruct (proj1 (Hsame x) (or_intror Hx)) as [<-|Hin]; [|exact Hin].
      exfalso. exact (sorted_not_In _ _ Ha Hx).
    + destruct (proj2 (Hsame x) (or_intror Hx)) as [<-|Hin]; [|exact Hin].
      exfalso. exact (sorted_not_In _ _ Hb Hx).
Qed.

Lemma sorted_split (l1 : list A) (c : A) (l2 : list A) :
  StronglySorted (ascendingBy lt) (l1 ++ c :: l2) ->
  Forall (fun a => (ascendingBy lt) a c) l1 /\ Forall ((ascendingBy lt) c) l2 /\ StronglySorted (ascendingBy lt) l2.
Proof.
  induction l1 as [|a l1 IH]; simpl; intros Hs.
  - inversion Hs; subst. repeat split; [constructor | assumption | assumption].
  - inversion Hs as [|? ? Hs' Hall]; subst.
    destruct (IH Hs') as (H1 & H2 & H3).
    repeat split; [|assumption|assumption].
    constructor; [|exact H1].
    rewrite List.Forall_forall in Hall. apply Hall, in_elt.
Qed.

Lemma sorted_NoDup (l : list A) : StronglySorted (ascendingBy lt) l -> List.NoDup l.
Proof.
  induction 1 as [|a l Hs IH Hall]; constructor; [|exact IH].
  apply sorted_not_In. exact Hall.
Qed.

(** After a batch that ends in [c], the rows still to come are those of
    the sorted list that lie behind the batch. *)
Lemma filter_after_batch (l1 : list A) (c : A) (l2 : list A) (x : A) :
  StronglySorted (ascendingBy lt) (l1 ++ c :: l2) ->
  (In x (l1 ++ c :: l2) /\ (ascendingBy lt) c x) <-> In x l2.
Proof.
  destruct lt_strict as (Hirr & Htrans & _).
  intros Hs. destruct (sorted_split _ _ _ Hs) as (H1 & H2 & _).
  rewrite List.Forall_forall in H1, H2.
  split.
  - intros [Hin Hcx]. apply in_app_or in Hin as [Hin|[<-|Hin]].
    + exfalso. pose proof (Htrans _ _ _ (H1 x Hin) Hcx) as Hxx.
      rewrite Hirr in Hxx. discriminate.
    + exfalso. unfold ascendingBy in Hcx. rewrite Hirr in Hcx. discriminate.
    + exact Hin.
  - intros Hin. split; [|apply H2, Hin].
    apply in_or_app. right. right. exact Hin.
Qed.

End OrderBy.

(** ** The migration cursor *)

Section Migration.
Context `{M : ModelPkg}.

Lemma keyLt_strict (lt : string -> string -> bool) :
  strictTotal lt -> strictTotal (keyLt lt).
Proof.
  intros (Hirr & Htrans & Htotal). unfold keyLt. repeat split.
  - intros [a b]. simpl. rewrite !Hirr, andb_false_r. reflexivity.
  - intros [a1 a2] [b1 b2] [c1 c2]. simpl. intros Hab Hbc.
    apply orb_true_iff in Hab as [Hab|Hab];
      apply orb_true_iff in Hbc as [Hbc|Hbc];
      try (apply andb_true_iff in Hab as [Heq Hab];
           apply String.eqb_eq in Heq; subst);
      try (apply andb_true_iff in Hbc as [Heq' Hbc];
           apply String.eqb_eq in Heq'; subst).
    + rewrite (Htrans _ _ _ Hab Hbc). reflexivity.
    + rewrite Hab. reflexivity.
    + rewrite Hbc. reflexivity.
    + rewrite String.eqb_refl, (Htrans _ _ _ Hab Hbc). apply orb_true_r.
  - intros [a1 a2] [b1 b2] Hne. simpl.
    destruct (String.eqb_spec a1 b1) as [->|H1].
    + rewrite String.eqb_refl, !Hirr. simpl.
      apply Htotal. intros ->. apply Hne. reflexivity.
    + destruct (Htotal a1 b1 H1) as [H|H]; rewrite H; [left|right]; reflexivity.
Qed.

Lemma sameKey_memberKey (a b : teamMember.t) :
  sameKey a b = true -> memberKey a = memberKey b.
Proof.
  unfold sameKey, memberKey. intros H.
  apply andb_true_iff in H as [Ht Hu].
  apply String.eqb_eq in Ht, Hu. congruence.
Qed.

Lemma migrateRole_key (tokens : list string) : forall member acc,
  memberKey (fst (fold_left migrateRole tokens (member, acc))) = memberKey member.
Proof.
  induction tokens as [|role tokens IH]; intros member acc; [reflexivity|].
  simpl.
  destruct (String.eqb role TEAM_ADMIN_ROLE_ID); [rewrite IH; reflexivity|].
  destruct (String.eqb role TEAM_USER_ROLE_ID); [rewrite IH; reflexivity|].
  destruct (String.eqb role TEAM_GUEST_ROLE_ID); rewrite IH; reflexivity.
Qed.

Lemma migrateMember_key (member : teamMember.t) :
  memberKey (migrateMember member) = memberKey member.
Proof.
  unfold migrateMember, migrateTokens.
  match goal with
  | |- context [fold_left migrateRole ?t (?m, ?a)] =>
      pose proof (migrateRole_key t m a) as Hk;
      destruct (fold_left migrateRole t (m, a)) as [m' nr]
  end.
  exact Hk.
Qed.

Lemma updateMemberRow_keys (row : teamMember.t) (db : DB) :
  map memberKey (TeamMembers (snd (SqlTeamStore.updateMemberRow row db)))
  = map memberKey (TeamMembers db).
Proof.
  unfold SqlTeamStore.updateMemberRow. simpl.
  induction (TeamMembers db) as [|old rows IH]; [reflexivity|]. simpl.
  rewrite IH. f_equal.
  destruct (sameKey row old) eqn:E; [|reflexivity].
  apply sameKey_memberKey. exact E.
Qed.

Lemma applyMigration_keys (batch : list teamMember.t) : forall tx,
  map memberKey (TeamMembers (applyMigration batch tx))
  = map memberKey (TeamMembers tx).
Proof.
  induction batch as [|member batch IH]; intros tx; [reflexivity|].
  unfold applyMigration in *. simpl. rewrite IH.
  apply updateMemberRow_keys.
Qed.

Lemma selectAfter_keys (lt : string -> string -> bool) (c1 c2 : string)
    (limit : nat) (db : DB) :
  map memberKey (SqlTeamStore.selectAfter lt c1 c2 limit db)
  = firstn limit (pending lt (c1, c2) (TeamMembers db)).
Proof.
  unfold SqlTeamStore.selectAfter, pending.
  rewrite <- firstn_map. f_equal.
  induction (TeamMembers db) as [|row rows IH]; [reflexivity|]. simpl.
  destruct (keyLt lt (c1, c2) (memberKey row)); [|exact IH].
  simpl. rewrite <- IH. clear IH.
  induction (orderBy _ _) as [|y l IHl]; [reflexivity|]. simpl.
  destruct (keyLt lt (memberKey y) (memberKey row)); simpl;
    [rewrite IHl|]; reflexivity.
Qed.

Lemma updatedMembers_app (a b : list Statement) :
  updatedMembers (a ++ b) = (updatedMembers a ++ updatedMembers b)%list.
Proof. apply omap_app. Qed.

Lemma updatedMembers_batch (batch : list teamMember.t) :
  updatedMembers (map updateStmt batch) = map memberKey batch.
Proof.
  induction batch as [|member batch IH]; [reflexivity|].
  simpl. unfold updatedMembers in *. simpl. rewrite IH. f_equal.
  apply migrateMember_key.
Qed.

Lemma updatedMembers_call (l : list Statement) (c1 c2 : string)
    (batch : list teamMember.t) :
  updatedMembers
    (l ++ {| verb := BEGIN; table := EmptyString; keys := [] |}
       :: {| verb := SELECT; table := "TeamMembers"; keys := [c1; c2] |}
       :: map updateStmt batch
          ++ [{| verb := COMMIT; table := EmptyString; keys := [] |}])
  = (updatedMembers l ++ map memberKey batch)%list.
Proof.
  rewrite updatedMembers_app. f_equal.
  change (updatedMembers (map updateStmt batch
            ++ [{| verb := COMMIT; table := EmptyString; keys := [] |}])
          = map memberKey batch).
  rewrite updatedMembers_app, updatedMembers_batch. apply app_nil_r.
Qed.

Lemma migrateEach_quiet (batch : list teamMember.t) : forall tx s,
  script s = [] ->
  SqlTeamStore.migrateEach batch tx s
  = ((None, applyMigration batch tx), logged (map updateStmt batch) s).
Proof.
  induction batch as [|member batch IH]; intros tx s Hq.
  - simpl. rewrite (logged_nil _ Hq). reflexivity.
  - simpl. conn_unfold. rewrite (issue_quiet _ _ Hq). simpl.
    rewrite IH by reflexivity. rewrite logged_logged. reflexivity.
Qed.

Lemma Migrate_quiet (s : SqlStore) (c1 c2 : string) :
  script s = [] ->
  let batch := SqlTeamStore.selectAfter (collation s) c1 c2 100 (master s) in
  let opening :=
    [{| verb := BEGIN; table := EmptyString; keys := [] |};
     {| verb := SELECT; table := "TeamMembers"; keys := [c1; c2] |}] in
  SqlTeamStore.MigrateTeamMembers c1 c2 s
  = match last batch with
    | None => ((None, None), logged opening s)
    | Some lastMember =>
        ((Some (cursorOf lastMember), None),
         withMaster
           (logged (opening ++ map updateStmt batch
                    ++ [{| verb := COMMIT; table := EmptyString; keys := [] |}]) s)
           (applyMigration batch (master s)))
    end.
Proof.
  intros Hq batch opening. subst opening.
  unfold SqlTeamStore.MigrateTeamMembers. conn_unfold.
  rewrite (issue_quiet _ _ Hq). simpl.
  fold batch.
  destruct (last batch) as [lastMember|] eqn:Hlast.
  - rewrite migrateEach_quiet by reflexivity. simpl.
    unfold cursorOf, logged, withMaster; simpl.
    rewrite <- !app_assoc. reflexivity.
  - unfold logged; simpl. rewrite <- !app_assoc. reflexivity.
Qed.

Lemma cursorOf_lookup (member : teamMember.t) :
  default EmptyString (cursorOf member !! "TeamId") = teamMember.TeamId member
  /\ default EmptyString (cursorOf member !! "UserId") = teamMember.UserId member.
Proof.
  unfold cursorOf. split.
  - rewrite lookup_insert_ne by discriminate.
    rewrite lookup_insert_eq. reflexivity.
  - rewrite lookup_insert_eq. reflexivity.
Qed.

Lemma pending_In (lt : string -> string -> bool) (c : string * string)
    (rows : list teamMember.t) (x : string * string) :
  In x (pending lt c rows)
  <-> In x (map memberKey rows) /\ keyLt lt c x = true.
Proof. unfold pending. rewrite orderBy_In, filter_In. reflexivity. Qed.

Lemma pending_sorted (lt : string -> string -> bool) (c : string * string)
    (rows : list teamMember.t) :
  strictTotal lt -> List.NoDup (map memberKey rows) ->
  StronglySorted (ascendingBy (keyLt lt)) (pending lt c rows).
Proof.
  intros Hlt Hnd. unfold pending.
  apply orderBy_sorted; [apply keyLt_strict, Hlt|].
  apply List.NoDup_filter, Hnd.
Qed.

Lemma pending_after (lt : string -> string -> bool) (rows : list teamMember.t)
    (c c' : string * string) (P1 P2 : list (string * string)) :
  strictTotal lt -> List.NoDup (map memberKey rows) ->
  pending lt c rows = (P1 ++ c' :: P2)%list ->
  pending lt c' rows = P2.
Proof.
  intros Hlt Hnd HP.
  pose proof (keyLt_strict lt Hlt) as Hk.
  pose proof (pending_sorted lt c rows Hlt Hnd) as Hs. rewrite HP in Hs.
  apply (sorted_unique (keyLt lt) Hk).
  - apply pending_sorted; assumption.
  - apply (sorted_split (keyLt lt) P1 c' P2 Hs).
  - intros x. rewrite <- (filter_after_batch (keyLt lt) Hk P1 c' P2 x Hs).
    rewrite <- HP, !pending_In.
    assert (Hc : keyLt lt c c' = true).
    { apply (pending_In lt c rows c'). rewrite HP.
      apply in_elt. }
    destruct Hk as (_ & Htrans & _).
    split; [intros [Hin Hlt']|intros [[Hin _] Hlt']]; repeat split; try assumption.
    apply (Htrans _ _ _ Hc Hlt').
Qed.

Lemma pending_all (lt : string -> string -> bool) (c : string * string)
    (rows : list teamMember.t) :
  Forall (fun row => keyLt lt c (memberKey row) = true) rows ->
  pending lt c rows = orderBy (keyLt lt) (map memberKey rows).
Proof.
  intros Hall. unfold pending. f_equal.
  induction Hall as [|row rows Hrow _ IH]; [reflexivity|].
  simpl. rewrite Hrow, IH. reflexivity.
Qed.

Lemma pending_keys (lt : string -> string -> bool) (c : string * string)
    (rows rows' : list teamMember.t) :
  map memberKey rows' = map memberKey rows ->
  pending lt c rows' = pending lt c rows.
Proof. intros Hk. unfold pending. rewrite Hk. reflexivity. Qed.

Lemma migrationLoop_quiet (fuel : nat) : forall (c1 c2 : string) (s : SqlStore),
  script s = [] ->
  strictTotal (collation s) ->
  List.NoDup (map memberKey (TeamMembers (master s))) ->
  (length (pending (collation s) (c1, c2) (TeamMembers (master s))) < fuel)%nat ->
  exists s',
    migrationLoop fuel c1 c2 s = ((None, true), s')
    /\ updatedMembers (log s')
       = (updatedMembers (log s)
          ++ pending (collation s) (c1, c2) (TeamMembers (master s)))%list.
Proof.
  induction fuel as [|fuel IH]; intros c1 c2 s Hq Hlt Hnd Hlen; [lia|].
  simpl. unfold mbind at 1, Conn_bind at 1.
  rewrite (Migrate_quiet s c1 c2 Hq).
  pose proof (selectAfter_keys (collation s) c1 c2 100 (master s)) as Hkeys.
  set (batch := SqlTeamStore.selectAfter (collation s) c1 c2 100 (master s)) in *.
  set (P := pending (collation s) (c1, c2) (TeamMembers (master s))) in *.
  destruct (last batch) as [lastMember|] eqn:Hlast.
  - apply last_Some in Hlast as [front Hbatch].
    destruct (cursorOf_lookup lastMember) as [-> ->].
    set (s1 := withMaster _ _).
    assert (HP : P = (map memberKey front ++ memberKey lastMember :: skipn 100 P)%list).
    { rewrite <- (firstn_skipn 100 P) at 1. rewrite <- Hkeys, Hbatch.
      rewrite map_app. simpl. rewrite <- app_assoc. reflexivity. }
    assert (Hkeys1 : map memberKey (TeamMembers (master s1))
                     = map memberKey (TeamMembers (master s))).
    { subst s1. simpl. apply applyMigration_keys. }
    assert (Hnext : pending (collation s1)
                      (teamMember.TeamId lastMember, teamMember.UserId lastMember)
                      (TeamMembers (master s1)) = skipn 100 P).
    { rewrite (pending_keys _ _ _ _ Hkeys1).
      apply (pending_after (collation s) _ (c1, c2) _ (map memberKey front));
        [exact Hlt | exact Hnd | exact HP]. }
    destruct (IH (teamMember.TeamId lastMember) (teamMember.UserId lastMember) s1)
      as (s' & Hrun & Hlog).
    + reflexivity.
    + exact Hlt.
    + rewrite Hkeys1. exact Hnd.
    + rewrite Hnext. rewrite HP in Hlen. rewrite length_app in Hlen.
      simpl in Hlen. lia.
    + exists s'. split; [exact Hrun|].
      rewrite Hlog, Hnext. subst s1. simpl.
      rewrite updatedMembers_call.
      rewrite <- app_assoc, Hkeys, firstn_skipn. reflexivity.
  - apply last_None in Hlast.
    assert (HP : P = []).
    { rewrite Hlast in Hkeys. simpl in Hkeys.
      destruct P; [reflexivity | discriminate]. }
    eexists. split; [reflexivity|]. simpl.
    rewrite updatedMembers_app, HP. reflexivity.
Qed.

Lemma issue_log (st : Statement) (s : SqlStore) :
  log (snd (issue st s)) = (log s ++ [st])%list.
Proof. unfold issue. destruct (script s); reflexivity. Qed.

Lemma migrateEach_at_most (batch : list teamMember.t) : forall tx s,
  (length (updatedMembers (log (snd (SqlTeamStore.migrateEach batch tx s))))
   <= length (updatedMembers (log s)) + length batch)%nat.
Proof.
  induction batch as [|member batch IH]; intros tx s; simpl; [lia|].
  conn_unfold.
  match goal with
  | |- context [issue ?st s] =>
      pose proof (issue_log st s) as Hlog; destruct (issue st s) as [ev s1]
  end.
  simpl in Hlog.
  assert (Hone : length (updatedMembers (log s1))
                 = S (length (updatedMembers (log s)))).
  { rewrite Hlog, updatedMembers_app, length_app. simpl. lia. }
  destruct ev as [|e|f]; simpl.
  - etransitivity; [apply IH|]. lia.
  - lia.
  - etransitivity; [apply IH|]. simpl. lia.
Qed.

Lemma selectAfter_length (lt : string -> string -> bool) (c1 c2 : string)
    (limit : nat) (db : DB) :
  (length (SqlTeamStore.selectAfter lt c1 c2 limit db) <= limit)%nat.
Proof. unfold SqlTeamStore.selectAfter. apply firstn_le_length. Qed.

Lemma updatesAtMost_ret {A} (n : nat) (P : A -> Prop) (a : A) :
  P a -> updatesAtMost n P (mret a).
Proof. intros Ha s. split; [exact Ha | simpl; lia]. Qed.

Lemma updatesAtMost_bind {A B} (n k : nat) (P : A -> Prop) (Q : B -> Prop)
    (m : Conn A) (f : A -> Conn B) :
  updatesAtMost n P m ->
  (forall a, P a -> updatesAtMost k Q (f a)) ->
  updatesAtMost (n + k) Q (m ≫= f).
Proof.
  intros Hm Hf s. unfold mbind, Conn_bind.
  destruct (Hm s) as [HP Hn]. destruct (m s) as [a s1]. simpl in *.
  destruct (Hf a HP s1) as [HQ Hk]. split; [exact HQ | lia].
Qed.

Lemma updatesAtMost_weaken {A} (n n' : nat) (P : A -> Prop) (c : Conn A) :
  (n <= n')%nat -> updatesAtMost n P c -> updatesAtMost n' P c.
Proof. intros Hle Hc s. destruct (Hc s) as [HP Hn]. split; [exact HP | lia]. Qed.

Lemma updatesAtMost_onMaster {A} (st : Statement) (zero : A)
    (q : DB -> A * option error * DB) (P : A * option error -> Prop) :
  updatedMembers [st] = [] ->
  (forall e, P (zero, Some e)) ->
  (forall db, P (fst (q db))) ->
  updatesAtMost 0 P (onMaster st zero q).
Proof.
  intros Hst Hfail Hq s. unfold onMaster.
  pose proof (issue_log st s) as Hlog. destruct (issue st s) as [ev s1].
  simpl in Hlog.
  assert (H1 : length (updatedMembers (log s1)) = length (updatedMembers (log s))).
  { rewrite Hlog, updatedMembers_app, Hst, app_nil_r. reflexivity. }
  destruct ev as [|e|f].
  - specialize (Hq (master s1)). destruct (q (master s1)) as [[a err] db].
    simpl in *. split; [exact Hq | lia].
  - simpl. split; [apply Hfail | lia].
  - specialize (Hq (f (master s1))). destruct (q (f (master s1))) as [[a err] db].
    simpl in *. split; [exact Hq | lia].
Qed.

Lemma updatesAtMost_inTx {A} (st : Statement) (zero : A)
    (q : DB -> A * option error * DB) (tx : Transaction)
    (P : A * option error * Transaction -> Prop) :
  updatedMembers [st] = [] ->
  (forall e, P (zero, Some e, tx)) ->
  (forall db, P (q db)) ->
  updatesAtMost 0 P (inTx st zero q tx).
Proof.
  intros Hst Hfail Hq s. unfold inTx.
  pose proof (issue_log st s) as Hlog. destruct (issue st s) as [ev s1].
  simpl in Hlog.
  assert (H1 : length (updatedMembers (log s1)) = length (updatedMembers (log s))).
  { rewrite Hlog, updatedMembers_app, Hst, app_nil_r. reflexivity. }
  destruct ev as [|e|f]; simpl; (split; [auto | lia]).
Qed.

Lemma updatesAtMost_Commit (tx : Transaction) :
  updatesAtMost 0 (fun _ => True) (Commit tx).
Proof.
  intros s. unfold Commit.
  match goal with
  | |- context [issue ?st s] =>
      pose proof (issue_log st s) as Hlog; destruct (issue st s) as [ev s1]
  end.
  simpl in Hlog.
  assert (H1 : length (updatedMembers (log s1)) = length (updatedMembers (log s))).
  { rewrite Hlog, updatedMembers_app, app_nil_r. reflexivity. }
  destruct ev as [|e|f]; simpl; (split; [exact I | lia]).
Qed.

Lemma updatesAtMost_migrateEach (batch : list teamMember.t) (tx : Transaction) :
  updatesAtMost (length batch) (fun _ => True) (SqlTeamStore.migrateEach batch tx).
Proof. intros s. split; [exact I | apply migrateEach_at_most]. Qed.

(** One call updates at most 100 rows, whatever the backend does. *)
Lemma Migrate_at_most_100 (c1 c2 : string) :
  updatesAtMost 100 (fun _ => True) (SqlTeamStore.MigrateTeamMembers c1 c2).
Proof.
  unfold SqlTeamStore.MigrateTeamMembers.
  apply (updatesAtMost_bind 0 100 (fun _ => True));
    [intros s; split; [exact I | simpl; lia]|].
  intros lt _.
  apply (updatesAtMost_bind 0 100 (fun _ => True)).
  { unfold Begin. apply updatesAtMost_onMaster; [reflexivity | |]; intros; exact I. }
  intros [transaction err] _.
  destruct transaction as [transaction|], err as [e|];
    try (apply updatesAtMost_ret; exact I).
  apply (updatesAtMost_bind 0 100
           (fun r : list teamMember.t * option error * Transaction =>
              (length (fst (fst r)) <= 100)%nat)).
  { apply updatesAtMost_inTx; [reflexivity | |].
    - intros e. simpl. lia.
    - intros db. simpl. apply selectAfter_length. }
  intros [[teamMembers err] tx] Hlen. simpl in Hlen.
  destruct err as [e|]; [apply updatesAtMost_ret; exact I|].
  destruct (last teamMembers) as [lastMember|];
    [|apply updatesAtMost_ret; exact I].
  apply (updatesAtMost_weaken (length teamMembers + 0)); [lia|].
  apply (updatesAtMost_bind _ _ (fun _ => True));
    [apply updatesAtMost_migrateEach|].
  intros [err tx'] _.
  destruct err as [e|]; [apply updatesAtMost_ret; exact I|].
  apply (updatesAtMost_bind 0 0 (fun _ => True)); [apply updatesAtMost_Commit|].
  intros [e|] _; apply updatesAtMost_ret; exact I.
Qed.

End Migration.

Section MigrationClaim.
Context `{M : ModelPkg}.

(** C4: on a table whose primary key holds, with every statement
    proceeding, the caller's loop over [MigrateTeamMembers], started from a
    cursor below every row, reaches the empty, terminal result within one
    call more than there are rows; the rows it has updated by then are all
    the rows of the table, each once, in ascending [(TeamId, UserId)]
    order; and no call updates more than 100 rows. *)
Theorem migration_visits_every_row_once (s : SqlStore) (fromTeamId fromUserId : string) :
  script s = [] ->
  log s = [] ->
  strictTotal (collation s) ->
  List.NoDup (map memberKey (TeamMembers (master s))) ->
  Forall (fun row => keyLt (collation s) (fromTeamId, fromUserId) (memberKey row) = true)
         (TeamMembers (master s)) ->
  exists s',
    migrationLoop (S (length (TeamMembers (master s)))) fromTeamId fromUserId s
    = ((None, true), s')
    /\ updatedMembers (log s')
       = orderBy (keyLt (collation s)) (map memberKey (TeamMembers (master s)))
    /\ StronglySorted (ascendingBy (keyLt (collation s)))
                      (updatedMembers (log s'))
    /\ List.NoDup (updatedMembers (log s'))
    /\ Permutation (updatedMembers (log s')) (map memberKey (TeamMembers (master s)))
    /\ (forall c1 c2,
          updatesAtMost 100 (fun _ => True) (SqlTeamStore.MigrateTeamMembers c1 c2)).
Proof.
  intros Hq Hlog Hlt Hnd Hbelow.
  pose proof (keyLt_strict _ Hlt) as Hk.
  pose proof (pending_all _ _ _ Hbelow) as Hall.
  destruct (migrationLoop_quiet (S (length (TeamMembers (master s))))
              fromTeamId fromUserId s Hq Hlt Hnd) as (s' & Hrun & Hvisited).
  { rewrite Hall, orderBy_length, length_map. lia. }
  rewrite Hlog, Hall in Hvisited. simpl in Hvisited.
  assert (Hsorted : StronglySorted (ascendingBy (keyLt (collation s)))
                                   (updatedMembers (log s'))).
  { rewrite Hvisited. apply orderBy_sorted; assumption. }
  exists s'. split; [exact Hrun|]. split; [exact Hvisited|].
  split; [exact Hsorted|].
  split; [apply (sorted_NoDup (keyLt (collation s)) Hk), Hsorted|].
  split.
  - apply Stdlib.Sorting.Permutation.NoDup_Permutation.
    + apply (sorted_NoDup (keyLt (collation s)) Hk), Hsorted.
    + exact Hnd.
    + intros x. rewrite Hvisited. apply orderBy_In.
  - intros c1 c2. apply Migrate_at_most_100.
Qed.

End MigrationClaim.

(** ** Concrete runs *)

Lemma String_ltb_strict : strictTotal String.ltb.
Proof.
  unfold strictTotal, String.ltb. repeat split.
  - intros a. pose proof (String.compare_antisym a a) as H.
    destruct (String.compare a a); simpl in H; try discriminate; reflexivity.
  - intros a b c Hab Hbc.
    destruct (String.compare a b) eqn:Eab; try discriminate.
    destruct (String.compare b c) eqn:Ebc; try discriminate.
    apply String_as_OT.cmp_lt in Eab, Ebc.
    pose proof (String_as_OT.lt_trans _ _ _ Eab Ebc) as Hac.
    apply String_as_OT.cmp_lt in Hac. unfold String_as_OT.cmp in Hac.
    rewrite Hac. reflexivity.
  - intros a b Hne.
    destruct (String.compare a b) eqn:Eab.
    + apply String.compare_eq_iff in Eab. contradiction.
    + left. reflexivity.
    + right. rewrite String.compare_antisym, Eab. reflexivity.
Qed.

Lemma upstream_roleIdsDistinct : roleIdsDistinct (M := upstream).
Proof. repeat split; discriminate. Qed.

Lemma getTeamRoles_partition_witness :
  roleIdsDistinct (M := upstream)
  /\ let tokens := ["team_user"; "custom"; "team_admin"; "custom"] in
     let r := getTeamRoles (M := upstream) false false false
                EmptyString EmptyString EmptyString tokens in
     explicitRoles r = nonSchemeRoles (M := upstream) tokens
     /\ (forall t, count_occ string_dec (explicitRoles r) t
                   = if isSchemeRole (M := upstream) t then 0%nat
                     else count_occ string_dec tokens t)
     /\ schemeGuest r = false || hasRole "team_guest" tokens
     /\ schemeUser r = false || hasRole "team_user" tokens
     /\ schemeAdmin r = false || hasRole "team_admin" tokens.
Proof.
  split; [exact upstream_roleIdsDistinct|].
  exact (getTeamRoles_partition (M := upstream) false false false
           EmptyString EmptyString EmptyString
           ["team_user"; "custom"; "team_admin"; "custom"]
           upstream_roleIdsDistinct).
Defined.

(** C2, as stated, fails: a non-scheme token that the input repeats appears
    twice among the explicit roles, not once. *)
Lemma getTeamRoles_keeps_repeated_token :
  let tokens := ["custom"; "team_user"; "custom"] in
  let r := getTeamRoles (M := upstream) false false false
             EmptyString EmptyString EmptyString tokens in
  In "custom" tokens
  /\ isSchemeRole (M := upstream) "custom" = false
  /\ explicitRoles r = ["custom"; "custom"]
  /\ count_occ string_dec (explicitRoles r) "custom" <> 1%nat
  /\ ~ List.NoDup (explicitRoles r).
Proof.
  simpl. repeat split.
  - left. reflexivity.
  - vm_compute. discriminate.
  - intros Hnd. inversion Hnd as [|? ? Hnin _]; subst.
    apply Hnin. left. reflexivity.
Qed.



(** The bulk methods do return members: a batch that fits is saved and
    comes back with its scheme role absorbed. *)
Example SaveMultipleMembers_fits :
  fst (SqlTeamStore.SaveMultipleMembers (M := upstream)
         [Sample.member Sample.teamA Sample.user2 "team_admin custom"] 2
         Sample.healthy)
  = (Some [{| TeamMember.TeamId := Sample.teamA;
              TeamMember.UserId := Sample.user2;
              TeamMember.Roles := "custom team_user team_admin";
              TeamMember.DeleteAt := 0;
              TeamMember.SchemeGuest := false;
              TeamMember.SchemeUser := true;
              TeamMember.SchemeAdmin := true;
              TeamMember.ExplicitRoles := "custom" |}], None).
Proof. vm_compute. reflexivity. Qed.

Lemma migrateMember_partition_witness :
  roleIdsDistinct (M := upstream)
  /\ let member := Sample.legacyRow Sample.teamA Sample.user1
                     "team_user  custom team_admin other" in
     let tokens := Fields (teamMember.Roles member) in
     let r := getTeamRoles (M := upstream)
                (flagOf (teamMember.SchemeGuest member))
                (flagOf (teamMember.SchemeUser member))
                (flagOf (teamMember.SchemeAdmin member))
                EmptyString EmptyString EmptyString tokens in
     let m' := migrateMember (M := upstream) member in
     snd (migrateTokens (M := upstream) member) = explicitRoles r
     /\ snd (migrateTokens (M := upstream) member) = nonSchemeRoles (M := upstream) tokens
     /\ teamMember.Roles m' = Join (explicitRoles r) " "
     /\ teamMember.SchemeGuest m' = {| Bool := schemeGuest r; Valid := true |}
     /\ teamMember.SchemeUser m' = {| Bool := schemeUser r; Valid := true |}
     /\ teamMember.SchemeAdmin m' = {| Bool := schemeAdmin r; Valid := true |}
     /\ schemeGuest r
        = flagOf (teamMember.SchemeGuest member) || hasRole "team_guest" tokens
     /\ schemeUser r
        = flagOf (teamMember.SchemeUser member) || hasRole "team_user" tokens
     /\ schemeAdmin r
        = flagOf (teamMember.SchemeAdmin member) || hasRole "team_admin" tokens
     /\ teamMember.TeamId m' = teamMember.TeamId member
     /\ teamMember.UserId m' = teamMember.UserId member
     /\ teamMember.DeleteAt m' = teamMember.DeleteAt member.
Proof.
  split; [exact upstream_roleIdsDistinct|].
  exact (migrateMember_partition (M := upstream)
           (Sample.legacyRow Sample.teamA Sample.user1
              "team_user  custom team_admin other")
           EmptyString EmptyString EmptyString upstream_roleIdsDistinct).
Defined.

(** Team A holds one active member; with [maxUsersPerTeam = 1] a batch
    that adds one member to team A and one to team B comes back as
    [(nil, nil)], and neither row is inserted. *)
Lemma SaveMultipleMembers_over_capacity_witness :
  let members := [Sample.member Sample.teamA Sample.user2 EmptyString;
                  Sample.member Sample.teamB Sample.user3 EmptyString] in
  script Sample.healthy = []
  /\ 0 <= 1
  /\ fst (SqlTeamStore.SaveMultipleMembers (M := upstream) members 1 Sample.healthy)
     = (None, None)
  /\ master (snd (SqlTeamStore.SaveMultipleMembers (M := upstream) members 1
                    Sample.healthy))
     = master Sample.healthy.
Proof.
  intros members.
  split; [reflexivity|]. split; [lia|].
  apply (SaveMultipleMembers_over_capacity (M := upstream) Sample.healthy members 1
           (<[Sample.teamB := 1]> (<[Sample.teamA := 1]> ∅)) Sample.teamA 1).
  - reflexivity.
  - vm_compute. reflexivity.
  - lia.
  - vm_compute. reflexivity.
  - vm_compute. reflexivity.
Defined.

Lemma migration_witness :
  script Sample.legacy = []
  /\ log Sample.legacy = []
  /\ strictTotal (collation Sample.legacy)
  /\ List.NoDup (map memberKey (TeamMembers (master Sample.legacy)))
  /\ exists s',
      migrationLoop (M := upstream) 4 EmptyString EmptyString Sample.legacy
      = ((None, true), s')
      /\ updatedMembers (log s')
         = orderBy (keyLt (collation Sample.legacy))
                   (map memberKey (TeamMembers (master Sample.legacy)))
      /\ StronglySorted (ascendingBy (keyLt (collation Sample.legacy)))
                        (updatedMembers (log s'))
      /\ List.NoDup (updatedMembers (log s'))
      /\ Permutation (updatedMembers (log s'))
                     (map memberKey (TeamMembers (master Sample.legacy)))
      /\ (forall c1 c2,
            updatesAtMost 100 (fun _ => True)
              (SqlTeamStore.MigrateTeamMembers (M := upstream) c1 c2)).
Proof.
  assert (Hnd : List.NoDup (map memberKey (TeamMembers (master Sample.legacy)))).
  { simpl. repeat constructor; simpl; intros H;
      repeat (destruct H as [H|H]; try discriminate H); exact H. }
  split; [reflexivity|]. split; [reflexivity|].
  split; [exact String_ltb_strict|]. split; [exact Hnd|].
  apply (migration_visits_every_row_once (M := upstream) Sample.legacy
           EmptyString EmptyString).
  - reflexivity.
  - reflexivity.
  - exact String_ltb_strict.
  - exact Hnd.
  - repeat constructor.
Defined.

(** The run on the three legacy rows: two calls, the rows in key order. *)
Example migration_run :
  let '(r, s') := migrationLoop (M := upstream) 4 EmptyString EmptyString
                    Sample.legacy in
  r = (None, true)
  /\ updatedMembers (log s')
     = [(Sample.teamA, Sample.user1); (Sample.teamA, Sample.user2);
        (Sample.teamB, Sample.user3)]
  /\ map teamMember.Roles (TeamMembers (master s'))
     = [EmptyString; "custom"; EmptyString].
Proof. vm_compute. repeat split. Qed.

Lemma Update_no_prior_row_witness :
  let team := Sample.team Sample.user1 "gamma" 0 in
  script Sample.healthy = []
  /\ Team_IsValid (ModelPkg := upstream) (Team_PreUpdate (ModelPkg := upstream) team) = None
  /\ Teams (master Sample.healthy) !! Team.Id team = None
  /\ fst (SqlTeamStore.Update (M := upstream) team 9 Sample.healthy) = (None, None)
  /\ master (snd (SqlTeamStore.Update (M := upstream) team 9 Sample.healthy))
     = master Sample.healthy.
Proof.
  intros team.
  split; [reflexivity|]. split; [reflexivity|]. split; [vm_compute; reflexivity|].
  apply (Update_no_prior_row (M := upstream) Sample.healthy team 9).
  - reflexivity.
  - reflexivity.
  - vm_compute. reflexivity.
Defined.

Lemma Get_no_row_witness :
  script Sample.healthy = []
  /\ Teams (replica Sample.healthy) !! Sample.user1 = None
  /\ fst (SqlTeamStore.Get Sample.user1 Sample.healthy) = (None, None)
  /\ fst (SqlTeamStore.GetByName "gamma" Sample.healthy) = (None, Some ErrNoRows).
Proof.
  split; [reflexivity|]. split; [vm_compute; reflexivity|].
  apply (Get_no_row Sample.healthy Sample.user1 "gamma").
  - reflexivity.
  - vm_compute. reflexivity.
  - intros i team Hrow.
    apply elem_of_map_to_list in Hrow.
    vm_compute in Hrow.
    apply list_elem_of_In in Hrow.
    destruct Hrow as [Hrow|[Hrow|[]]]; inversion Hrow; subst; discriminate.
Defined.

Lemma optimistic_update_mismatch_witness :
  let job := Sample.job "job1" "success" in
  let row := Sample.jobRow "job1" "pending" in
  script Sample.healthy = []
  /\ Jobs (master Sample.healthy) !! Job.Id job = Some row
  /\ Job.rStatus row <> "in_progress"
  /\ (exists s',
        SqlJobStore.UpdateOptimistically (M := upstream) job "in_progress" 7
          Sample.healthy
        = ((false, None), s')
        /\ master s' = master Sample.healthy
        /\ replica s' = replica Sample.healthy
        /\ log s' = (log Sample.healthy
                     ++ [{| verb := UPDATE; table := "Jobs";
                            keys := [Job.Id job] |}])%list)
  /\ (exists s',
        SqlJobStore.UpdateStatusOptimistically (M := upstream) (Job.Id job)
          "in_progress" "success" 7 8 Sample.healthy
        = ((false, None), s')
        /\ master s' = master Sample.healthy
        /\ replica s' = replica Sample.healthy
        /\ log s' = (log Sample.healthy
                     ++ [{| verb := UPDATE; table := "Jobs";
                            keys := [Job.Id job] |}])%list).
Proof.
  intros job row.
  split; [reflexivity|]. split; [vm_compute; reflexivity|].
  split; [discriminate|].
  apply (optimistic_update_mismatch (M := upstream) Sample.healthy job row
           "in_progress" "success" 7 8).
  - reflexivity.
  - vm_compute. reflexivity.
  - discriminate.
Defined.

Lemma InsertIfExists_empty_value_witness :
  let system := {| System.Name := "InstallationDate"; System.Value := "1604102400000" |} in
  script Sample.healthy = []
  /\ Systems (master Sample.healthy) !! System.Name system = Some EmptyString
  /\ fst (SqlSystemStore.InsertIfExists system Sample.healthy)
     = (None, Some (duplicateKey (DriverName Sample.healthy) "PRIMARY"
                      "systems_pkey" (System.Name system)))
  /\ master (snd (SqlSystemStore.InsertIfExists system Sample.healthy))
     = master Sample.healthy.
Proof.
  intros system.
  split; [reflexivity|]. split; [vm_compute; reflexivity|].
  apply (InsertIfExists_empty_value Sample.healthy system).
  - reflexivity.
  - vm_compute. reflexivity.
Defined.

Lemma SaveOrUpdate_insert_error_witness :
  let status := Sample.status Sample.user1 "away" in
  let e := duplicateKey (DriverName Sample.staleReplica) "PRIMARY" "status_pkey"
             (Status.UserId status) in
  StatusRows (replica Sample.staleReplica) !! Status.UserId status = None
  /\ statusInsertFails status Sample.staleReplica e
  /\ fst (SqlStatusStore.SaveOrUpdate status Sample.staleReplica)
     = (if isDuplicatePrimary e then None else Some e)
  /\ master (snd (SqlStatusStore.SaveOrUpdate status Sample.staleReplica))
     = master Sample.staleReplica
  /\ log (snd (SqlStatusStore.SaveOrUpdate status Sample.staleReplica))
     = (log Sample.staleReplica
        ++ [{| verb := SELECT; table := "Status"; keys := [Status.UserId status] |};
            {| verb := INSERT; table := "Status"; keys := [Status.UserId status] |}])%list.
Proof.
  intros status e.
  assert (Hfails : statusInsertFails status Sample.staleReplica e).
  { apply (insert_key_taken status Sample.staleReplica
             (Sample.status Sample.user1 "online")).
    - reflexivity.
    - vm_compute. reflexivity. }
  split; [vm_compute; reflexivity|]. split; [exact Hfails|].
  apply (SaveOrUpdate_insert_error Sample.staleReplica status e).
  - vm_compute. reflexivity.
  - exact Hfails.
Defined.

(** On MySQL the lost race ends in success although the row still holds the
    old value; on PostgreSQL the same race returns the driver's error. *)
Example SaveOrUpdate_stale_replica :
  let status := Sample.status Sample.user1 "away" in
  fst (SqlStatusStore.SaveOrUpdate status Sample.staleReplica) = None
  /\ StatusRows (master (snd (SqlStatusStore.SaveOrUpdate status Sample.staleReplica)))
       !! Sample.user1 = Some (Sample.status Sample.user1 "online")
  /\ fst (SqlStatusStore.SaveOrUpdate status
            (Sample.store DATABASE_DRIVER_POSTGRES Sample.tables
               (withStatusRows Sample.tables ∅)))
     = Some (duplicateKey DATABASE_DRIVER_POSTGRES "PRIMARY" "status_pkey" Sample.user1).
Proof. vm_compute. repeat split. Qed.

(** What the split does not cover: only the three well-known ids are
    absorbed.  A scheme's own default role name that is also written as an
    explicit role stays among the explicit roles; the effective roles hold
    it once. *)
Example ToModel_custom_default_role :
  let row :=
    {| teamMemberWithSchemeRoles.TeamId := Sample.teamA;
       teamMemberWithSchemeRoles.UserId := Sample.user1;
       teamMemberWithSchemeRoles.Roles := "custom_team_user team_user";
       teamMemberWithSchemeRoles.DeleteAt := 0;
       teamMemberWithSchemeRoles.SchemeGuest := {| Bool := false; Valid := true |};
       teamMemberWithSchemeRoles.SchemeUser := {| Bool := true; Valid := true |};
       teamMemberWithSchemeRoles.SchemeAdmin := {| Bool := false; Valid := false |};
       teamMemberWithSchemeRoles.TeamSchemeDefaultGuestRole := nullString None;
       teamMemberWithSchemeRoles.TeamSchemeDefaultUserRole :=
         nullString (Some "custom_team_user");
       teamMemberWithSchemeRoles.TeamSchemeDefaultAdminRole := nullString None |} in
  TeamMember.ExplicitRoles (ToModel (M := upstream) row) = "custom_team_user"
  /\ TeamMember.Roles (ToModel (M := upstream) row) = "custom_team_user"
  /\ TeamMember.SchemeUser (ToModel (M := upstream) row) = true.
Proof. vm_compute. repeat split. Qed.

(* ================================================================== *)
(** * Further properties of the code *)
(* ================================================================== *)

(** ** The effective roles of the resolver *)

Section EffectiveRoles.
Context `{M : ModelPkg}.

Lemma alreadyThere_In (rs : list string) (x : string) :
  alreadyThere rs x = true <-> In x rs.
Proof.
  unfold alreadyThere.
  assert (Hgen : forall b,
    fold_left (fun found role => if String.eqb role x then true else found) rs b
    = b || existsb (fun role => String.eqb role x) rs).
  { induction rs as [|role rs IH]; intros b; simpl.
    - rewrite orb_false_r. reflexivity.
    - rewrite IH. destruct (String.eqb role x), b; reflexivity. }
  rewrite Hgen. simpl. rewrite existsb_exists. split.
  - intros (role & Hin & Heq). apply String.eqb_eq in Heq. subst. exact Hin.
  - intros Hin. exists x. split; [exact Hin | apply String.eqb_refl].
Qed.

Lemma addImplied_fold (implied : list string) : forall rs,
  exists added,
    fold_left addImplied implied rs = (rs ++ added)%list
    /\ List.NoDup added
    /\ (forall t, In t added <-> In t implied /\ ~ In t rs).
Proof.
  induction implied as [|x implied IH]; intros rs; simpl.
  - exists []. rewrite app_nil_r. split; [reflexivity|].
    split; [constructor|]. intros t. simpl. tauto.
  - unfold addImplied at 2.
    destruct (alreadyThere rs x) eqn:Hthere; simpl.
    + apply alreadyThere_In in Hthere.
      destruct (IH rs) as (added & Heq & Hnd & Hin).
      exists added. split; [exact Heq|]. split; [exact Hnd|].
      intros t. rewrite Hin. split; [tauto|].
      intros [[->|Ht] Hn]; [contradiction | tauto].
    + assert (Hnot : ~ In x rs).
      { intros Hin. apply alreadyThere_In in Hin. congruence. }
      destruct (IH (append rs x)) as (added & Heq & Hnd & Hin).
      unfold append in *.
      exists (x :: added). split; [rewrite Heq, <- app_assoc; reflexivity|].
      split.
      * constructor; [|exact Hnd].
        intros Hx. apply Hin in Hx as [_ Hx]. apply Hx.
        apply in_or_app. right. left. reflexivity.
      * intros t. simpl. rewrite Hin. rewrite in_app_iff. simpl.
        destruct (string_dec x t) as [->|Hne]; [tauto|]. tauto.
Qed.

Lemma getTeamRoles_roles_split g u a dg du da (tokens : list string) :
  let r := getTeamRoles g u a dg du da tokens in
  exists added,
    roles r = (explicitRoles r ++ added)%list
    /\ List.NoDup added
    /\ (length added <= 3)%nat
    /\ (forall t, In t added
                  <-> In t (schemeImpliedRoles (schemeGuest r) (schemeUser r)
                              (schemeAdmin r) dg du da)
                      /\ ~ In t (explicitRoles r)).
Proof.
  intros r. subst r. unfold getTeamRoles. simpl.
  destruct (absorbRole_lists tokens
    {| roles := []; explicitRoles := []; schemeGuest := g;
       schemeUser := u; schemeAdmin := a |}) as [He Hr].
  simpl in He, Hr. rewrite He, Hr.
  match goal with
  | |- context [fold_left addImplied ?imp ?rs] =>
      destruct (addImplied_fold imp rs) as (added & Heq & Hnd & Hin);
      pose (implied := imp)
  end.
  exists added. split; [exact Heq|]. split; [exact Hnd|]. split; [|exact Hin].
  assert (Hlen : (length implied <= 3)%nat).
  { subst implied. rewrite !length_app. unfold impliedRole.
    repeat match goal with
    | |- context [if ?b then _ else _] => destruct b
    end; simpl; lia. }
  apply (Nat.le_trans _ (length implied)); [|exact Hlen].
  apply NoDup_incl_length; [exact Hnd|].
  intros t Ht. apply Hin in Ht as [Ht _]. exact Ht.
Qed.

Lemma count_occ_not_In_0 (l : list string) (t : string) :
  ~ In t l -> count_occ string_dec l t = 0%nat.
Proof. intros H. apply count_occ_not_In. exact H. Qed.

Lemma count_occ_NoDup_1 (l : list string) (t : string) :
  List.NoDup l -> In t l -> count_occ string_dec l t = 1%nat.
Proof.
  intros Hnd Hin.
  pose proof (proj1 (NoDup_count_occ string_dec l) Hnd t) as Hle.
  pose proof (proj1 (count_occ_In string_dec l t) Hin) as Hpos. lia.
Qed.

Lemma isSchemeRole_not_explicit g u a dg du da (tokens : list string) (t : string) :
  isSchemeRole t = true ->
  ~ In t (explicitRoles (getTeamRoles g u a dg du da tokens)).
Proof.
  intros Ht Hin. rewrite getTeamRoles_explicitRoles in Hin.
  apply nonSchemeRoles_In in Hin as [_ Hin]. congruence.
Qed.

(** X1: the effective roles are the explicit roles followed by the roles
    implied by the set flags that are not explicit already, each of them
    once, and nothing else. *)
Theorem getTeamRoles_effective_roles g u a dg du da (tokens : list string) :
  let r := getTeamRoles g u a dg du da tokens in
  exists added,
    roles r = (explicitRoles r ++ added)%list
    /\ List.NoDup added
    /\ (length added <= 3)%nat
    /\ (forall t, In t added
                  <-> In t (schemeImpliedRoles (schemeGuest r) (schemeUser r)
                              (schemeAdmin r) dg du da)
                      /\ ~ In t (explicitRoles r)).
Proof. exact (getTeamRoles_roles_split g u a dg du da tokens). Qed.

(** X2: when a flag ends up set and the scheme gives no default name for
    it, the well-known id is among the effective roles exactly once, also
    when the input tokens held it several times. *)
Theorem getTeamRoles_fallback_once g u a dg du da (tokens : list string) :
  let r := getTeamRoles g u a dg du da tokens in
  (schemeGuest r = true -> dg = EmptyString ->
   count_occ string_dec (roles r) TEAM_GUEST_ROLE_ID = 1%nat)
  /\ (schemeUser r = true -> du = EmptyString ->
      count_occ string_dec (roles r) TEAM_USER_ROLE_ID = 1%nat)
  /\ (schemeAdmin r = true -> da = EmptyString ->
      count_occ string_dec (roles r) TEAM_ADMIN_ROLE_ID = 1%nat).
Proof.
  intros r.
  destruct (getTeamRoles_roles_split g u a dg du da tokens)
    as (added & Heq & Hnd & _ & Hin).
  fold r in Heq, Hin.
  assert (Hone : forall id,
    isSchemeRole id = true ->
    In id (schemeImpliedRoles (schemeGuest r) (schemeUser r) (schemeAdmin r) dg du da) ->
    count_occ string_dec (roles r) id = 1%nat).
  { intros id Hid Himp.
    pose proof (isSchemeRole_not_explicit g u a dg du da tokens id Hid) as Hnot.
    fold r in Hnot.
    rewrite Heq, count_occ_app, (count_occ_not_In_0 _ _ Hnot).
    apply count_occ_NoDup_1; [exact Hnd|]. apply Hin. split; assumption. }
  clearbody r.
  unfold schemeImpliedRoles, isSchemeRole in Hone.
  repeat split; intros Hflag Hdefault; apply Hone;
    rewrite ?String.eqb_refl, ?orb_true_r; try reflexivity;
    rewrite !in_app_iff, Hflag, Hdefault; simpl; auto.
Qed.

End EffectiveRoles.

(** ** Resolving twice, and migrating before resolving *)

Section ResolveAgain.
Context `{M : ModelPkg}.

Lemma nonSchemeRoles_Forall (tokens : list string) :
  Forall (fun t => isSchemeRole t = false) (nonSchemeRoles tokens).
Proof.
  apply List.Forall_forall. intros t Ht.
  apply nonSchemeRoles_In in Ht as [_ Ht]. exact Ht.
Qed.

Lemma absorbRole_explicit_only (tokens : list string) :
  Forall (fun t => isSchemeRole t = false) tokens ->
  forall r,
    fold_left absorbRole tokens r
    = {| roles := (roles r ++ tokens)%list;
         explicitRoles := (explicitRoles r ++ tokens)%list;
         schemeGuest := schemeGuest r; schemeUser := schemeUser r;
         schemeAdmin := schemeAdmin r |}.
Proof.
  induction 1 as [|t tokens Ht _ IH]; intros r; simpl.
  - rewrite !app_nil_r. destruct r; reflexivity.
  - rewrite IH. unfold absorbRole, isSchemeRole in *.
    apply orb_false_iff in Ht as [Ht Ha].
    apply orb_false_iff in Ht as [Hg Hu].
    rewrite Hg, Hu, Ha. simpl. unfold append. rewrite <- !app_assoc. reflexivity.
Qed.

Lemma getTeamRoles_again g u a dg du da (tokens : list string) :
  let r := getTeamRoles g u a dg du da tokens in
  getTeamRoles (schemeGuest r) (schemeUser r) (schemeAdmin r) dg du da
               (explicitRoles r)
  = r.
Proof.
  intros r. subst r. unfold getTeamRoles at 1. cbv zeta.
  pose proof (getTeamRoles_explicitRoles g u a dg du da tokens) as He.
  rewrite He.
  rewrite (absorbRole_explicit_only _ (nonSchemeRoles_Forall tokens)).
  cbn [roles explicitRoles schemeGuest schemeUser schemeAdmin app].
  unfold getTeamRoles.
  destruct (absorbRole_lists tokens
    {| roles := []; explicitRoles := []; schemeGuest := g;
       schemeUser := u; schemeAdmin := a |}) as [He' Hr'].
  cbn [roles explicitRoles schemeGuest schemeUser schemeAdmin app] in *.
  rewrite He', Hr'. reflexivity.
Qed.

Lemma Fields_Join_nonSchemeRoles (roles0 : string) :
  Fields (Join (nonSchemeRoles (Fields roles0)) " ") = nonSchemeRoles (Fields roles0).
Proof. apply Fields_Join, nonSchemeRoles_isField, Fields_isField. Qed.

Lemma ToModel_withSchemeRoles (db : DB) (row : teamMember.t) :
  ToModel (SqlTeamStore.withSchemeRoles db row)
  = memberOf (teamMember.TeamId row) (teamMember.UserId row)
      (teamMember.DeleteAt row)
      (getTeamRoles
         (flagOf (teamMember.SchemeGuest row))
         (flagOf (teamMember.SchemeUser row))
         (flagOf (teamMember.SchemeAdmin row))
         (defaultName (Scheme.DefaultTeamGuestRole
                         <$> schemeOf db (teamMember.TeamId row)))
         (defaultName (Scheme.DefaultTeamUserRole
                         <$> schemeOf db (teamMember.TeamId row)))
         (defaultName (Scheme.DefaultTeamAdminRole
                         <$> schemeOf db (teamMember.TeamId row)))
         (Fields (teamMember.Roles row))).
Proof. reflexivity. Qed.

Lemma ToModel_of_written_member (db : DB) (teamId userId : string)
    (deleteAt : Z) (r : rolesInfo) :
  ToModel (SqlTeamStore.withSchemeRoles db
             (NewTeamMemberFromModel (memberOf teamId userId deleteAt r)))
  = memberOf teamId userId deleteAt
      (getTeamRoles (schemeGuest r) (schemeUser r) (schemeAdmin r)
         (defaultName (Scheme.DefaultTeamGuestRole <$> schemeOf db teamId))
         (defaultName (Scheme.DefaultTeamUserRole <$> schemeOf db teamId))
         (defaultName (Scheme.DefaultTeamAdminRole <$> schemeOf db teamId))
         (Fields (Join (explicitRoles r) " "))).
Proof. reflexivity. Qed.

(** X3: a member converted to its row with [NewTeamMemberFromModel] and read
    again through the same team and scheme is the member that was read: the
    row-to-model conversion is stable under a write-back. *)
Theorem ToModel_write_back (db : DB) (row : teamMember.t) :
  ToModel (SqlTeamStore.withSchemeRoles db
             (NewTeamMemberFromModel
                (ToModel (SqlTeamStore.withSchemeRoles db row))))
  = ToModel (SqlTeamStore.withSchemeRoles db row).
Proof.
  rewrite (ToModel_withSchemeRoles db row).
  rewrite ToModel_of_written_member.
  rewrite getTeamRoles_explicitRoles at 1.
  rewrite Fields_Join_nonSchemeRoles.
  rewrite <- (getTeamRoles_explicitRoles
                (flagOf (teamMember.SchemeGuest row))
                (flagOf (teamMember.SchemeUser row))
                (flagOf (teamMember.SchemeAdmin row))
                (defaultName (Scheme.DefaultTeamGuestRole
                                <$> schemeOf db (teamMember.TeamId row)))
                (defaultName (Scheme.DefaultTeamUserRole
                                <$> schemeOf db (teamMember.TeamId row)))
                (defaultName (Scheme.DefaultTeamAdminRole
                                <$> schemeOf db (teamMember.TeamId row)))
                (Fields (teamMember.Roles row))).
  rewrite getTeamRoles_again. reflexivity.
Qed.

End ResolveAgain.

Section MigrateThenRead.
Context `{M : ModelPkg}.

Lemma migrateMember_fields (row : teamMember.t) :
  roleIdsDistinct ->
  let tokens := Fields (teamMember.Roles row) in
  migrateMember row
  = {| teamMember.TeamId := teamMember.TeamId row;
       teamMember.UserId := teamMember.UserId row;
       teamMember.Roles := Join (nonSchemeRoles tokens) " ";
       teamMember.DeleteAt := teamMember.DeleteAt row;
       teamMember.SchemeUser :=
         {| Bool := flagOf (teamMember.SchemeUser row)
                    || hasRole TEAM_USER_ROLE_ID tokens;
            Valid := true |};
       teamMember.SchemeAdmin :=
         {| Bool := flagOf (teamMember.SchemeAdmin row)
                    || hasRole TEAM_ADMIN_ROLE_ID tokens;
            Valid := true |};
       teamMember.SchemeGuest :=
         {| Bool := flagOf (teamMember.SchemeGuest row)
                    || hasRole TEAM_GUEST_ROLE_ID tokens;
            Valid := true |} |}.
Proof.
  intros Hd tokens.
  unfold migrateMember, migrateTokens. fold tokens. clearbody tokens.
  match goal with
  | |- context [fold_left migrateRole tokens (?m, ?a)] =>
      pose proof (migrateRole_fold tokens Hd m a) as Hf;
      destruct (fold_left migrateRole tokens (m, a)) as [m1 nr]
  end.
  simpl in Hf. destruct Hf as (-> & Ht & Hi & _ & Hdel & Hsg & Hsu & Hsa).
  rewrite Ht, Hi, Hdel, Hsg, Hsu, Hsa, !orFalse_flagOf. simpl.
  f_equal;
    match goal with
    | |- context [hasRole ?i tokens] => destruct (hasRole i tokens)
    end; rewrite ?orb_true_r, ?orb_false_r; reflexivity.
Qed.

Lemma hasRole_nonSchemeRoles (id : string) (tokens : list string) :
  isSchemeRole id = true -> hasRole id (nonSchemeRoles tokens) = false.
Proof.
  intros Hid. unfold hasRole.
  destruct (existsb _ _) eqn:E; [|reflexivity].
  apply existsb_exists in E as (t & Hin & Heq).
  apply String.eqb_eq in Heq. subst t.
  apply nonSchemeRoles_In in Hin as [_ Hin]. congruence.
Qed.

Lemma nonSchemeRoles_idem (tokens : list string) :
  nonSchemeRoles (nonSchemeRoles tokens) = nonSchemeRoles tokens.
Proof.
  unfold nonSchemeRoles. induction tokens as [|t tokens IH]; [reflexivity|].
  simpl. destruct (negb (isSchemeRole t)) eqn:E; simpl; [rewrite E, IH|]; auto.
Qed.

Lemma isSchemeRole_ids :
  isSchemeRole TEAM_GUEST_ROLE_ID = true
  /\ isSchemeRole TEAM_USER_ROLE_ID = true
  /\ isSchemeRole TEAM_ADMIN_ROLE_ID = true.
Proof.
  unfold isSchemeRole. rewrite !String.eqb_refl, !orb_true_r. auto.
Qed.

Lemma flagOf_valid (b : bool) : flagOf {| Bool := b; Valid := true |} = b.
Proof. reflexivity. Qed.

(** X4: the migration of a row is invisible to readers: the member read
    from the migrated row is the member read from the legacy row. *)
Theorem ToModel_after_migration (db : DB) (row : teamMember.t) :
  roleIdsDistinct ->
  ToModel (SqlTeamStore.withSchemeRoles db (migrateMember row))
  = ToModel (SqlTeamStore.withSchemeRoles db row).
Proof.
  intros Hd.
  rewrite (migrateMember_fields row Hd). cbv zeta.
  rewrite !ToModel_withSchemeRoles.
  cbn [teamMember.TeamId teamMember.UserId teamMember.Roles teamMember.DeleteAt
       teamMember.SchemeGuest teamMember.SchemeUser teamMember.SchemeAdmin].
  rewrite Fields_Join_nonSchemeRoles.
  set (tokens := Fields (teamMember.Roles row)).
  set (dg := defaultName _). set (du := defaultName _). set (da := defaultName _).
  destruct (getTeamRoles_flags (flagOf (teamMember.SchemeGuest row))
              (flagOf (teamMember.SchemeUser row))
              (flagOf (teamMember.SchemeAdmin row)) dg du da tokens Hd)
    as (Hg & Hu & Ha).
  pose proof (getTeamRoles_again (flagOf (teamMember.SchemeGuest row))
                (flagOf (teamMember.SchemeUser row))
                (flagOf (teamMember.SchemeAdmin row)) dg du da tokens) as Hagain.
  cbv zeta in Hagain.
  rewrite Hg, Hu, Ha, getTeamRoles_explicitRoles in Hagain.
  rewrite !flagOf_valid, Hagain. reflexivity.
Qed.

(** X5: migrating a migrated row changes nothing. *)
Theorem migrateMember_idempotent (row : teamMember.t) :
  roleIdsDistinct ->
  migrateMember (migrateMember row) = migrateMember row.
Proof.
  intros Hd.
  rewrite (migrateMember_fields (migrateMember row) Hd). cbv zeta.
  rewrite (migrateMember_fields row Hd). cbv zeta.
  cbn [teamMember.TeamId teamMember.UserId teamMember.Roles teamMember.DeleteAt
       teamMember.SchemeGuest teamMember.SchemeUser teamMember.SchemeAdmin].
  rewrite Fields_Join_nonSchemeRoles, nonSchemeRoles_idem.
  destruct isSchemeRole_ids as (Hg & Hu & Ha).
  rewrite !hasRole_nonSchemeRoles by assumption.
  rewrite !flagOf_valid, !orb_false_r. reflexivity.
Qed.

End MigrateThenRead.

(** ** Running a method while no other session writes *)

Lemma issue_alone (st : Statement) (s : SqlStore) :
  noOtherSession s ->
  master (snd (issue st s)) = master s
  /\ replica (snd (issue st s)) = replica s
  /\ DriverName (snd (issue st s)) = DriverName s
  /\ noOtherSession (snd (issue st s))
  /\ (forall f, fst (issue st s) <> Concurrent f).
Proof.
  unfold noOtherSession, issue. intros Hq.
  destruct (script s) as [|ev rest]; simpl.
  - repeat split; try constructor. discriminate.
  - inversion Hq as [|? ? Hev Hrest]; subst.
    repeat split; try exact Hrest.
    intros f ->. exact Hev.
Qed.

Ltac issue_step Hq :=
  match goal with
  | |- context [issue ?st ?s] =>
      let Hi := fresh "Hi" in
      let ev := fresh "ev" in
      let s1 := fresh "s" in
      let Hm := fresh "Hm" in
      let Hr := fresh "Hr" in
      let Hd := fresh "Hd" in
      let Hq1 := fresh "Hq" in
      let Hev := fresh "Hev" in
      pose proof (issue_alone st s Hq) as Hi;
      destruct (issue st s) as [ev s1];
      simpl in Hi; destruct Hi as (Hm & Hr & Hd & Hq1 & Hev);
      destruct ev as [| ? | ?];
      [ | | exfalso; eapply Hev; reflexivity ]
  end.

(** ** [SaveMultipleMembers]: all or nothing *)

Section SaveAllOrNothing.
Context `{M : ModelPkg}.

Lemma insertMembers_result (d : Driver) (rows : list teamMember.t) (db : DB) :
  (snd (fst (SqlTeamStore.insertMembers d rows db)) = None
   /\ snd (SqlTeamStore.insertMembers d rows db)
      = withTeamMembers db (TeamMembers db ++ rows)%list
   /\ SqlTeamStore.firstDuplicate (TeamMembers db) rows = None)
  \/ (snd (fst (SqlTeamStore.insertMembers d rows db)) <> None
      /\ snd (SqlTeamStore.insertMembers d rows db) = db).
Proof.
  unfold SqlTeamStore.insertMembers.
  destruct (SqlTeamStore.firstDuplicate (TeamMembers db) rows); simpl.
  - right. split; [discriminate | reflexivity].
  - left. repeat split.
Qed.

(** What a run of [SaveMultipleMembers] amounts to while no other session
    writes. *)
Lemma SaveMultipleMembers_alone (s : SqlStore)
    (members : list TeamMember.t) (maxUsersPerTeam : Z) :
  noOtherSession s ->
  let r := SqlTeamStore.SaveMultipleMembers members maxUsersPerTeam s in
  match fst (fst r) with
  | Some out =>
      snd (fst r) = None
      /\ (exists newTeamMembers,
            SqlTeamStore.countNewMembers members
              (fold_left (fun m member => <[TeamMember.TeamId member := 0]> m)
                         members ∅)
            = inl newTeamMembers
            /\ out
               = map (SqlTeamStore.resolveMember
                        (SqlTeamStore.byTeam
                           (SqlTeamStore.selectDefaultTeamRoles
                              (map_to_list newTeamMembers).*1 (master s))))
                     members)
      /\ master (snd r)
         = withTeamMembers (master s)
             (TeamMembers (master s)
              ++ map SqlTeamStore.teamMemberToSlice members)%list
      /\ SqlTeamStore.firstDuplicate (TeamMembers (master s))
           (map SqlTeamStore.teamMemberToSlice members) = None
  | None => master (snd r) = master s
  end.
Proof.
  intros Hq r. subst r.
  unfold SqlTeamStore.SaveMultipleMembers, SqlTeamStore.checkCapacity.
  destruct (SqlTeamStore.countNewMembers _ _) as [ntm|e] eqn:Hcount; [|reflexivity].
  conn_unfold.
  issue_step Hq; simpl; [|exact Hm].
  assert (Hq1 : noOtherSession (withMaster s0 (master s0))) by exact Hq0.
  assert (Hinsert : forall (s1 : SqlStore),
    noOtherSession s1 -> master s1 = master s ->
    forall defaults (k : option (list TeamMember.t) * option error * SqlStore),
    k = (let '(a, s3) :=
           (let '(ev, s3) :=
              issue {| verb := INSERT; table := "TeamMembers";
                       keys := (map_to_list ntm).*1 |} s1 in
            match ev with
            | Proceed =>
                let '(a, err, db) :=
                  SqlTeamStore.insertMembers (DriverName s)
                    (map SqlTeamStore.teamMemberToSlice members) (master s3) in
                ((a, err), withMaster s3 db)
            | Fails e => ((tt, Some e), s3)
            | Concurrent f =>
                let '(a, err, db) :=
                  SqlTeamStore.insertMembers (DriverName s)
                    (map SqlTeamStore.teamMemberToSlice members) (f (master s3)) in
                ((a, err), withMaster s3 db)
            end) in
         (let '(_, err) := a in
          match err with
          | Some _ => fun s4 : SqlStore => ((None, err), s4)
          | None =>
              fun s4 : SqlStore =>
                ((Some (map (SqlTeamStore.resolveMember defaults) members), None), s4)
          end) s3) ->
    match fst (fst k) with
    | Some out =>
        snd (fst k) = None
        /\ out = map (SqlTeamStore.resolveMember defaults) members
        /\ master (snd k)
           = withTeamMembers (master s)
               (TeamMembers (master s)
                ++ map SqlTeamStore.teamMemberToSlice members)%list
        /\ SqlTeamStore.firstDuplicate (TeamMembers (master s))
             (map SqlTeamStore.teamMemberToSlice members) = None
    | None => master (snd k) = master s
    end).
  { intros s1 Hq' Hm' defaults k ->.
    issue_step Hq'; [|simpl; congruence].
    rewrite Hm0, Hm'.
    destruct (insertMembers_result (DriverName s)
                (map SqlTeamStore.teamMemberToSlice members) (master s))
      as [(He & Hdb & Hdup)|(He & Hdb)];
      destruct (SqlTeamStore.insertMembers _ _ _) as [[u err] db]; simpl in *.
    - subst err db. simpl. repeat split. exact Hdup.
    - destruct err; [simpl; congruence | contradiction]. }
  assert (Hwrap : forall (k : option (list TeamMember.t) * option error * SqlStore),
    match fst (fst k) with
    | Some out =>
        snd (fst k) = None
        /\ out = map (SqlTeamStore.resolveMember
                        (SqlTeamStore.byTeam
                           (SqlTeamStore.selectDefaultTeamRoles
                              (map_to_list ntm).*1 (master s)))) members
        /\ master (snd k)
           = withTeamMembers (master s)
               (TeamMembers (master s)
                ++ map SqlTeamStore.teamMemberToSlice members)%list
        /\ SqlTeamStore.firstDuplicate (TeamMembers (master s))
             (map SqlTeamStore.teamMemberToSlice members) = None
    | None => master (snd k) = master s
    end ->
    match fst (fst k) with
    | Some out =>
        snd (fst k) = None
        /\ (exists newTeamMembers,
              (inl ntm : gmap string Z + error) = inl newTeamMembers
              /\ out
                 = map (SqlTeamStore.resolveMember
                          (SqlTeamStore.byTeam
                             (SqlTeamStore.selectDefaultTeamRoles
                                (map_to_list newTeamMembers).*1 (master s))))
                       members)
        /\ master (snd k)
           = withTeamMembers (master s)
               (TeamMembers (master s)
                ++ map SqlTeamStore.teamMemberToSlice members)%list
        /\ SqlTeamStore.firstDuplicate (TeamMembers (master s))
             (map SqlTeamStore.teamMemberToSlice members) = None
    | None => master (snd k) = master s
    end).
  { intros k. destruct (fst (fst k)); [|auto].
    intros (H1 & H2 & H3 & H4). repeat split; try assumption.
    exists ntm. split; [reflexivity | exact H2]. }
  rewrite Hm.
  destruct (maxUsersPerTeam >=? 0).
  - issue_step Hq1; simpl; [|congruence].
    destruct (existsb _ _); simpl; [congruence|].
    destruct members as [|member rest]; [simpl; congruence|].
    apply Hwrap. eapply Hinsert; [| |reflexivity].
    + exact Hq2.
    + simpl. congruence.
  - simpl.
    destruct members as [|member rest]; [simpl; congruence|].
    apply Hwrap. eapply Hinsert; [| |reflexivity].
    + exact Hq1.
    + simpl. congruence.
Qed.

(** X6: while no other session writes, [SaveMultipleMembers] is all or
    nothing: either it returns as many members as it was given, with a nil
    error, and the master's table has grown by exactly the rows of the
    batch, in order, none of them taking a key that was there; or it returns
    no members and the master's tables are as they were. *)
Theorem SaveMultipleMembers_all_or_nothing (s : SqlStore)
    (members : list TeamMember.t) (maxUsersPerTeam : Z) :
  noOtherSession s ->
  let r := SqlTeamStore.SaveMultipleMembers members maxUsersPerTeam s in
  match fst (fst r) with
  | Some out =>
      snd (fst r) = None
      /\ length out = length members
      /\ master (snd r)
         = withTeamMembers (master s)
             (TeamMembers (master s)
              ++ map SqlTeamStore.teamMemberToSlice members)%list
      /\ SqlTeamStore.firstDuplicate (TeamMembers (master s))
           (map SqlTeamStore.teamMemberToSlice members) = None
  | None => master (snd r) = master s
  end.
Proof.
  intros Hq r. subst r.
  pose proof (SaveMultipleMembers_alone s members maxUsersPerTeam Hq) as H.
  cbv zeta in H.
  destruct (fst (fst (SqlTeamStore.SaveMultipleMembers members maxUsersPerTeam s)));
    [|exact H].
  destruct H as (H1 & (ntm & _ & ->) & H3 & H4).
  rewrite length_map. repeat split; assumption.
Qed.

End SaveAllOrNothing.

(** ** What is saved is what is read *)

Section SaveThenRead.
Context `{M : ModelPkg}.

Lemma sameKey_sym (a b : teamMember.t) : sameKey a b = sameKey b a.
Proof.
  unfold sameKey.
  rewrite (String.eqb_sym (teamMember.TeamId a)),
          (String.eqb_sym (teamMember.UserId a)).
  reflexivity.
Qed.

Lemma sameKey_refl (a : teamMember.t) : sameKey a a = true.
Proof. unfold sameKey. rewrite !String.eqb_refl. reflexivity. Qed.

Lemma filter_nil_existsb {A} (p : A -> bool) (l : list A) :
  existsb p l = false -> List.filter p l = [].
Proof.
  induction l as [|a l IH]; [reflexivity|]. simpl.
  destruct (p a); simpl; [discriminate|exact IH].
Qed.

(** A bulk insert that meets no duplicate leaves exactly one row under the
    key of each of its rows. *)
Lemma firstDuplicate_None_unique (rows taken : list teamMember.t) :
  SqlTeamStore.firstDuplicate taken rows = None ->
  forall x, In x rows ->
    List.filter (fun row => sameKey row x) (taken ++ rows) = [x].
Proof.
  revert taken. induction rows as [|y rows IH]; intros taken Hnone x Hin.
  - destruct Hin.
  - simpl in Hnone.
    destruct (existsb (sameKey y) taken) eqn:Htaken; [discriminate|].
    specialize (IH (y :: taken) Hnone).
    rewrite List.filter_app. simpl.
    destruct Hin as [<-|Hin].
    + rewrite sameKey_refl.
      rewrite (filter_nil_existsb (fun row => sameKey row y) taken).
      2:{ rewrite <- Htaken. clear. induction taken as [|a l IH]; [reflexivity|].
          simpl. rewrite IH, (sameKey_sym a y). reflexivity. }
      simpl. f_equal.
      destruct (List.filter (fun row => sameKey row y) rows) as [|z l] eqn:Hf;
        [reflexivity|].
      assert (Hz : In z (List.filter (fun row => sameKey row y) rows))
        by (rewrite Hf; left; reflexivity).
      apply filter_In in Hz as [Hz Hzy].
      specialize (IH z Hz). simpl in IH.
      rewrite sameKey_sym, Hzy, List.filter_app in IH.
      injection IH as _ IH.
      apply app_eq_nil in IH as [_ IH].
      assert (Hzz : In z (List.filter (fun row => sameKey row z) rows))
        by (apply filter_In; split; [exact Hz | apply sameKey_refl]).
      rewrite IH in Hzz. destruct Hzz.
    + specialize (IH x Hin). simpl in IH.
      rewrite List.filter_app in IH.
      destruct (sameKey y x).
      * injection IH as -> IH.
        apply app_eq_nil in IH as [-> ->]. reflexivity.
      * exact IH.
Qed.

Lemma byTeam_fold_lookup (l : list defaultTeamRoles.t)
    (acc : gmap string defaultTeamRoles.t) (t : string)
    (r0 : defaultTeamRoles.t) :
  (forall r, In r l -> defaultTeamRoles.Id r = t -> r = r0) ->
  fold_left (fun m defaultRoles =>
               <[defaultTeamRoles.Id defaultRoles := defaultRoles]> m) l acc !! t
  = if existsb (fun r => String.eqb (defaultTeamRoles.Id r) t) l
    then Some r0 else acc !! t.
Proof.
  revert acc. induction l as [|r l IH]; intros acc Hl; [reflexivity|].
  simpl. rewrite IH by (intros r' Hr'; apply Hl; right; exact Hr').
  destruct (String.eqb (defaultTeamRoles.Id r) t) eqn:E; simpl.
  - apply String.eqb_eq in E.
    pose proof (Hl r (or_introl eq_refl) E) as Hr. subst r0 t.
    rewrite lookup_insert_eq.
    destruct (existsb _ l); reflexivity.
  - apply String.eqb_neq in E. rewrite lookup_insert_ne by exact E.
    reflexivity.
Qed.

Lemma String_nullString (o : option string) :
  String_ (nullString o) = defaultName o.
Proof. destruct o; reflexivity. Qed.

(** The defaults that the bulk methods look up for a team of the batch are
    the defaults that the join of the read query brings along. *)
Lemma defaults_of_team (teams : list string) (db : DB) (t : string) :
  In t teams ->
  let d := default defaultTeamRoles.zero
             (SqlTeamStore.byTeam (SqlTeamStore.selectDefaultTeamRoles teams db) !! t) in
  String_ (defaultTeamRoles.Guest d)
  = defaultName (Scheme.DefaultTeamGuestRole <$> schemeOf db t)
  /\ String_ (defaultTeamRoles.User d)
     = defaultName (Scheme.DefaultTeamUserRole <$> schemeOf db t)
  /\ String_ (defaultTeamRoles.Admin d)
     = defaultName (Scheme.DefaultTeamAdminRole <$> schemeOf db t).
Proof.
  intros Ht d. subst d. unfold SqlTeamStore.byTeam.
  set (row0 :=
    {| defaultTeamRoles.Id := t;
       defaultTeamRoles.Guest :=
         nullString (Scheme.DefaultTeamGuestRole <$> schemeOf db t);
       defaultTeamRoles.User :=
         nullString (Scheme.DefaultTeamUserRole <$> schemeOf db t);
       defaultTeamRoles.Admin :=
         nullString (Scheme.DefaultTeamAdminRole <$> schemeOf db t) |}).
  assert (Hin : existsb (String.eqb t) teams = true).
  { apply existsb_exists. exists t. split; [exact Ht | apply String.eqb_refl]. }
  rewrite (byTeam_fold_lookup _ ∅ t row0).
  2:{ intros r Hr Hid.
      apply list_elem_of_In, list_elem_of_omap in Hr as ([id team] & Hrow & Hr).
      apply elem_of_map_to_list in Hrow.
      destruct (existsb (String.eqb id) teams); [|discriminate].
      injection Hr as <-. simpl in Hid. subst id.
      unfold row0, schemeOf. rewrite Hrow. reflexivity. }
  destruct (existsb _ (SqlTeamStore.selectDefaultTeamRoles teams db)) eqn:E.
  - unfold row0. repeat split; apply String_nullString.
  - rewrite lookup_empty. cbn [from_option defaultTeamRoles.zero
      defaultTeamRoles.Guest defaultTeamRoles.User defaultTeamRoles.Admin].
    destruct (Teams db !! t) as [team|] eqn:Hteam.
    + exfalso.
      assert (Hex : existsb (fun r => String.eqb (defaultTeamRoles.Id r) t)
                      (SqlTeamStore.selectDefaultTeamRoles teams db) = true).
      { apply existsb_exists. exists row0. split; [|apply String.eqb_refl].
        apply list_elem_of_In, list_elem_of_omap. exists (t, team). split.
        - apply elem_of_map_to_list. exact Hteam.
        - rewrite Hin. unfold row0, schemeOf. rewrite Hteam. reflexivity. }
      congruence.
    + unfold schemeOf. rewrite Hteam. auto.
Qed.

Lemma resolveMember_as_read (teams : list string) (db : DB)
    (member : TeamMember.t) :
  In (TeamMember.TeamId member) teams ->
  SqlTeamStore.resolveMember
    (SqlTeamStore.byTeam (SqlTeamStore.selectDefaultTeamRoles teams db)) member
  = ToModel (SqlTeamStore.withSchemeRoles db
               (SqlTeamStore.teamMemberToSlice member)).
Proof.
  intros Ht. rewrite ToModel_withSchemeRoles.
  destruct (defaults_of_team teams db (TeamMember.TeamId member) Ht)
    as (Hg & Hu & Ha).
  unfold SqlTeamStore.resolveMember. cbv zeta in *.
  rewrite Hg, Hu, Ha. reflexivity.
Qed.

Lemma countNewMembers_keys (members : list TeamMember.t)
    (m newTeamMembers : gmap string Z) :
  SqlTeamStore.countNewMembers members m = inl newTeamMembers ->
  (forall k, is_Some (m !! k) -> is_Some (newTeamMembers !! k))
  /\ (forall member, In member members ->
        is_Some (newTeamMembers !! TeamMember.TeamId member)).
Proof.
  revert m. induction members as [|member rest IH]; intros m Hc; simpl in Hc.
  - injection Hc as <-. split; [auto | intros ? []].
  - destruct (TeamMember_IsValid member); [discriminate|].
    apply IH in Hc as [Hkeep Hrest]. split.
    + intros k Hk. apply Hkeep.
      destruct (decide (TeamMember.TeamId member = k)) as [->|Hne].
      * rewrite lookup_insert_eq. eauto.
      * rewrite lookup_insert_ne by exact Hne. exact Hk.
    + intros member' [<-|Hin]; [|auto].
      apply Hkeep. rewrite lookup_insert_eq. eauto.
Qed.

Lemma Forall2_map_r_In {A B} (P : A -> B -> Prop) (f : A -> B) (l : list A) :
  (forall x, In x l -> P x (f x)) -> Forall2 P l (map f l).
Proof.
  induction l as [|a l IH]; intros H; simpl; constructor.
  - apply H. left. reflexivity.
  - apply IH. intros x Hx. apply H. right. exact Hx.
Qed.

Lemma withSchemeRoles_tables (db db' : DB) (row : teamMember.t) :
  Teams db' = Teams db -> Schemes db' = Schemes db ->
  SqlTeamStore.withSchemeRoles db' row = SqlTeamStore.withSchemeRoles db row.
Proof. intros Ht Hs. unfold SqlTeamStore.withSchemeRoles. rewrite Ht, Hs. reflexivity. Qed.

(** X7: every member that [SaveMultipleMembers] returns is the member that
    [GetMember] reads under its key once the replica has caught up (no other
    session writing in between): the roles resolved by the bulk method from
    its own defaults query agree with those resolved from the join of the
    read query, and the key finds one row only. *)
Theorem SaveMultipleMembers_then_GetMember (s : SqlStore)
    (members out : list TeamMember.t) (maxUsersPerTeam : Z) :
  noOtherSession s ->
  fst (fst (SqlTeamStore.SaveMultipleMembers members maxUsersPerTeam s)) = Some out ->
  Forall2
    (fun member saved =>
       fst (SqlTeamStore.GetMember (TeamMember.TeamId member)
              (TeamMember.UserId member)
              (caughtUp (snd (SqlTeamStore.SaveMultipleMembers
                                members maxUsersPerTeam s))))
       = (Some saved, None))
    members out.
Proof.
  intros Hq Hout.
  pose proof (SaveMultipleMembers_alone s members maxUsersPerTeam Hq) as H.
  cbv zeta in H. rewrite Hout in H.
  destruct H as (_ & (ntm & Hcount & ->) & Hmaster & Hdup).
  apply Forall2_map_r_In. intros member Hin.
  assert (Hteam : In (TeamMember.TeamId member) (map_to_list ntm).*1).
  { apply countNewMembers_keys in Hcount as [_ Hkeys].
    destruct (Hkeys member Hin) as [n Hn].
    apply list_elem_of_In, list_elem_of_fmap.
    exists (TeamMember.TeamId member, n). split; [reflexivity|].
    apply elem_of_map_to_list. exact Hn. }
  rewrite (resolveMember_as_read _ _ _ Hteam).
  unfold SqlTeamStore.GetMember. conn_unfold.
  rewrite issue_quiet by reflexivity.
  cbn [replica logged caughtUp].
  rewrite Hmaster. unfold SqlTeamStore.selectWithSchemeRoles.
  cbn [TeamMembers withTeamMembers].
  pose proof (firstDuplicate_None_unique _ _ Hdup
                (SqlTeamStore.teamMemberToSlice member)
                (in_map _ _ _ Hin)) as Hone.
  unfold sameKey in Hone. cbn [teamMember.TeamId teamMember.UserId
                                 SqlTeamStore.teamMemberToSlice] in Hone.
  rewrite Hone. simpl.
  rewrite (withSchemeRoles_tables (master s)) by reflexivity.
  reflexivity.
Qed.

End SaveThenRead.

(** ** The single-member methods *)

Section SingleMember.
Context `{M : ModelPkg}.

Lemma existingMembers_one (db : DB) (teamId : string) :
  SqlTeamStore.existingMembers (SqlTeamStore.selectMemberCounts [teamId] db) teamId
  = activeMembers db teamId.
Proof.
  unfold SqlTeamStore.selectMemberCounts, activeMembers,
    SqlTeamStore.existingMembers. simpl.
  destruct (len _ =? 0) eqn:E; simpl.
  - apply Z.eqb_eq in E. symmetry. exact E.
  - rewrite String.eqb_refl. reflexivity.
Qed.

Lemma countNewMembers_one (member : TeamMember.t) :
  TeamMember_IsValid member = None ->
  SqlTeamStore.countNewMembers [member]
    (fold_left (fun m member => <[TeamMember.TeamId member := 0]> m) [member] ∅)
  = inl {[ TeamMember.TeamId member := 1 ]}.
Proof.
  intros Hvalid. simpl. rewrite Hvalid, lookup_insert_eq. simpl.
  rewrite insert_insert_eq. reflexivity.
Qed.

(** X8: [SaveMember] on a team that is full panics: for a valid member and
    a team whose active members leave no room under a non-negative
    [maxUsersPerTeam], the bulk method returns neither members nor an error,
    and [SaveMember] indexes the nil slice.  Nothing has been inserted. *)
Theorem SaveMember_full_team_panics (s : SqlStore) (member : TeamMember.t)
    (maxUsersPerTeam : Z) :
  script s = [] ->
  TeamMember_IsValid member = None ->
  0 <= maxUsersPerTeam ->
  int_add (activeMembers (master s) (TeamMember.TeamId member)) 1
  > maxUsersPerTeam ->
  fst (SqlTeamStore.SaveMember member maxUsersPerTeam s)
  = panics "runtime error: index out of range [0] with length 0"
  /\ master (snd (SqlTeamStore.SaveMember member maxUsersPerTeam s)) = master s.
Proof.
  intros Hq Hvalid Hmax Hover.
  unfold SqlTeamStore.SaveMember, SqlTeamStore.SaveMultipleMembers,
    SqlTeamStore.checkCapacity.
  rewrite (countNewMembers_one member Hvalid), map_to_list_singleton.
  conn_unfold.
  rewrite (issue_quiet _ _ Hq).
  assert (Hge : (maxUsersPerTeam >=? 0) = true) by (apply Z.geb_le; lia).
  rewrite Hge. cbn -[SqlTeamStore.selectDefaultTeamRoles SqlTeamStore.selectMemberCounts
                     SqlTeamStore.existingMembers int_add].
  rewrite existingMembers_one.
  assert (Hgt : (int_add (activeMembers (master s) (TeamMember.TeamId member)) 1
                 >? maxUsersPerTeam) = true) by (apply Z.gtb_lt; lia).
  rewrite Hgt. simpl. split; [reflexivity|]. destruct s; reflexivity.
Qed.

Lemma updateEach_members_or_error (members : list TeamMember.t) :
  forall (done : list TeamMember.t) (teams : list string) (s : SqlStore),
  match fst (SqlTeamStore.updateEach members done teams s) with
  | (Some (ms, _), None) => ms = (done ++ map TeamMember_PreUpdate members)%list
  | (None, Some _) => True
  | _ => False
  end.
Proof.
  induction members as [|member rest IH]; intros done teams s; simpl.
  - rewrite app_nil_r. reflexivity.
  - destruct (TeamMember_IsValid (TeamMember_PreUpdate member)); [exact I|].
    conn_unfold.
    destruct (issue _ s) as [ev s1].
    destruct ev as [|e|f]; simpl; try exact I.
    + match goal with
      | |- context [SqlTeamStore.updateEach rest ?d ?t ?st] =>
          specialize (IH d t st);
          destruct (SqlTeamStore.updateEach rest d t st) as [[[[ms ts]|] [err|]] s2]
      end; simpl in *; try exact IH.
      rewrite IH. unfold append. rewrite <- app_assoc. reflexivity.
    + match goal with
      | |- context [SqlTeamStore.updateEach rest ?d ?t ?st] =>
          specialize (IH d t st);
          destruct (SqlTeamStore.updateEach rest d t st) as [[[[ms ts]|] [err|]] s2]
      end; simpl in *; try exact IH.
      rewrite IH. unfold append. rewrite <- app_assoc. reflexivity.
Qed.

Lemma UpdateMultipleMembers_members_or_error (members : list TeamMember.t)
    (s : SqlStore) :
  match fst (SqlTeamStore.UpdateMultipleMembers members s) with
  | (Some out, None) => length out = length members
  | (None, Some _) => True
  | _ => False
  end.
Proof.
  unfold SqlTeamStore.UpdateMultipleMembers. conn_unfold.
  pose proof (updateEach_members_or_error members [] [] s) as Hloop.
  destruct (SqlTeamStore.updateEach members [] [] s) as [[[[ms ts]|] [err|]] s1];
    simpl in *; try contradiction; try exact I.
  subst ms.
  destruct (issue _ s1) as [ev s2].
  destruct ev as [|e|f]; simpl; try exact I; rewrite !length_map; reflexivity.
Qed.

(** X9: [UpdateMultipleMembers] returns either an error and no members, or
    no error and as many members as it was given; so [UpdateMember], which
    takes the first of them, returns on every run. *)
Theorem UpdateMember_returns (s : SqlStore) :
  (forall members,
     match fst (SqlTeamStore.UpdateMultipleMembers members s) with
     | (Some out, None) => length out = length members
     | (None, Some _) => True
     | _ => False
     end)
  /\ (forall member,
        exists r, fst (SqlTeamStore.UpdateMember member s) = returns r
                  /\ (fst r = None <-> snd r <> None)).
Proof.
  split; [intros members; apply UpdateMultipleMembers_members_or_error|].
  intros member.
  pose proof (UpdateMultipleMembers_members_or_error [member] s) as H.
  unfold SqlTeamStore.UpdateMember. conn_unfold.
  destruct (SqlTeamStore.UpdateMultipleMembers [member] s)
    as [[[out|] [err|]] s1]; simpl in *; try contradiction.
  - destruct out as [|first out]; [discriminate|].
    eexists. split; [reflexivity|]. simpl. split; [discriminate | congruence].
  - eexists. split; [reflexivity|]. simpl. split; [discriminate | reflexivity].
Qed.

Lemma updateEach_quiet (members : list TeamMember.t) :
  forall (done : list TeamMember.t) (teams : list string) (s : SqlStore),
  script s = [] ->
  Forall (fun member => TeamMember_IsValid (TeamMember_PreUpdate member) = None)
         members ->
  fst (SqlTeamStore.updateEach members done teams s)
  = (Some ((done ++ map TeamMember_PreUpdate members)%list,
           (teams ++ map (fun member => TeamMember.TeamId (TeamMember_PreUpdate member))
                         members)%list), None)
  /\ master (snd (SqlTeamStore.updateEach members done teams s))
     = applyUpdates members (master s)
  /\ script (snd (SqlTeamStore.updateEach members done teams s)) = [].
Proof.
  induction members as [|member rest IH]; intros done teams s Hq Hvalid; simpl.
  - rewrite !app_nil_r. auto.
  - inversion Hvalid as [|? ? Hv Hrest]; subst. rewrite Hv.
    conn_unfold. rewrite (issue_quiet _ _ Hq). simpl.
    match goal with
    | |- context [SqlTeamStore.updateEach rest ?d ?t ?st] =>
        destruct (IH d t st eq_refl Hrest) as (Hres & Hm & Hs);
        destruct (SqlTeamStore.updateEach rest d t st) as [[r err] s2]
    end.
    simpl in *. injection Hres as -> ->.
    unfold append. rewrite <- !app_assoc. simpl. auto.
Qed.

Lemma updateEach_stops (good : list TeamMember.t) (bad : TeamMember.t)
    (rest : list TeamMember.t) (e : error) :
  forall (done : list TeamMember.t) (teams : list string) (s : SqlStore),
  script s = [] ->
  Forall (fun member => TeamMember_IsValid (TeamMember_PreUpdate member) = None)
         good ->
  TeamMember_IsValid (TeamMember_PreUpdate bad) = Some e ->
  fst (SqlTeamStore.updateEach (good ++ bad :: rest) done teams s) = (None, Some e)
  /\ master (snd (SqlTeamStore.updateEach (good ++ bad :: rest) done teams s))
     = applyUpdates good (master s).
Proof.
  induction good as [|member good IH]; intros done teams s Hq Hvalid Hbad; simpl.
  - rewrite Hbad. auto.
  - inversion Hvalid as [|? ? Hv Hgood]; subst. rewrite Hv.
    conn_unfold. rewrite (issue_quiet _ _ Hq). simpl.
    match goal with
    | |- context [SqlTeamStore.updateEach _ ?d ?t ?st] =>
        destruct (IH d t st eq_refl Hgood Hbad) as (Hres & Hm);
        destruct (SqlTeamStore.updateEach _ d t st) as [[r err] s2]
    end.
    simpl in *. injection Hres as -> ->. auto.
Qed.

(** X10: [UpdateMultipleMembers] is not all or nothing: when a member of
    the batch is invalid, the method returns that member's validation error,
    and the rows of the members before it stay updated. *)
Theorem UpdateMultipleMembers_keeps_earlier_updates (s : SqlStore)
    (good : list TeamMember.t) (bad : TeamMember.t) (rest : list TeamMember.t)
    (e : error) :
  script s = [] ->
  Forall (fun member => TeamMember_IsValid (TeamMember_PreUpdate member) = None)
         good ->
  TeamMember_IsValid (TeamMember_PreUpdate bad) = Some e ->
  fst (SqlTeamStore.UpdateMultipleMembers (good ++ bad :: rest) s) = (None, Some e)
  /\ master (snd (SqlTeamStore.UpdateMultipleMembers (good ++ bad :: rest) s))
     = applyUpdates good (master s).
Proof.
  intros Hq Hvalid Hbad.
  destruct (updateEach_stops good bad rest e [] [] s Hq Hvalid Hbad) as (Hres & Hm).
  unfold SqlTeamStore.UpdateMultipleMembers. conn_unfold.
  destruct (SqlTeamStore.updateEach _ [] [] s) as [[r err] s1].
  simpl in *. injection Hres as -> ->. auto.
Qed.

Lemma withTeamMembers_same (db : DB) : withTeamMembers db (TeamMembers db) = db.
Proof. destruct db; reflexivity. Qed.

Lemma updateMemberRow_missing (row : teamMember.t) (db : DB) :
  hasRow db (teamMember.TeamId row) (teamMember.UserId row) = false ->
  SqlTeamStore.updateMemberRow row db = (0, None, db).
Proof.
  unfold hasRow, SqlTeamStore.updateMemberRow. intros Hno.
  assert (Hkeys : forall old, In old (TeamMembers db) -> sameKey row old = false).
  { intros old Hin. destruct (sameKey row old) eqn:E; [|reflexivity].
    rewrite <- Hno. symmetry. apply existsb_exists. exists old.
    split; [exact Hin|]. rewrite sameKey_sym in E. exact E. }
  assert (Hf : List.filter (sameKey row) (TeamMembers db) = []).
  { apply filter_nil_existsb.
    destruct (existsb (sameKey row) (TeamMembers db)) eqn:E; [|reflexivity].
    apply existsb_exists in E as (old & Hin & Hold).
    rewrite (Hkeys old Hin) in Hold. discriminate. }
  assert (Hm : map (fun old => if sameKey row old then row else old) (TeamMembers db)
               = TeamMembers db).
  { rewrite <- (map_id (TeamMembers db)) at 2.
    apply map_ext_in. intros old Hin. rewrite (Hkeys old Hin). reflexivity. }
  rewrite Hf, Hm, withTeamMembers_same. reflexivity.
Qed.

(** X11: updating a member who has no row reports success: gorp's count of
    matched rows is dropped, so for a valid member without a membership row
    [UpdateMember] returns the member, resolved as if it had been written,
    with a nil error, and the tables are as they were. *)
Theorem UpdateMember_missing_row (s : SqlStore) (member : TeamMember.t) :
  script s = [] ->
  TeamMember_IsValid (TeamMember_PreUpdate member) = None ->
  hasRow (master s) (TeamMember.TeamId (TeamMember_PreUpdate member))
         (TeamMember.UserId (TeamMember_PreUpdate member)) = false ->
  fst (SqlTeamStore.UpdateMember member s)
  = returns
      (Some (SqlTeamStore.resolveMember
               (SqlTeamStore.byTeam
                  (SqlTeamStore.selectDefaultTeamRoles
                     [TeamMember.TeamId (TeamMember_PreUpdate member)] (master s)))
               (TeamMember_PreUpdate member)),
       None)
  /\ master (snd (SqlTeamStore.UpdateMember member s)) = master s.
Proof.
  intros Hq Hvalid Hno.
  unfold SqlTeamStore.UpdateMember, SqlTeamStore.UpdateMultipleMembers.
  cbn [SqlTeamStore.updateEach]. rewrite Hvalid.
  conn_unfold. rewrite (issue_quiet _ _ Hq).
  cbn [master logged].
  rewrite (updateMemberRow_missing
             (NewTeamMemberFromModel (TeamMember_PreUpdate member)) (master s) Hno).
  cbn -[SqlTeamStore.selectDefaultTeamRoles SqlTeamStore.byTeam
        SqlTeamStore.resolveMember].
  split; [reflexivity|]. reflexivity.
Qed.

(** X12: a member saved with [SaveMember] and removed with [RemoveMember]
    leaves the tables as they were before the save. *)
Theorem SaveMember_then_RemoveMember (s : SqlStore) (member saved : TeamMember.t)
    (maxUsersPerTeam : Z) :
  noOtherSession s ->
  fst (SqlTeamStore.SaveMember member maxUsersPerTeam s)
  = returns (Some saved, None) ->
  let s1 := caughtUp (snd (SqlTeamStore.SaveMember member maxUsersPerTeam s)) in
  fst (SqlTeamStore.RemoveMember (TeamMember.TeamId member)
         (TeamMember.UserId member) s1) = None
  /\ master (snd (SqlTeamStore.RemoveMember (TeamMember.TeamId member)
                    (TeamMember.UserId member) s1))
     = master s.
Proof.
  intros Hq Hsaved s1. subst s1.
  pose proof (SaveMultipleMembers_alone s [member] maxUsersPerTeam Hq) as H.
  cbv zeta in H.
  unfold SqlTeamStore.SaveMember in *. conn_unfold.
  destruct (SqlTeamStore.SaveMultipleMembers [member] maxUsersPerTeam s)
    as [[out err] s1].
  simpl in H.
  destruct err as [e|]; [discriminate|].
  destruct out as [[|first out]|]; try discriminate.
  destruct H as (_ & _ & Hmaster & Hdup).
  simpl in Hdup.
  destruct (existsb _ (TeamMembers (master s))) eqn:Htaken; [discriminate|].
  unfold SqlTeamStore.RemoveMember, SqlTeamStore.RemoveMembers, execDelete.
  conn_unfold. cbn [caughtUp script master fst snd].
  split; [reflexivity|].
  rewrite Hmaster. cbn [TeamMembers withTeamMembers map].
  rewrite List.filter_app. cbn [List.filter SqlTeamStore.teamMemberToSlice
    teamMember.TeamId teamMember.UserId existsb].
  rewrite !String.eqb_refl. cbn [andb orb negb].
  rewrite app_nil_r.
  assert (Hkeep : List.filter
            (fun row =>
               negb (String.eqb (teamMember.TeamId row) (TeamMember.TeamId member)
                     && (String.eqb (teamMember.UserId row) (TeamMember.UserId member)
                         || false)))
            (TeamMembers (master s)) = TeamMembers (master s)).
  { clear -Htaken. induction (TeamMembers (master s)) as [|row l IH]; [reflexivity|].
    simpl in *. apply orb_false_iff in Htaken as [Hrow Hl].
    unfold sameKey in Hrow. simpl in Hrow.
    rewrite (String.eqb_sym (teamMember.TeamId row)),
            (String.eqb_sym (teamMember.UserId row)), orb_false_r, Hrow.
    simpl. f_equal. apply IH, Hl. }
  rewrite Hkeep. destruct (master s); reflexivity.
Qed.

(** X13: whatever the collation finds, [GetByInviteId] hands out a team only
    for the exact, non-empty invite id: a team that it returns comes with a
    nil error and carries the invite id asked for, which is not empty. *)
Theorem GetByInviteId_exact (s : SqlStore) (inviteId : string) (team : Team.t) :
  fst (fst (SqlTeamStore.GetByInviteId inviteId s)) = Some team ->
  snd (fst (SqlTeamStore.GetByInviteId inviteId s)) = None
  /\ Team.InviteId team = inviteId
  /\ inviteId <> EmptyString.
Proof.
  unfold SqlTeamStore.GetByInviteId. conn_unfold.
  destruct (issue _ s) as [ev s1].
  destruct ev as [|e|f]; simpl; try discriminate;
    destruct (selectOne _) as [[row|] [err|]]; simpl; try discriminate.
  all: destruct (String.length inviteId =? 0)%nat eqn:Hlen; simpl;
    try discriminate.
  all: destruct (String.eqb (Team.InviteId row) inviteId) eqn:Heq; simpl;
    try discriminate.
  all: intros [= <-]; apply String.eqb_eq in Heq; repeat split; try exact Heq.
  all: intros ->; discriminate.
Qed.

End SingleMember.

(** ** What the migration leaves behind *)

Section MigrationResult.
Context `{M : ModelPkg}.

Lemma migrateEach_alone (batch : list teamMember.t) : forall tx s,
  noOtherSession s ->
  let r := SqlTeamStore.migrateEach batch tx s in
  master (snd r) = master s
  /\ noOtherSession (snd r)
  /\ (fst (fst r) = None -> snd (fst r) = applyMigration batch tx).
Proof.
  induction batch as [|member batch IH]; intros tx s Hq; simpl.
  - auto.
  - conn_unfold. issue_step Hq; simpl.
    + destruct (IH (withTeamMembers tx
                      (map (fun old => if sameKey (migrateMember member) old
                                       then migrateMember member else old)
                           (TeamMembers tx))) s0 Hq0) as (Hm' & Hq' & Hres).
      cbv zeta in *.
      destruct (SqlTeamStore.migrateEach batch _ s0) as [[err tx'] s1].
      simpl in *. repeat split; [congruence | exact Hq' | exact Hres].
    + repeat split; [exact Hm | exact Hq0 | discriminate].
Qed.

(** X14: while no other session writes, a call of [MigrateTeamMembers]
    commits its batch as a whole or not at all: when it returns a cursor,
    the error is nil, the cursor is the key of the last row of the batch and
    the master holds the batch migrated; on every other return, an error
    included, the master's tables are as they were. *)
Theorem MigrateTeamMembers_batch_or_nothing (s : SqlStore)
    (fromTeamId fromUserId : string) :
  noOtherSession s ->
  let batch :=
    SqlTeamStore.selectAfter (collation s) fromTeamId fromUserId 100 (master s) in
  let r := SqlTeamStore.MigrateTeamMembers fromTeamId fromUserId s in
  match fst (fst r) with
  | Some data =>
      snd (fst r) = None
      /\ (exists lastMember,
            last batch = Some lastMember /\ data = cursorOf lastMember)
      /\ master (snd r) = applyMigration batch (master s)
  | None => master (snd r) = master s
  end.
Proof.
  intros Hq batch r. subst r batch.
  unfold SqlTeamStore.MigrateTeamMembers. conn_unfold.
  issue_step Hq; simpl; [|exact Hm].
  assert (Hq1 : noOtherSession (withMaster s0 (master s0))) by exact Hq0.
  issue_step Hq1; simpl; [|congruence].
  rewrite Hm.
  destruct (last (SqlTeamStore.selectAfter (collation s) fromTeamId fromUserId 100
                    (master s))) as [lastMember|] eqn:Hlast;
    simpl; [|congruence].
  pose proof (migrateEach_alone
                (SqlTeamStore.selectAfter (collation s) fromTeamId fromUserId 100
                   (master s)) (master s) s1 Hq2) as Hloop.
  cbv zeta in Hloop.
  destruct (SqlTeamStore.migrateEach _ (master s) s1) as [[err tx] s2].
  simpl in Hloop. destruct Hloop as (Hm2 & Hq3 & Htx).
  destruct err as [e|]; simpl; [congruence|].
  issue_step Hq3; simpl; [|congruence].
  split; [reflexivity|]. split.
  - exists lastMember. split; reflexivity.
  - apply Htx. reflexivity.
Qed.

Lemma NoDup_map_inj_in {A B} (f : A -> B) (l : list A) :
  List.NoDup (map f l) ->
  forall x y, In x l -> In y l -> f x = f y -> x = y.
Proof.
  induction l as [|a l IH]; simpl; intros Hnd x y Hx Hy Hf; [destruct Hx|].
  inversion Hnd as [|? ? Hnin Hnd']; subst.
  destruct Hx as [<-|Hx], Hy as [<-|Hy]; auto.
  - exfalso. apply Hnin. rewrite Hf. apply in_map. exact Hy.
  - exfalso. apply Hnin. rewrite <- Hf. apply in_map. exact Hx.
Qed.

Lemma memberKey_sameKey (a b : teamMember.t) :
  memberKey a = memberKey b -> sameKey a b = true.
Proof.
  unfold memberKey, sameKey. intros [= -> ->].
  rewrite !String.eqb_refl. reflexivity.
Qed.

Lemma applyMigration_table (batch : list teamMember.t) : forall tx,
  applyMigration batch tx
  = withTeamMembers tx
      (fold_left
         (fun rows member =>
            map (fun old => if sameKey (migrateMember member) old
                            then migrateMember member else old) rows)
         batch (TeamMembers tx)).
Proof.
  induction batch as [|member batch IH]; intros tx.
  - simpl. symmetry. apply withTeamMembers_same.
  - unfold applyMigration in *. simpl. rewrite IH. reflexivity.
Qed.

Lemma selectAfter_rows (lt : string -> string -> bool) (c1 c2 : string)
    (limit : nat) (db : DB) (member : teamMember.t) :
  In member (SqlTeamStore.selectAfter lt c1 c2 limit db) ->
  In member (TeamMembers db).
Proof.
  unfold SqlTeamStore.selectAfter. intros Hin.
  match type of Hin with
  | In _ (firstn _ ?l) =>
      assert (Hall : In member (firstn limit l ++ skipn limit l))
        by (apply in_or_app; left; exact Hin);
      rewrite firstn_skipn in Hall
  end.
  apply orderBy_In in Hall as Hin'. clear Hin Hall. rename Hin' into Hin.
  apply filter_In in Hin as [Hin _]. exact Hin.
Qed.

End MigrationResult.

(** ** Loops that rewrite the member table batch by batch *)

Section RewriteLoop.
Variable f : teamMember.t -> teamMember.t.
Hypothesis f_key : forall row, memberKey (f row) = memberKey row.

Lemma rewrittenWhere_key (p : string * string -> bool) (row : teamMember.t) :
  memberKey (rewrittenWhere f p row) = memberKey row.
Proof.
  unfold rewrittenWhere. destruct (p (memberKey row)); [|reflexivity].
  apply f_key.
Qed.

Lemma rewrittenWhere_ext (p q : string * string -> bool) (rows : list teamMember.t) :
  (forall row, In row rows -> p (memberKey row) = q (memberKey row)) ->
  map (rewrittenWhere f p) rows = map (rewrittenWhere f q) rows.
Proof.
  intros H. apply map_ext_in. intros row Hin.
  unfold rewrittenWhere. rewrite (H row Hin). reflexivity.
Qed.

Lemma rewrittenWhere_none (rows : list teamMember.t) :
  map (rewrittenWhere f (fun _ => false)) rows = rows.
Proof. rewrite <- (map_id rows) at 2. apply map_ext. reflexivity. Qed.

(** A batch whose every step rewrites the row of one member. *)
Lemma rewrite_batch
    (step : teamMember.t -> list teamMember.t -> list teamMember.t)
    (rows batch : list teamMember.t) :
  (forall p member, In member rows ->
     step member (map (rewrittenWhere f p) rows)
     = map (rewrittenWhere f
              (fun k => p k || bool_decide (k = memberKey member))) rows) ->
  (forall member, In member batch -> In member rows) ->
  forall p,
  fold_left (fun table member => step member table) batch
            (map (rewrittenWhere f p) rows)
  = map (rewrittenWhere f
           (fun k => p k || bool_decide (k ∈ map memberKey batch))) rows.
Proof.
  intros Hstep. induction batch as [|member batch IH]; intros Hsub p.
  - cbn [fold_left map]. apply rewrittenWhere_ext. intros row _.
    case_bool_decide as Hk; [|rewrite orb_false_r; reflexivity].
    apply elem_of_nil in Hk. destruct Hk.
  - cbn [fold_left map]. rewrite Hstep by (apply Hsub; left; reflexivity).
    rewrite IH by (intros m Hm; apply Hsub; right; exact Hm).
    apply rewrittenWhere_ext. intros row _.
    rewrite <- orb_assoc. f_equal.
    rewrite <- bool_decide_or. apply bool_decide_ext.
    rewrite elem_of_cons. reflexivity.
Qed.

(** The first [n] keys rewritten, then the others: all of them. *)
Lemma rewrite_then_rest (P : list (string * string)) (n : nat)
    (rows : list teamMember.t) :
  List.NoDup P ->
  map (rewrittenWhere f (fun k => bool_decide (k ∈ skipn n P)))
      (map (rewrittenWhere f (fun k => bool_decide (k ∈ firstn n P))) rows)
  = map (rewrittenWhere f (fun k => bool_decide (k ∈ P))) rows.
Proof.
  intros HndP. rewrite <- (firstn_skipn n P) in HndP.
  apply NoDup_ListNoDup, NoDup_app in HndP as (_ & Hdisjoint & _).
  rewrite map_map. apply map_ext_in. intros row Hrow.
  unfold rewrittenWhere at 1.
  rewrite rewrittenWhere_key.
  unfold rewrittenWhere.
  destruct (decide (memberKey row ∈ firstn n P)) as [Hfirst|Hfirst].
  - rewrite (bool_decide_eq_true_2 _ Hfirst).
    rewrite (bool_decide_eq_false_2 _ (Hdisjoint _ Hfirst)).
    rewrite bool_decide_eq_true_2; [reflexivity|].
    rewrite <- (firstn_skipn n P). apply elem_of_app. left. exact Hfirst.
  - rewrite (bool_decide_eq_false_2 _ Hfirst).
    destruct (decide (memberKey row ∈ skipn n P)) as [Hskip|Hskip].
    + rewrite (bool_decide_eq_true_2 _ Hskip).
      rewrite bool_decide_eq_true_2; [reflexivity|].
      rewrite <- (firstn_skipn n P). apply elem_of_app. right. exact Hskip.
    + rewrite (bool_decide_eq_false_2 _ Hskip).
      rewrite bool_decide_eq_false_2; [reflexivity|].
      rewrite <- (firstn_skipn n P). rewrite elem_of_app. tauto.
Qed.

(** Behind the cursor means: still pending. *)
Lemma rewrittenWhere_pending (lt : string -> string -> bool) (c : string * string)
    (rows : list teamMember.t) :
  map (rewrittenWhere f (fun k => bool_decide (k ∈ pending lt c rows))) rows
  = map (rewrittenWhere f (keyLt lt c)) rows.
Proof.
  apply rewrittenWhere_ext. intros row Hrow.
  destruct (keyLt lt c (memberKey row)) eqn:E;
    case_bool_decide as H; try reflexivity; exfalso.
  - apply H, list_elem_of_In, pending_In.
    split; [apply in_map; exact Hrow | exact E].
  - apply list_elem_of_In, pending_In in H as [_ H]. congruence.
Qed.

End RewriteLoop.

Section MigrationTable.
Context `{M : ModelPkg}.

(** One update of the loop, on a table in which some rows are migrated. *)
Lemma migrate_one_more (rows : list teamMember.t) (member : teamMember.t)
    (p : string * string -> bool) :
  List.NoDup (map memberKey rows) -> In member rows ->
  map (fun old => if sameKey (migrateMember member) old
                  then migrateMember member else old)
      (map (rewrittenWhere migrateMember p) rows)
  = map (rewrittenWhere migrateMember
           (fun k => p k || bool_decide (k = memberKey member))) rows.
Proof.
  intros Hnd Hin. rewrite map_map. apply map_ext_in. intros row Hrow.
  destruct (sameKey (migrateMember member) (rewrittenWhere migrateMember p row))
    eqn:E.
  - apply sameKey_memberKey in E.
    rewrite migrateMember_key,
      (rewrittenWhere_key migrateMember migrateMember_key) in E.
    pose proof (NoDup_map_inj_in memberKey rows Hnd member row Hin Hrow E) as ->.
    unfold rewrittenWhere. cbv beta.
    case_bool_decide; [|congruence].
    rewrite orb_true_r. reflexivity.
  - unfold rewrittenWhere. cbv beta.
    case_bool_decide as Hk; [|rewrite orb_false_r; reflexivity].
    rewrite memberKey_sameKey in E; [discriminate|].
    rewrite migrateMember_key. fold (rewrittenWhere migrateMember p row).
    rewrite (rewrittenWhere_key migrateMember migrateMember_key).
    symmetry. exact Hk.
Qed.

Lemma migrationLoop_table (fuel : nat) : forall (c1 c2 : string) (s : SqlStore),
  script s = [] ->
  strictTotal (collation s) ->
  List.NoDup (map memberKey (TeamMembers (master s))) ->
  (length (pending (collation s) (c1, c2) (TeamMembers (master s))) < fuel)%nat ->
  exists s',
    migrationLoop fuel c1 c2 s = ((None, true), s')
    /\ master s'
       = withTeamMembers (master s)
           (map (rewrittenWhere migrateMember
                   (fun k => bool_decide
                               (k ∈ pending (collation s) (c1, c2)
                                      (TeamMembers (master s)))))
                (TeamMembers (master s)))
    /\ replica s' = replica s.
Proof.
  induction fuel as [|fuel IH]; intros c1 c2 s Hq Hlt Hnd Hlen; [lia|].
  simpl. unfold mbind at 1, Conn_bind at 1.
  rewrite (Migrate_quiet s c1 c2 Hq).
  pose proof (selectAfter_keys (collation s) c1 c2 100 (master s)) as Hkeys.
  pose proof (selectAfter_rows (collation s) c1 c2 100 (master s)) as Hrows.
  set (batch := SqlTeamStore.selectAfter (collation s) c1 c2 100 (master s)) in *.
  set (P := pending (collation s) (c1, c2) (TeamMembers (master s))) in *.
  destruct (last batch) as [lastMember|] eqn:Hlast.
  - apply last_Some in Hlast as [front Hbatch].
    destruct (cursorOf_lookup lastMember) as [-> ->].
    set (s1 := withMaster _ _).
    assert (HP : P = (map memberKey front ++ memberKey lastMember :: skipn 100 P)%list).
    { rewrite <- (firstn_skipn 100 P) at 1. rewrite <- Hkeys, Hbatch.
      rewrite map_app. simpl. rewrite <- app_assoc. reflexivity. }
    assert (Hmaster1 : master s1
                       = withTeamMembers (master s)
                           (map (rewrittenWhere migrateMember
                                   (fun k => bool_decide (k ∈ firstn 100 P)))
                                (TeamMembers (master s)))).
    { subst s1. cbn [master withMaster]. rewrite applyMigration_table.
      rewrite <- (rewrittenWhere_none migrateMember (TeamMembers (master s))) at 1.
      rewrite (rewrite_batch migrateMember
                 (fun member rows =>
                    map (fun old => if sameKey (migrateMember member) old
                                    then migrateMember member else old) rows)
                 _ batch (fun p member => migrate_one_more _ member p Hnd) Hrows).
      rewrite Hkeys. reflexivity. }
    assert (Hkeys1 : map memberKey (TeamMembers (master s1))
                     = map memberKey (TeamMembers (master s))).
    { subst s1. simpl. apply applyMigration_keys. }
    assert (Hnext : pending (collation s1)
                      (teamMember.TeamId lastMember, teamMember.UserId lastMember)
                      (TeamMembers (master s1)) = skipn 100 P).
    { rewrite (pending_keys _ _ _ _ Hkeys1).
      apply (pending_after (collation s) _ (c1, c2) _ (map memberKey front));
        [exact Hlt | exact Hnd | exact HP]. }
    destruct (IH (teamMember.TeamId lastMember) (teamMember.UserId lastMember) s1)
      as (s' & Hrun & Htable & Hreplica).
    + reflexivity.
    + exact Hlt.
    + rewrite Hkeys1. exact Hnd.
    + rewrite Hnext. rewrite HP in Hlen. rewrite length_app in Hlen.
      simpl in Hlen. lia.
    + exists s'. split; [exact Hrun|]. split; [|exact Hreplica].
      rewrite Htable, Hnext, Hmaster1.
      cbn [TeamMembers withTeamMembers].
      unfold withTeamMembers at 1. cbn [Teams Schemes Users Systems StatusRows Jobs
                                         withTeamMembers].
      unfold withTeamMembers. f_equal.
      apply (rewrite_then_rest migrateMember migrateMember_key).
      apply (sorted_NoDup (keyLt (collation s)) (keyLt_strict _ Hlt)).
      apply pending_sorted; assumption.
  - apply last_None in Hlast.
    assert (HP : P = []).
    { rewrite Hlast in Hkeys. simpl in Hkeys.
      destruct P; [reflexivity | discriminate]. }
    eexists. split; [reflexivity|]. split; [|reflexivity].
    cbn [master logged]. rewrite HP.
    rewrite (rewrittenWhere_ext migrateMember _ (fun _ => false)).
    + rewrite rewrittenWhere_none. symmetry. apply withTeamMembers_same.
    + intros row _. case_bool_decide as Hk; [|reflexivity].
      apply elem_of_nil in Hk. destruct Hk.
Qed.

(** X15: what the migration leaves behind.  On a table whose primary key
    holds, with every statement proceeding, the caller's loop over
    [MigrateTeamMembers] ends with every row behind the starting cursor
    migrated and every other row, every other table and the replica as they
    were. *)
Theorem migration_migrates_every_row (s : SqlStore) (fromTeamId fromUserId : string) :
  script s = [] ->
  strictTotal (collation s) ->
  List.NoDup (map memberKey (TeamMembers (master s))) ->
  exists s',
    migrationLoop (S (length (TeamMembers (master s)))) fromTeamId fromUserId s
    = ((None, true), s')
    /\ master s'
       = withTeamMembers (master s)
           (map (rewrittenWhere migrateMember
                   (keyLt (collation s) (fromTeamId, fromUserId)))
                (TeamMembers (master s)))
    /\ replica s' = replica s.
Proof.
  intros Hq Hlt Hnd.
  destruct (migrationLoop_table (S (length (TeamMembers (master s))))
              fromTeamId fromUserId s Hq Hlt Hnd) as (s' & Hrun & Htable & Hreplica).
  { unfold pending. rewrite orderBy_length.
    pose proof (List.filter_length_le
                  (keyLt (collation s) (fromTeamId, fromUserId))
                  (map memberKey (TeamMembers (master s)))) as Hle.
    rewrite length_map in Hle. lia. }
  exists s'. split; [exact Hrun|]. split; [|exact Hreplica].
  rewrite Htable. f_equal. apply rewrittenWhere_pending.
Qed.

End MigrationTable.

(** ** The system store *)

Section SystemStore.

Lemma System_eta (system : System.t) :
  {| System.Name := System.Name system; System.Value := System.Value system |}
  = system.
Proof. destruct system; reflexivity. Qed.

Lemma GetByName_written (s : SqlStore) (system : System.t) :
  script s = [] ->
  Systems (master s) !! System.Name system = Some (System.Value system) ->
  fst (SqlSystemStore.GetByName (System.Name system) s) = (Some system, None).
Proof.
  intros Hq Hrow. unfold SqlSystemStore.GetByName. conn_unfold.
  rewrite (issue_quiet _ _ Hq). cbn [master logged].
  unfold SqlSystemStore.selectSystem. rewrite Hrow. simpl.
  rewrite System_eta. reflexivity.
Qed.

(** X16: in the system store a nil result of [SaveOrUpdate] means that the
    row is written: while no other session writes, on every path that
    returns nil (the row found and updated, the row missing and inserted,
    the lookup failed and the insert gone through) the table holds the value
    under the name, and [GetByName] then returns the system that was
    saved. *)
Theorem System_SaveOrUpdate_nil_means_written (s : SqlStore) (system : System.t) :
  noOtherSession s ->
  fst (SqlSystemStore.SaveOrUpdate system s) = None ->
  Systems (master (snd (SqlSystemStore.SaveOrUpdate system s)))
  = <[System.Name system := System.Value system]> (Systems (master s))
  /\ fst (SqlSystemStore.GetByName (System.Name system)
            (caughtUp (snd (SqlSystemStore.SaveOrUpdate system s))))
     = (Some system, None).
Proof.
  intros Hq.
  assert (Hread : forall s1,
    Systems (master s1)
    = <[System.Name system := System.Value system]> (Systems (master s)) ->
    Systems (master s1)
    = <[System.Name system := System.Value system]> (Systems (master s))
    /\ fst (SqlSystemStore.GetByName (System.Name system) (caughtUp s1))
       = (Some system, None)).
  { intros s1 Hs1. split; [exact Hs1|].
    apply GetByName_written; [reflexivity|].
    cbn [master caughtUp]. rewrite Hs1. apply lookup_insert_eq. }
  unfold SqlSystemStore.SaveOrUpdate. conn_unfold.
  issue_step Hq.
  - assert (Hq1 : noOtherSession (withMaster s0 (master s0))) by exact Hq0.
    unfold SqlSystemStore.selectSystem. rewrite Hm.
    destruct (Systems (master s) !! System.Name system) as [v|] eqn:Hrow;
      cbn [rowsOf fmap option_fmap option_map selectOne].
    + issue_step Hq1; [|discriminate].
      cbn [master withMaster] in Hm0.
      unfold SqlSystemStore.updateSystem. rewrite Hm0, Hrow.
      intros _. apply Hread. reflexivity.
    + issue_step Hq1; [|discriminate].
      cbn [master withMaster] in Hm0.
      unfold SqlSystemStore.insertSystem. rewrite Hm0, Hrow.
      intros _. apply Hread. reflexivity.
  - issue_step Hq0; [|discriminate].
    unfold SqlSystemStore.insertSystem. rewrite Hm0, Hm.
    destruct (Systems (master s) !! System.Name system) as [v|] eqn:Hrow;
      [discriminate|].
    intros _. apply Hread. reflexivity.
Qed.

(** X17: [PermanentDeleteByName] never returns the row it deletes: what it
    returns without an error is the empty system; and when no other session
    writes, the name has no row afterwards, so that [GetByName] answers with
    [sql.ErrNoRows]. *)
Theorem PermanentDeleteByName_returns_empty (s : SqlStore) (name : string) :
  noOtherSession s ->
  snd (fst (SqlSystemStore.PermanentDeleteByName name s)) = None ->
  fst (SqlSystemStore.PermanentDeleteByName name s)
  = (Some {| System.Name := EmptyString; System.Value := EmptyString |}, None)
  /\ Systems (master (snd (SqlSystemStore.PermanentDeleteByName name s)))
     = delete name (Systems (master s))
  /\ fst (SqlSystemStore.GetByName name
            (caughtUp (snd (SqlSystemStore.PermanentDeleteByName name s))))
     = (None, Some ErrNoRows).
Proof.
  unfold noOtherSession, SqlSystemStore.PermanentDeleteByName, execDelete.
  conn_unfold. intros Hq.
  assert (Hread : forall s1,
    Systems (master s1) = delete name (Systems (master s)) ->
    fst (SqlSystemStore.GetByName name (caughtUp s1)) = (None, Some ErrNoRows)).
  { intros s1 Hs1. unfold SqlSystemStore.GetByName. conn_unfold.
    rewrite issue_quiet by reflexivity. cbn [master logged caughtUp].
    unfold SqlSystemStore.selectSystem. rewrite Hs1, lookup_delete_eq.
    reflexivity. }
  destruct (script s) as [|[|e|f] rest]; simpl.
  - intros _. repeat split. apply Hread. reflexivity.
  - intros _. repeat split. apply Hread. reflexivity.
  - discriminate.
  - inversion Hq as [|? ? Hev _]. destruct Hev.
Qed.

Lemma InsertIfExists_quiet_script (s : SqlStore) (system : System.t) :
  script s = [] ->
  script (snd (SqlSystemStore.InsertIfExists system s)) = [].
Proof.
  intros Hq. unfold SqlSystemStore.InsertIfExists. conn_unfold.
  rewrite (issue_quiet _ _ Hq). simpl. unfold issue. simpl.
  repeat (case_match; simpl; try reflexivity).
Qed.

(** X18: the first writer wins.  Once [InsertIfExists] has inserted a
    non-empty value under a name that had no row, a second call under the
    same name returns the first value, whatever value it brings, and leaves
    the tables as they are. *)
Theorem InsertIfExists_first_writer_wins (s : SqlStore) (first second : System.t) :
  script s = [] ->
  Systems (master s) !! System.Name first = None ->
  System.Value first <> EmptyString ->
  System.Name second = System.Name first ->
  fst (SqlSystemStore.InsertIfExists first s) = (Some first, None)
  /\ fst (SqlSystemStore.InsertIfExists second
            (snd (SqlSystemStore.InsertIfExists first s)))
     = (Some first, None)
  /\ master (snd (SqlSystemStore.InsertIfExists second
                    (snd (SqlSystemStore.InsertIfExists first s))))
     = master (snd (SqlSystemStore.InsertIfExists first s)).
Proof.
  intros Hq Hrow Hvalue Hname.
  destruct (InsertIfExists_absent s first Hq Hrow) as (Hfirst & Htable).
  split; [exact Hfirst|].
  destruct (InsertIfExists_present
              (snd (SqlSystemStore.InsertIfExists first s)) second
              (System.Value first)) as (Hsecond & Hsame).
  - apply InsertIfExists_quiet_script, Hq.
  - rewrite Htable, Hname. apply lookup_insert_eq.
  - exact Hvalue.
  - rewrite Hsecond, Hname, System_eta. split; [reflexivity | exact Hsame].
Qed.

End SystemStore.

(** ** The status store, with a replica in step *)

Section StatusStore.

Lemma Status_Get_written (s : SqlStore) (status : Status.t) :
  script s = [] ->
  StatusRows (replica s) !! Status.UserId status = Some status ->
  fst (SqlStatusStore.Get (Status.UserId status) s) = (Some status, None).
Proof.
  intros Hq Hrow. unfold SqlStatusStore.Get. conn_unfold.
  rewrite (issue_quiet _ _ Hq). cbn [replica logged].
  rewrite Hrow. reflexivity.
Qed.

(** X19: with every statement proceeding and a replica that agrees with
    the master on whether the user has a row, [SaveOrUpdate] returns nil and
    the master holds the status; once the replica has caught up, [Get]
    returns it. *)
Theorem Status_SaveOrUpdate_then_Get (s : SqlStore) (status : Status.t) :
  script s = [] ->
  (is_Some (StatusRows (replica s) !! Status.UserId status)
   <-> is_Some (StatusRows (master s) !! Status.UserId status)) ->
  fst (SqlStatusStore.SaveOrUpdate status s) = None
  /\ StatusRows (master (snd (SqlStatusStore.SaveOrUpdate status s)))
     = <[Status.UserId status := status]> (StatusRows (master s))
  /\ fst (SqlStatusStore.Get (Status.UserId status)
            (caughtUp (snd (SqlStatusStore.SaveOrUpdate status s))))
     = (Some status, None).
Proof.
  intros Hq Hsync.
  assert (Hread : forall s1,
    StatusRows (master s1)
    = <[Status.UserId status := status]> (StatusRows (master s)) ->
    fst (SqlStatusStore.Get (Status.UserId status) (caughtUp s1))
    = (Some status, None)).
  { intros s1 Hs1. apply Status_Get_written; [reflexivity|].
    cbn [replica caughtUp]. rewrite Hs1. apply lookup_insert_eq. }
  unfold SqlStatusStore.SaveOrUpdate in *. conn_unfold.
  rewrite (issue_quiet _ _ Hq). cbn [replica logged].
  destruct (StatusRows (replica s) !! Status.UserId status) as [old|] eqn:Hreplica.
  - destruct (proj1 Hsync (ex_intro _ old eq_refl)) as [row Hrow].
    cbn [rowsOf selectOne].
    rewrite issue_quiet by reflexivity. cbn [master logged].
    rewrite Hrow. cbn.
    repeat split. apply (Hread (withMaster _ _)). reflexivity.
  - destruct (StatusRows (master s) !! Status.UserId status) as [row|] eqn:Hrow.
    { destruct (proj2 Hsync (ex_intro _ row eq_refl)) as [? ?]. discriminate. }
    cbn [rowsOf selectOne].
    rewrite issue_quiet by reflexivity. cbn [master logged].
    rewrite Hrow. cbn.
    repeat split. apply (Hread (withMaster _ _)). reflexivity.
Qed.

End StatusStore.

(** ** The job store: one winner *)

Section JobStore.
Context `{M : ModelPkg}.

Lemma UpdateStatusOptimistically_alone (s : SqlStore)
    (id currentStatus newStatus : string) (now startAt : Z) :
  noOtherSession s ->
  let r := SqlJobStore.UpdateStatusOptimistically id currentStatus newStatus
             now startAt s in
  noOtherSession (snd r)
  /\ (fst r = (true, None) ->
      exists row,
        Jobs (master s) !! id = Some row
        /\ Job.rStatus row = currentStatus
        /\ exists row',
             Jobs (master (snd r)) !! id = Some row'
             /\ Job.rStatus row' = newStatus)
  /\ (fst (fst r) = false -> master (snd r) = master s)
  /\ (forall row,
        Jobs (master s) !! id = Some row ->
        Job.rStatus row <> currentStatus ->
        fst (fst r) = false).
Proof.
  intros Hq r. subst r.
  unfold SqlJobStore.UpdateStatusOptimistically. conn_unfold.
  issue_step Hq.
  - rewrite Hm.
    destruct (Jobs (master s) !! id) as [row|] eqn:Hrow.
    + destruct (String.eqb (Job.rStatus row) currentStatus) eqn:Hstatus; simpl.
      * apply String.eqb_eq in Hstatus.
        split; [exact Hq0|]. split; [|split].
        -- intros _. exists row. split; [reflexivity|]. split; [exact Hstatus|].
           eexists. split; [apply lookup_insert_eq | reflexivity].
        -- discriminate.
        -- intros row' [= <-] Hne. contradiction.
      * split; [exact Hq0|]. split; [|split].
        -- discriminate.
        -- intros _. reflexivity.
        -- intros. reflexivity.
    + simpl. split; [exact Hq0|]. split; [|split].
      * discriminate.
      * intros _. reflexivity.
      * discriminate.
  - simpl. split; [exact Hq0|]. split; [|split].
    + discriminate.
    + intros _. exact Hm.
    + intros. reflexivity.
Qed.

(** X20: the optimistic status update has one winner.  While no other
    session writes, once a call has moved a job from [currentStatus] to a
    different status, a later call that still expects [currentStatus]
    returns false and leaves the tables as they are. *)
Theorem UpdateStatusOptimistically_one_winner (s : SqlStore)
    (id currentStatus newStatus laterStatus : string)
    (now startAt later laterStartAt : Z) :
  noOtherSession s ->
  newStatus <> currentStatus ->
  fst (SqlJobStore.UpdateStatusOptimistically id currentStatus newStatus
         now startAt s) = (true, None) ->
  let s1 := snd (SqlJobStore.UpdateStatusOptimistically id currentStatus newStatus
                   now startAt s) in
  fst (fst (SqlJobStore.UpdateStatusOptimistically id currentStatus laterStatus
              later laterStartAt s1)) = false
  /\ master (snd (SqlJobStore.UpdateStatusOptimistically id currentStatus
                    laterStatus later laterStartAt s1))
     = master s1.
Proof.
  intros Hq Hne Hwon s1.
  destruct (UpdateStatusOptimistically_alone s id currentStatus newStatus
              now startAt Hq) as (Hq1 & Hfirst & _).
  destruct (Hfirst Hwon) as (row & _ & _ & row' & Hrow' & Hstatus).
  fold s1 in Hq1, Hrow'.
  destruct (UpdateStatusOptimistically_alone s1 id currentStatus laterStatus
              later laterStartAt Hq1) as (_ & _ & Hsame & Hlose).
  assert (Hfalse : fst (fst (SqlJobStore.UpdateStatusOptimistically id
                               currentStatus laterStatus later laterStartAt s1))
                   = false).
  { apply (Hlose row' Hrow'). rewrite Hstatus. exact Hne. }
  split; [exact Hfalse | exact (Hsame Hfalse)].
Qed.

(** X21: [UpdateStatus] neither reports nor revives a deleted job: while no
    other session writes, after a [Delete] that returned no error, an
    [UpdateStatus] of the same id that meets no error returns a job with
    that id and the new status, and the table still has no row for it. *)
Theorem Delete_then_UpdateStatus (s : SqlStore) (id status : string) (now : Z) :
  noOtherSession s ->
  snd (fst (SqlJobStore.Delete id s)) = None ->
  let s1 := snd (SqlJobStore.Delete id s) in
  snd (fst (SqlJobStore.UpdateStatus id status now s1)) = None ->
  fst (fst (SqlJobStore.Delete id s)) = id
  /\ (exists job,
        fst (fst (SqlJobStore.UpdateStatus id status now s1)) = Some job
        /\ Job.Id job = id /\ Job.Status job = status)
  /\ Jobs (master (snd (SqlJobStore.UpdateStatus id status now s1))) !! id = None.
Proof.
  unfold noOtherSession, SqlJobStore.Delete, execDelete. conn_unfold.
  intros Hq.
  assert (Hupdate : forall s1,
    noOtherSession s1 ->
    Jobs (master s1) !! id = None ->
    snd (fst (SqlJobStore.UpdateStatus id status now s1)) = None ->
    (exists job,
       fst (fst (SqlJobStore.UpdateStatus id status now s1)) = Some job
       /\ Job.Id job = id /\ Job.Status job = status)
    /\ Jobs (master (snd (SqlJobStore.UpdateStatus id status now s1))) !! id = None).
  { intros s1 Hq1 Hgone.
    unfold SqlJobStore.UpdateStatus. conn_unfold.
    issue_step Hq1; [|discriminate].
    rewrite Hm, Hgone. simpl. intros _. split.
    - eexists. repeat split.
    - exact Hgone. }
  destruct (script s) as [|[|e|f] rest] eqn:Hscript; simpl.
  - intros _ Hok. split; [reflexivity|].
    apply Hupdate; [constructor | apply lookup_delete_eq | exact Hok].
  - intros _ Hok. split; [reflexivity|].
    apply Hupdate; [|apply lookup_delete_eq | exact Hok].
    inversion Hq; assumption.
  - discriminate.
  - inversion Hq as [|? ? Hev _]. destruct Hev.
Qed.

End JobStore.

(** ** Clearing the custom role assignments *)

Section ClearRoles.
Variable builtInRoles : list string.

Lemma keepBuiltIn_filter (roles : string) :
  SqlTeamStore.keepBuiltIn builtInRoles roles
  = List.filter (isBuiltIn builtInRoles) (Fields roles).
Proof.
  unfold SqlTeamStore.keepBuiltIn.
  assert (H : forall l acc,
    fold_left (fun newRoles role =>
                 if existsb (fun name => String.eqb name role) builtInRoles
                 then append newRoles role else newRoles) l acc
    = (acc ++ List.filter (isBuiltIn builtInRoles) l)%list).
  { induction l as [|role l IH]; intros acc; simpl.
    - rewrite app_nil_r. reflexivity.
    - rewrite IH. unfold isBuiltIn.
      destruct (existsb _ builtInRoles); [|reflexivity].
      unfold append. rewrite <- app_assoc. reflexivity. }
  rewrite H. reflexivity.
Qed.

Lemma filter_isField (p : string -> bool) (l : list string) :
  Forall isField l -> Forall isField (List.filter p l).
Proof.
  intros Hl. rewrite Forall_forall in *.
  intros t Ht. apply list_elem_of_In, filter_In in Ht as [Ht _].
  apply Hl, list_elem_of_In, Ht.
Qed.

Lemma filter_twice {A} (p : A -> bool) (l : list A) :
  List.filter p (List.filter p l) = List.filter p l.
Proof.
  induction l as [|a l IH]; [reflexivity|]. simpl.
  destruct (p a) eqn:E; simpl; [rewrite E, IH|]; auto.
Qed.

(** X22: what [ClearAllCustomRoleAssignments] writes to a row.  The roles
    it leaves are the built-in ones among the tokens of the old [Roles], in
    their order and as often as they stood there; clearing a cleared row
    changes nothing. *)
Theorem clearRow_keeps_built_in (row : teamMember.t) :
  Fields (teamMember.Roles (clearRow builtInRoles row))
  = List.filter (isBuiltIn builtInRoles) (Fields (teamMember.Roles row))
  /\ clearRow builtInRoles (clearRow builtInRoles row) = clearRow builtInRoles row.
Proof.
  assert (Hfields :
    Fields (teamMember.Roles (clearRow builtInRoles row))
    = List.filter (isBuiltIn builtInRoles) (Fields (teamMember.Roles row))).
  { unfold clearRow, withRoles. cbn [teamMember.Roles].
    rewrite keepBuiltIn_filter.
    apply Fields_Join, filter_isField, Fields_isField. }
  split; [exact Hfields|].
  unfold clearRow at 1. rewrite keepBuiltIn_filter, Hfields, filter_twice.
  unfold clearRow. rewrite keepBuiltIn_filter. reflexivity.
Qed.

Lemma clearRow_key (row : teamMember.t) :
  memberKey (clearRow builtInRoles row) = memberKey row.
Proof. reflexivity. Qed.

Lemma clearRow_unchanged (member : teamMember.t) :
  Join (SqlTeamStore.keepBuiltIn builtInRoles (teamMember.Roles member)) " "
  = teamMember.Roles member ->
  clearRow builtInRoles member = member.
Proof.
  intros H. unfold clearRow. rewrite H. destruct member; reflexivity.
Qed.

Lemma clear_one_more (rows : list teamMember.t)
    (Hnd : List.NoDup (map memberKey rows))
    (p : string * string -> bool) (member : teamMember.t) :
  In member rows ->
  clearStep builtInRoles member (map (rewrittenWhere (clearRow builtInRoles) p) rows)
  = map (rewrittenWhere (clearRow builtInRoles)
           (fun k => p k || bool_decide (k = memberKey member))) rows.
Proof.
  intros Hin. unfold clearStep.
  destruct (String.eqb _ (teamMember.Roles member)) eqn:Hsame; cbn [negb].
  - apply String.eqb_eq in Hsame.
    apply map_ext_in. intros row Hrow. unfold rewrittenWhere.
    case_bool_decide as Hk; [|rewrite orb_false_r; reflexivity].
    pose proof (NoDup_map_inj_in memberKey rows Hnd row member Hrow Hin Hk) as ->.
    rewrite orb_true_r, (clearRow_unchanged member Hsame).
    destruct (p (memberKey member)); reflexivity.
  - rewrite map_map. apply map_ext_in. intros row Hrow.
    destruct (String.eqb
                (teamMember.UserId (rewrittenWhere (clearRow builtInRoles) p row))
                (teamMember.UserId member)
              && String.eqb
                   (teamMember.TeamId (rewrittenWhere (clearRow builtInRoles) p row))
                   (teamMember.TeamId member)) eqn:E.
    + apply andb_true_iff in E as [Hu Ht].
      apply String.eqb_eq in Hu, Ht.
      assert (Hk : memberKey row = memberKey member).
      { rewrite <- (rewrittenWhere_key (clearRow builtInRoles) clearRow_key p row).
        unfold memberKey. rewrite Hu, Ht. reflexivity. }
      pose proof (NoDup_map_inj_in memberKey rows Hnd row member Hrow Hin Hk) as ->.
      unfold rewrittenWhere.
      rewrite bool_decide_eq_true_2 by reflexivity. rewrite orb_true_r.
      destruct (p (memberKey member)); reflexivity.
    + unfold rewrittenWhere at 2.
      case_bool_decide as Hk; [|rewrite orb_false_r; reflexivity].
      exfalso.
      rewrite <- (rewrittenWhere_key (clearRow builtInRoles) clearRow_key p row) in Hk.
      unfold memberKey in Hk. injection Hk as Ht Hu.
      rewrite Ht, Hu, !String.eqb_refl in E. discriminate.
Qed.

Lemma clearEach_quiet (batch : list teamMember.t) :
  forall (lastTeamId lastUserId : string) (tx : Transaction) (s : SqlStore),
  script s = [] ->
  exists s',
    SqlTeamStore.clearEach builtInRoles batch lastTeamId lastUserId tx s
    = ((None,
        withTeamMembers tx
          (fold_left (fun rows member => clearStep builtInRoles member rows)
                     batch (TeamMembers tx)),
        fold_left (fun _ member => memberKey member) batch (lastTeamId, lastUserId)),
       s')
    /\ script s' = []
    /\ master s' = master s
    /\ replica s' = replica s
    /\ collation s' = collation s.
Proof.
  induction batch as [|member batch IH]; intros lastTeamId lastUserId tx s Hq.
  - exists s. simpl. rewrite withTeamMembers_same. auto.
  - cbn [SqlTeamStore.clearEach fold_left].
    unfold clearStep at 2.
    destruct (negb (String.eqb _ (teamMember.Roles member))) eqn:Hchanged.
    + conn_unfold. rewrite (issue_quiet _ _ Hq).
      unfold SqlTeamStore.updateRoles. cbv zeta.
      match goal with
      | |- context [SqlTeamStore.clearEach _ batch ?a ?b ?t ?st] =>
          destruct (IH a b t st eq_refl) as (s' & Hrun & Hs & Hm & Hr & Hc)
      end.
      exists s'. rewrite Hrun. auto.
    + destruct (IH (teamMember.TeamId member) (teamMember.UserId member) tx s Hq)
        as (s' & Hrun & Hs & Hm & Hr & Hc).
      exists s'. rewrite Hrun. auto.
Qed.

Lemma lastKey_fold (front : list teamMember.t) (lastMember : teamMember.t)
    (c : string * string) :
  fold_left (fun _ member => memberKey member) (front ++ [lastMember]) c
  = memberKey lastMember.
Proof. rewrite fold_left_app. reflexivity. Qed.

Lemma clearLoop_table (fuel : nat) : forall (c1 c2 : string) (s : SqlStore),
  script s = [] ->
  strictTotal (collation s) ->
  List.NoDup (map memberKey (TeamMembers (master s))) ->
  (length (pending (collation s) (c1, c2) (TeamMembers (master s))) < fuel)%nat ->
  exists s',
    SqlTeamStore.clearLoop builtInRoles fuel c1 c2 s = (Some None, s')
    /\ master s'
       = withTeamMembers (master s)
           (map (rewrittenWhere (clearRow builtInRoles)
                   (fun k => bool_decide
                               (k ∈ pending (collation s) (c1, c2)
                                      (TeamMembers (master s)))))
                (TeamMembers (master s)))
    /\ replica s' = replica s.
Proof.
  induction fuel as [|fuel IH]; intros c1 c2 s Hq Hlt Hnd Hlen; [lia|].
  cbn [SqlTeamStore.clearLoop]. conn_unfold.
  rewrite (issue_quiet _ _ Hq). cbn [master logged withMaster].
  rewrite issue_quiet by reflexivity.
  pose proof (selectAfter_keys (collation s) c1 c2 1000 (master s)) as Hkeys.
  pose proof (selectAfter_rows (collation s) c1 c2 1000 (master s)) as Hrows.
  set (batch := SqlTeamStore.selectAfter (collation s) c1 c2 1000 (master s)) in *.
  set (P := pending (collation s) (c1, c2) (TeamMembers (master s))) in *.
  destruct (last batch) as [lastMember|] eqn:Hlast.
  - apply last_Some in Hlast as [front Hbatch].
    assert (Hlen0 : (len batch =? 0) = false).
    { rewrite Hbatch. unfold len. rewrite length_app, Nat.add_1_r. reflexivity. }
    rewrite Hlen0.
    match goal with
    | |- context [SqlTeamStore.clearEach _ batch c1 c2 ?t ?st] =>
        destruct (clearEach_quiet batch c1 c2 t st eq_refl)
          as (s1 & Hrun & Hs1 & Hm1 & Hr1 & Hc1)
    end.
    rewrite Hrun. rewrite (issue_quiet _ _ Hs1).
    assert (Hlastkey : fold_left (fun _ member => memberKey member) batch (c1, c2)
                       = memberKey lastMember)
      by (rewrite Hbatch; apply lastKey_fold).
    rewrite Hlastkey. cbn [fst snd memberKey].
    set (s2 := withMaster _ _).
    assert (HP : P = (map memberKey front ++ memberKey lastMember :: skipn 1000 P)%list).
    { rewrite <- (firstn_skipn 1000 P) at 1. rewrite <- Hkeys, Hbatch.
      rewrite map_app. simpl. rewrite <- app_assoc. reflexivity. }
    assert (Hmaster2 : master s2
                       = withTeamMembers (master s)
                           (map (rewrittenWhere (clearRow builtInRoles)
                                   (fun k => bool_decide (k ∈ firstn 1000 P)))
                                (TeamMembers (master s)))).
    { subst s2. cbn [master withMaster]. f_equal.
      rewrite <- (rewrittenWhere_none (clearRow builtInRoles)
                    (TeamMembers (master s))) at 1.
      rewrite (rewrite_batch (clearRow builtInRoles) (clearStep builtInRoles)
                 _ batch (clear_one_more _ Hnd) Hrows).
      rewrite Hkeys. reflexivity. }
    assert (Hkeys2 : map memberKey (TeamMembers (master s2))
                     = map memberKey (TeamMembers (master s))).
    { rewrite Hmaster2. cbn [TeamMembers withTeamMembers].
      rewrite map_map. apply map_ext. intros row.
      apply (rewrittenWhere_key (clearRow builtInRoles) clearRow_key). }
    assert (Hc2 : collation s2 = collation s) by exact Hc1.
    assert (Hnext : pending (collation s2)
                      (teamMember.TeamId lastMember, teamMember.UserId lastMember)
                      (TeamMembers (master s2)) = skipn 1000 P).
    { rewrite Hc2, (pending_keys _ _ _ _ Hkeys2).
      apply (pending_after (collation s) _ (c1, c2) _ (map memberKey front));
        [exact Hlt | exact Hnd | exact HP]. }
    destruct (IH (teamMember.TeamId lastMember) (teamMember.UserId lastMember) s2)
      as (s' & Hloop & Htable & Hreplica).
    + reflexivity.
    + rewrite Hc2. exact Hlt.
    + rewrite Hkeys2. exact Hnd.
    + rewrite Hnext. rewrite HP in Hlen. rewrite length_app in Hlen.
      simpl in Hlen. lia.
    + exists s'. split; [exact Hloop|]. split.
      * rewrite Htable, Hnext, Hmaster2.
        cbn [TeamMembers withTeamMembers].
        unfold withTeamMembers at 1. cbn [Teams Schemes Users Systems StatusRows Jobs
                                           withTeamMembers].
        unfold withTeamMembers. f_equal.
        apply (rewrite_then_rest (clearRow builtInRoles) clearRow_key).
        apply (sorted_NoDup (keyLt (collation s)) (keyLt_strict _ Hlt)).
        apply pending_sorted; assumption.
      * rewrite Hreplica. subst s2. cbn [replica withMaster logged]. exact Hr1.
  - apply last_None in Hlast.
    assert (HP : P = []).
    { rewrite Hlast in Hkeys. simpl in Hkeys.
      destruct P; [reflexivity | discriminate]. }
    rewrite Hlast. cbn [len length Z.of_nat Z.eqb].
    eexists. split; [reflexivity|]. split; [|reflexivity].
    cbn [master logged]. rewrite HP.
    rewrite (rewrittenWhere_ext (clearRow builtInRoles) _ (fun _ => false)).
    + rewrite rewrittenWhere_none. symmetry. apply withTeamMembers_same.
    + intros row _. case_bool_decide as Hk; [|reflexivity].
      apply elem_of_nil in Hk. destruct Hk.
Qed.

(** X23: [ClearAllCustomRoleAssignments] on a table whose primary key
    holds, with every statement proceeding: within one batch more than there
    are rows the method returns nil, and by then every row behind the first
    cursor (26 zeros for both ids) holds its built-in roles only, while
    every other row, every other table and the replica are as they were. *)
Theorem ClearAllCustomRoleAssignments_result (s : SqlStore) :
  script s = [] ->
  strictTotal (collation s) ->
  List.NoDup (map memberKey (TeamMembers (master s))) ->
  exists s',
    SqlTeamStore.ClearAllCustomRoleAssignments builtInRoles
      (S (length (TeamMembers (master s)))) s
    = (Some None, s')
    /\ master s'
       = withTeamMembers (master s)
           (map (rewrittenWhere (clearRow builtInRoles)
                   (keyLt (collation s) (zeroId, zeroId)))
                (TeamMembers (master s)))
    /\ replica s' = replica s.
Proof.
  intros Hq Hlt Hnd.
  unfold SqlTeamStore.ClearAllCustomRoleAssignments. cbv zeta. fold zeroId.
  destruct (clearLoop_table (S (length (TeamMembers (master s))))
              zeroId zeroId s Hq Hlt Hnd) as (s' & Hrun & Htable & Hreplica).
  { unfold pending. rewrite orderBy_length.
    pose proof (List.filter_length_le
                  (keyLt (collation s) (zeroId, zeroId))
                  (map memberKey (TeamMembers (master s)))) as Hle.
    rewrite length_map in Hle. lia. }
  exists s'. split; [exact Hrun|]. split; [|exact Hreplica].
  rewrite Htable. f_equal. apply rewrittenWhere_pending.
Qed.

End ClearRoles.

(** ** Reading members back *)

Section ReadingMembers.
Context `{M : ModelPkg}.

Lemma filter_key_unique (rows : list teamMember.t) (row : teamMember.t) :
  List.NoDup (map memberKey rows) -> In row rows ->
  List.filter (fun r => String.eqb (teamMember.TeamId r) (teamMember.TeamId row)
                        && String.eqb (teamMember.UserId r) (teamMember.UserId row))
              rows
  = [row].
Proof.
  assert (Hkey : forall r,
    String.eqb (teamMember.TeamId r) (teamMember.TeamId row)
    && String.eqb (teamMember.UserId r) (teamMember.UserId row) = true ->
    memberKey r = memberKey row).
  { intros r H. apply (sameKey_memberKey r row). exact H. }
  induction rows as [|a rows IH]; intros Hnd Hin; [destruct Hin|].
  inversion Hnd as [|? ? Hnin Hnd']; subst. simpl.
  destruct Hin as [->|Hin].
  - rewrite !String.eqb_refl. simpl. f_equal.
    destruct (List.filter _ rows) as [|r l] eqn:Hf; [reflexivity|].
    exfalso. apply Hnin.
    assert (Hr : In r (List.filter
                         (fun r => String.eqb (teamMember.TeamId r) (teamMember.TeamId row)
                                   && String.eqb (teamMember.UserId r)
                                                 (teamMember.UserId row)) rows))
      by (rewrite Hf; left; reflexivity).
    apply filter_In in Hr as [Hr Hsame].
    rewrite <- (Hkey r Hsame). apply in_map. exact Hr.
  - destruct (String.eqb (teamMember.TeamId a) (teamMember.TeamId row)
              && String.eqb (teamMember.UserId a) (teamMember.UserId row)) eqn:E.
    + exfalso. apply Hnin. rewrite (Hkey a E). apply in_map. exact Hin.
    + apply IH; assumption.
Qed.

(** X24: the two read paths agree.  On a table whose primary key holds,
    every member that [GetTeamsForUser] lists for a user is the member that
    [GetMember] returns for that team and user. *)
Theorem GetTeamsForUser_agrees_with_GetMember (s : SqlStore) (userId : string)
    (members : list TeamMember.t) :
  script s = [] ->
  List.NoDup (map memberKey (TeamMembers (replica s))) ->
  fst (SqlTeamStore.GetTeamsForUser userId s) = (Some members, None) ->
  Forall (fun member =>
            TeamMember.UserId member = userId
            /\ fst (SqlTeamStore.GetMember (TeamMember.TeamId member) userId s)
               = (Some member, None))
         members.
Proof.
  intros Hq Hnd.
  unfold SqlTeamStore.GetTeamsForUser, SqlTeamStore.GetMember. conn_unfold.
  rewrite (issue_quiet _ _ Hq). cbn [replica logged fst snd].
  intros [= <-]. rewrite ToModelList_map.
  unfold SqlTeamStore.selectWithSchemeRoles.
  apply List.Forall_forall. intros member Hmember.
  apply in_map_iff in Hmember as (dbMember & <- & Hmember).
  apply in_map_iff in Hmember as (row & <- & Hrow).
  apply filter_In in Hrow as [Hrow Huser].
  apply String.eqb_eq in Huser.
  rewrite ToModel_withSchemeRoles. cbn [memberOf TeamMember.TeamId TeamMember.UserId].
  split; [exact Huser|].
  rewrite <- Huser. rewrite (issue_quiet _ _ Hq). cbn [replica logged fst snd].
  rewrite (filter_key_unique _ row Hnd Hrow).
  cbn [map selectOne]. rewrite ToModel_withSchemeRoles. reflexivity.
Qed.

Lemma filter_none_left {A} (p q : A -> bool) (l : list A) :
  (forall a, p a = true -> q a = true) ->
  List.filter p (List.filter (fun a => negb (q a)) l) = [].
Proof.
  intros Hpq. induction l as [|a l IH]; [reflexivity|]. simpl.
  destruct (q a) eqn:Hq; simpl; [exact IH|].
  destruct (p a) eqn:Hp; [|exact IH].
  rewrite (Hpq a Hp) in Hq. discriminate.
Qed.

Lemma execDelete_alone (q : DB -> DB) (s : SqlStore) :
  noOtherSession s ->
  fst (execDelete q s) = None ->
  master (snd (execDelete q s)) = q (master s).
Proof.
  unfold noOtherSession, execDelete. intros Hq.
  destruct (script s) as [|[|e|f] rest]; simpl; try reflexivity.
  - discriminate.
  - inversion Hq as [|? ? Hev _]. destruct Hev.
Qed.

(** X25: what the bulk removals leave to read, while no other session
    writes.  After [RemoveAllMembersByUser] has returned nil,
    [GetTeamsForUser] lists no team for the user; after
    [RemoveAllMembersByTeam] has returned nil, [GetMember] finds no row
    ([sql.ErrNoRows]) for any user of the team. *)
Theorem RemoveAll_then_read (s : SqlStore) :
  noOtherSession s ->
  (forall userId,
     fst (SqlTeamStore.RemoveAllMembersByUser userId s) = None ->
     fst (SqlTeamStore.GetTeamsForUser userId
            (caughtUp (snd (SqlTeamStore.RemoveAllMembersByUser userId s))))
     = (Some [], None))
  /\ (forall teamId userId,
        fst (SqlTeamStore.RemoveAllMembersByTeam teamId s) = None ->
        fst (SqlTeamStore.GetMember teamId userId
               (caughtUp (snd (SqlTeamStore.RemoveAllMembersByTeam teamId s))))
        = (None, Some ErrNoRows)).
Proof.
  intros Hq. split.
  - intros userId.
    unfold SqlTeamStore.RemoveAllMembersByUser. conn_unfold.
    pose proof (execDelete_alone
                  (fun db => withTeamMembers db
                     (List.filter
                        (fun row => negb (String.eqb (teamMember.UserId row) userId))
                        (TeamMembers db))) s Hq) as Hdel.
    destruct (execDelete _ s) as [[e|] s1]; cbn [fst snd] in *; [discriminate|].
    intros _. specialize (Hdel eq_refl).
    unfold SqlTeamStore.GetTeamsForUser. conn_unfold.
    rewrite issue_quiet by reflexivity. cbn [replica logged caughtUp fst snd].
    unfold SqlTeamStore.selectWithSchemeRoles. rewrite Hdel.
    cbn [TeamMembers withTeamMembers].
    rewrite (filter_none_left
               (fun row => String.eqb (teamMember.UserId row) userId)
               (fun row => String.eqb (teamMember.UserId row) userId))
      by auto.
    reflexivity.
  - intros teamId userId.
    unfold SqlTeamStore.RemoveAllMembersByTeam. conn_unfold.
    pose proof (execDelete_alone
                  (fun db => withTeamMembers db
                     (List.filter
                        (fun row => negb (String.eqb (teamMember.TeamId row) teamId))
                        (TeamMembers db))) s Hq) as Hdel.
    destruct (execDelete _ s) as [[e|] s1]; cbn [fst snd] in *; [discriminate|].
    intros _. specialize (Hdel eq_refl).
    unfold SqlTeamStore.GetMember. conn_unfold.
    rewrite issue_quiet by reflexivity. cbn [replica logged caughtUp fst snd].
    unfold SqlTeamStore.selectWithSchemeRoles. rewrite Hdel.
    cbn [TeamMembers withTeamMembers].
    rewrite (filter_none_left
               (fun row => String.eqb (teamMember.TeamId row) teamId
                           && String.eqb (teamMember.UserId row) userId)
               (fun row => String.eqb (teamMember.TeamId row) teamId)).
    + reflexivity.
    + intros row H. apply andb_true_iff in H as [H _]. exact H.
Qed.

End ReadingMembers.

(** ** The system store: insert, update, read *)

Section SystemRoundTrip.

Lemma fold_insert_list_to_map (l : list (string * string)) :
  forall acc : gmap string string,
  NoDup l.*1 ->
  fold_left (fun props '(name, value) => <[name := value]> props) l acc
  = list_to_map l ∪ acc.
Proof.
  induction l as [|[k v] l IH]; intros acc Hnd.
  - simpl. rewrite (left_id_L ∅ (∪)). reflexivity.
  - simpl in *. apply NoDup_cons in Hnd as [Hk Hnd].
    rewrite IH by exact Hnd.
    rewrite <- insert_union_l.
    symmetry. apply insert_union_r, not_elem_of_list_to_map_1, Hk.
Qed.

Lemma fold_insert_map_to_list (m : gmap string string) :
  fold_left (fun props '(name, value) => <[name := value]> props)
            (map_to_list m) ∅
  = m.
Proof.
  rewrite fold_insert_list_to_map by apply NoDup_fst_map_to_list.
  rewrite (right_id_L ∅ (∪)). apply list_to_map_to_list.
Qed.

(** X26: insert, update, read.  With every statement proceeding, a name
    without a row that is saved with [Save] and then changed with [Update]
    shows its second value in the map of [Get], beside the rows that were
    there. *)
Theorem System_Save_Update_Get (s : SqlStore) (name first second : string) :
  script s = [] ->
  Systems (master s) !! name = None ->
  let saved := {| System.Name := name; System.Value := first |} in
  let updated := {| System.Name := name; System.Value := second |} in
  let s1 := snd (SqlSystemStore.Save saved s) in
  let s2 := snd (SqlSystemStore.Update updated s1) in
  fst (SqlSystemStore.Save saved s) = None
  /\ fst (SqlSystemStore.Update updated s1) = None
  /\ fst (SqlSystemStore.Get (caughtUp s2))
     = (Some (<[name := second]> (Systems (master s))), None).
Proof.
  intros Hq Hrow saved updated s1 s2. subst s2 s1 saved updated.
  unfold SqlSystemStore.Save, SqlSystemStore.Update, SqlSystemStore.Get.
  conn_unfold.
  rewrite (issue_quiet _ _ Hq).
  unfold SqlSystemStore.insertSystem. cbn [master logged System.Name System.Value].
  rewrite Hrow. cbn [fst snd].
  rewrite issue_quiet by reflexivity.
  unfold SqlSystemStore.updateSystem.
  cbn [master logged withMaster Systems withSystems System.Name System.Value].
  rewrite lookup_insert_eq. cbn [fst snd].
  rewrite issue_quiet by reflexivity.
  cbn [replica master logged withMaster caughtUp Systems withSystems fst snd].
  rewrite fold_insert_map_to_list, insert_insert_eq.
  repeat split.
Qed.

End SystemRoundTrip.

(** ** Teams by name *)

Section TeamsByName.
Variable RemoveDuplicatesFromStringArray : list string -> list string.

(** X27: [GetByNames] with a name that no team has.  With the statement
    proceeding and the team names unique, a name among the unique names
    that has no row makes the count of rows differ from the count of names,
    and the method returns the nil error of the query that succeeded: no
    teams and no error. *)
Theorem GetByNames_missing_name (s : SqlStore) (names : list string)
    (name : string) :
  script s = [] ->
  List.NoDup (map Team.Name (map snd (map_to_list (Teams (replica s))))) ->
  In name (RemoveDuplicatesFromStringArray names) ->
  (forall team, In team (map snd (map_to_list (Teams (replica s)))) ->
                Team.Name team <> name) ->
  fst (SqlTeamStore.GetByNames RemoveDuplicatesFromStringArray names s)
  = (None, None).
Proof.
  intros Hq Hnd Hname Hmissing.
  unfold SqlTeamStore.GetByNames. conn_unfold.
  rewrite (issue_quiet _ _ Hq). cbn [replica logged fst snd].
  set (uniqueNames := RemoveDuplicatesFromStringArray names) in *.
  set (rows := map snd (map_to_list (Teams (replica s)))) in *.
  set (found := List.filter
                  (fun row => existsb (String.eqb (Team.Name row)) uniqueNames) rows).
  assert (Hfewer : (length found < length uniqueNames)%nat).
  { rewrite <- (length_map Team.Name found).
    destruct (Nat.lt_ge_cases (length (map Team.Name found)) (length uniqueNames))
      as [Hlt|Hge]; [exact Hlt|].
    exfalso.
    assert (Hnd' : List.NoDup (map Team.Name found)).
    { subst found. clear -Hnd. induction rows as [|row rows IH]; [constructor|].
      simpl in *. inversion Hnd as [|? ? Hnin Hnd']; subst.
      destruct (existsb _ uniqueNames); [|apply IH, Hnd'].
      simpl. constructor; [|apply IH, Hnd'].
      intros Hin. apply Hnin.
      apply in_map_iff in Hin as (row' & Heq & Hin).
      apply filter_In in Hin as [Hin _].
      rewrite <- Heq. apply in_map. exact Hin. }
    assert (Hincl : incl (map Team.Name found) uniqueNames).
    { intros n Hn. apply in_map_iff in Hn as (row & <- & Hrow).
      apply filter_In in Hrow as [_ Hrow].
      apply existsb_exists in Hrow as (n & Hn & Heq).
      apply String.eqb_eq in Heq. rewrite Heq. exact Hn. }
    pose proof (NoDup_length_incl Hnd' Hge Hincl name Hname) as Hfound.
    apply in_map_iff in Hfound as (row & Heq & Hrow).
    apply filter_In in Hrow as [Hrow _].
    exact (Hmissing row Hrow Heq). }
  assert (Hlen : (len found =? len uniqueNames) = false).
  { apply Z.eqb_neq. unfold len. lia. }
  rewrite Hlen. reflexivity.
Qed.

End TeamsByName.

(** ** Concrete runs of the further properties *)

Lemma ToModel_after_migration_witness :
  roleIdsDistinct (M := upstream)
  /\ ToModel (M := upstream)
       (SqlTeamStore.withSchemeRoles Cases.tables
          (migrateMember (M := upstream)
             (Sample.legacyRow Cases.teamC Sample.user1
                "team_user  custom team_admin")))
     = ToModel (M := upstream)
         (SqlTeamStore.withSchemeRoles Cases.tables
            (Sample.legacyRow Cases.teamC Sample.user1
               "team_user  custom team_admin")).
Proof.
  split; [exact upstream_roleIdsDistinct|].
  exact (ToModel_after_migration (M := upstream) Cases.tables
           (Sample.legacyRow Cases.teamC Sample.user1 "team_user  custom team_admin")
           upstream_roleIdsDistinct).
Defined.

Lemma migrateMember_idempotent_witness :
  roleIdsDistinct (M := upstream)
  /\ migrateMember (M := upstream)
       (migrateMember (M := upstream)
          (Sample.legacyRow Sample.teamA Sample.user1 "team_guest custom"))
     = migrateMember (M := upstream)
         (Sample.legacyRow Sample.teamA Sample.user1 "team_guest custom").
Proof.
  split; [exact upstream_roleIdsDistinct|].
  exact (migrateMember_idempotent (M := upstream)
           (Sample.legacyRow Sample.teamA Sample.user1 "team_guest custom")
           upstream_roleIdsDistinct).
Defined.

Lemma SaveMultipleMembers_all_or_nothing_witness :
  let members := [Sample.member Cases.teamC Sample.user2 "team_admin custom"] in
  noOtherSession Cases.store
  /\ let r := SqlTeamStore.SaveMultipleMembers (M := upstream) members 2 Cases.store in
     match fst (fst r) with
     | Some out =>
         snd (fst r) = None
         /\ length out = length members
         /\ master (snd r)
            = withTeamMembers (master Cases.store)
                (TeamMembers (master Cases.store)
                 ++ map SqlTeamStore.teamMemberToSlice members)%list
         /\ SqlTeamStore.firstDuplicate (TeamMembers (master Cases.store))
              (map SqlTeamStore.teamMemberToSlice members) = None
     | None => master (snd r) = master Cases.store
     end.
Proof.
  intros members. split; [constructor|].
  apply (SaveMultipleMembers_all_or_nothing (M := upstream) Cases.store members 2).
  constructor.
Defined.

Lemma SaveMultipleMembers_then_GetMember_witness :
  let members := [Sample.member Cases.teamC Sample.user2 "team_admin custom"] in
  noOtherSession Cases.store
  /\ fst (fst (SqlTeamStore.SaveMultipleMembers (M := upstream) members 2 Cases.store))
     = Some [Cases.saved]
  /\ Forall2
       (fun member saved =>
          fst (SqlTeamStore.GetMember (M := upstream) (TeamMember.TeamId member)
                 (TeamMember.UserId member)
                 (caughtUp (snd (SqlTeamStore.SaveMultipleMembers (M := upstream)
                                   members 2 Cases.store))))
          = (Some saved, None))
       members [Cases.saved].
Proof.
  intros members. split; [constructor|].
  assert (Hout : fst (fst (SqlTeamStore.SaveMultipleMembers (M := upstream)
                             members 2 Cases.store)) = Some [Cases.saved])
    by (vm_compute; reflexivity).
  split; [exact Hout|].
  apply (SaveMultipleMembers_then_GetMember (M := upstream) Cases.store members
           [Cases.saved] 2); [constructor | exact Hout].
Defined.

Lemma SaveMember_full_team_panics_witness :
  let member := Sample.member Sample.teamA Sample.user2 EmptyString in
  script Sample.healthy = []
  /\ TeamMember_IsValid (ModelPkg := upstream) member = None
  /\ 0 <= 1
  /\ int_add (activeMembers (M := upstream) (master Sample.healthy)
                (TeamMember.TeamId member)) 1 > 1
  /\ fst (SqlTeamStore.SaveMember (M := upstream) member 1 Sample.healthy)
     = panics "runtime error: index out of range [0] with length 0"
  /\ master (snd (SqlTeamStore.SaveMember (M := upstream) member 1 Sample.healthy))
     = master Sample.healthy.
Proof.
  intros member.
  assert (Hover : int_add (activeMembers (M := upstream) (master Sample.healthy)
                             (TeamMember.TeamId member)) 1 > 1)
    by (vm_compute; reflexivity).
  split; [reflexivity|]. split; [reflexivity|]. split; [lia|]. split; [exact Hover|].
  apply (SaveMember_full_team_panics (M := upstream) Sample.healthy member 1);
    [reflexivity | reflexivity | lia | exact Hover].
Defined.

Lemma UpdateMultipleMembers_keeps_earlier_updates_witness :
  let good := [Sample.member Sample.teamA Sample.user1 "custom2"] in
  let bad := Sample.member "short" Sample.user2 EmptyString in
  let e := errorString "model.team_member.is_valid.team_id.app_error" in
  script Sample.healthy = []
  /\ Forall (fun member =>
               TeamMember_IsValid (ModelPkg := upstream)
                 (TeamMember_PreUpdate (ModelPkg := upstream) member) = None) good
  /\ TeamMember_IsValid (ModelPkg := upstream)
       (TeamMember_PreUpdate (ModelPkg := upstream) bad) = Some e
  /\ fst (SqlTeamStore.UpdateMultipleMembers (M := upstream) (good ++ bad :: [])
            Sample.healthy) = (None, Some e)
  /\ master (snd (SqlTeamStore.UpdateMultipleMembers (M := upstream)
                    (good ++ bad :: []) Sample.healthy))
     = applyUpdates (M := upstream) good (master Sample.healthy).
Proof.
  intros good bad e.
  assert (Hgood : Forall (fun member =>
                            TeamMember_IsValid (ModelPkg := upstream)
                              (TeamMember_PreUpdate (ModelPkg := upstream) member)
                            = None) good)
    by (repeat constructor).
  split; [reflexivity|]. split; [exact Hgood|]. split; [reflexivity|].
  apply (UpdateMultipleMembers_keeps_earlier_updates (M := upstream) Sample.healthy
           good bad [] e); [reflexivity | exact Hgood | reflexivity].
Defined.

Lemma UpdateMember_missing_row_witness :
  let member := Sample.member Sample.teamB Sample.user3 "team_admin" in
  script Sample.healthy = []
  /\ TeamMember_IsValid (ModelPkg := upstream)
       (TeamMember_PreUpdate (ModelPkg := upstream) member) = None
  /\ hasRow (master Sample.healthy)
       (TeamMember.TeamId (TeamMember_PreUpdate (ModelPkg := upstream) member))
       (TeamMember.UserId (TeamMember_PreUpdate (ModelPkg := upstream) member))
     = false
  /\ fst (SqlTeamStore.UpdateMember (M := upstream) member Sample.healthy)
     = returns
         (Some (SqlTeamStore.resolveMember (M := upstream)
                  (SqlTeamStore.byTeam
                     (SqlTeamStore.selectDefaultTeamRoles
                        [TeamMember.TeamId
                           (TeamMember_PreUpdate (ModelPkg := upstream) member)]
                        (master Sample.healthy)))
                  (TeamMember_PreUpdate (ModelPkg := upstream) member)),
          None)
  /\ master (snd (SqlTeamStore.UpdateMember (M := upstream) member Sample.healthy))
     = master Sample.healthy.
Proof.
  intros member.
  split; [reflexivity|]. split; [reflexivity|]. split; [reflexivity|].
  apply (UpdateMember_missing_row (M := upstream) Sample.healthy member);
    reflexivity.
Defined.

Lemma SaveMember_then_RemoveMember_witness :
  let member := Sample.member Cases.teamC Sample.user2 "team_admin custom" in
  noOtherSession Cases.store
  /\ fst (SqlTeamStore.SaveMember (M := upstream) member 5 Cases.store)
     = returns (Some Cases.saved, None)
  /\ let s1 := caughtUp (snd (SqlTeamStore.SaveMember (M := upstream) member 5
                                Cases.store)) in
     fst (SqlTeamStore.RemoveMember (TeamMember.TeamId member)
            (TeamMember.UserId member) s1) = None
     /\ master (snd (SqlTeamStore.RemoveMember (TeamMember.TeamId member)
                       (TeamMember.UserId member) s1))
        = master Cases.store.
Proof.
  intros member.
  assert (Hsaved : fst (SqlTeamStore.SaveMember (M := upstream) member 5 Cases.store)
                   = returns (Some Cases.saved, None))
    by (vm_compute; reflexivity).
  split; [constructor|]. split; [exact Hsaved|].
  apply (SaveMember_then_RemoveMember (M := upstream) Cases.store member
           Cases.saved 5); [constructor | exact Hsaved].
Defined.

Lemma GetByInviteId_exact_witness :
  fst (fst (SqlTeamStore.GetByInviteId "invite1" Cases.store)) = Some Cases.invited
  /\ snd (fst (SqlTeamStore.GetByInviteId "invite1" Cases.store)) = None
  /\ Team.InviteId Cases.invited = "invite1"
  /\ "invite1" <> EmptyString.
Proof.
  assert (Hteam : fst (fst (SqlTeamStore.GetByInviteId "invite1" Cases.store))
                  = Some Cases.invited)
    by (vm_compute; reflexivity).
  split; [exact Hteam|].
  exact (GetByInviteId_exact Cases.store "invite1" Cases.invited Hteam).
Defined.

Lemma MigrateTeamMembers_batch_or_nothing_witness :
  noOtherSession Sample.legacy
  /\ let batch :=
       SqlTeamStore.selectAfter (collation Sample.legacy) EmptyString EmptyString
         100 (master Sample.legacy) in
     let r := SqlTeamStore.MigrateTeamMembers (M := upstream) EmptyString
                EmptyString Sample.legacy in
     match fst (fst r) with
     | Some data =>
         snd (fst r) = None
         /\ (exists lastMember,
               last batch = Some lastMember /\ data = cursorOf lastMember)
         /\ master (snd r) = applyMigration (M := upstream) batch (master Sample.legacy)
     | None => master (snd r) = master Sample.legacy
     end.
Proof.
  split; [constructor|].
  apply (MigrateTeamMembers_batch_or_nothing (M := upstream) Sample.legacy
           EmptyString EmptyString).
  constructor.
Defined.

Lemma legacy_keys_NoDup :
  List.NoDup (map memberKey (TeamMembers (master Sample.legacy))).
Proof.
  simpl. repeat constructor; simpl; intros H;
    repeat (destruct H as [H|H]; try discriminate H); exact H.
Qed.

Lemma migration_migrates_every_row_witness :
  script Sample.legacy = []
  /\ strictTotal (collation Sample.legacy)
  /\ List.NoDup (map memberKey (TeamMembers (master Sample.legacy)))
  /\ exists s',
      migrationLoop (M := upstream)
        (S (length (TeamMembers (master Sample.legacy)))) EmptyString EmptyString
        Sample.legacy
      = ((None, true), s')
      /\ master s'
         = withTeamMembers (master Sample.legacy)
             (map (rewrittenWhere (migrateMember (M := upstream))
                     (keyLt (collation Sample.legacy) (EmptyString, EmptyString)))
                  (TeamMembers (master Sample.legacy)))
      /\ replica s' = replica Sample.legacy.
Proof.
  split; [reflexivity|]. split; [exact String_ltb_strict|].
  split; [exact legacy_keys_NoDup|].
  apply (migration_migrates_every_row (M := upstream) Sample.legacy
           EmptyString EmptyString);
    [reflexivity | exact String_ltb_strict | exact legacy_keys_NoDup].
Defined.

Lemma System_SaveOrUpdate_witness :
  let system := {| System.Name := "InstallationDate"; System.Value := "1604102400000" |} in
  noOtherSession Sample.healthy
  /\ fst (SqlSystemStore.SaveOrUpdate system Sample.healthy) = None
  /\ Systems (master (snd (SqlSystemStore.SaveOrUpdate system Sample.healthy)))
     = <[System.Name system := System.Value system]> (Systems (master Sample.healthy))
  /\ fst (SqlSystemStore.GetByName (System.Name system)
            (caughtUp (snd (SqlSystemStore.SaveOrUpdate system Sample.healthy))))
     = (Some system, None).
Proof.
  intros system.
  split; [constructor|]. split; [reflexivity|].
  apply (System_SaveOrUpdate_nil_means_written Sample.healthy system);
    [constructor | reflexivity].
Defined.

Lemma PermanentDeleteByName_witness :
  noOtherSession Sample.healthy
  /\ snd (fst (SqlSystemStore.PermanentDeleteByName "InstallationDate" Sample.healthy))
     = None
  /\ fst (SqlSystemStore.PermanentDeleteByName "InstallationDate" Sample.healthy)
     = (Some {| System.Name := EmptyString; System.Value := EmptyString |}, None)
  /\ Systems (master (snd (SqlSystemStore.PermanentDeleteByName "InstallationDate"
                             Sample.healthy)))
     = delete "InstallationDate" (Systems (master Sample.healthy))
  /\ fst (SqlSystemStore.GetByName "InstallationDate"
            (caughtUp (snd (SqlSystemStore.PermanentDeleteByName "InstallationDate"
                              Sample.healthy))))
     = (None, Some ErrNoRows).
Proof.
  split; [constructor|]. split; [reflexivity|].
  apply (PermanentDeleteByName_returns_empty Sample.healthy "InstallationDate");
    [constructor | reflexivity].
Defined.

Lemma InsertIfExists_first_writer_wins_witness :
  let first := {| System.Name := "DiagnosticId"; System.Value := "abc" |} in
  let second := {| System.Name := "DiagnosticId"; System.Value := "xyz" |} in
  script Sample.healthy = []
  /\ Systems (master Sample.healthy) !! System.Name first = None
  /\ System.Value first <> EmptyString
  /\ System.Name second = System.Name first
  /\ fst (SqlSystemStore.InsertIfExists first Sample.healthy) = (Some first, None)
  /\ fst (SqlSystemStore.InsertIfExists second
            (snd (SqlSystemStore.InsertIfExists first Sample.healthy)))
     = (Some first, None)
  /\ master (snd (SqlSystemStore.InsertIfExists second
                    (snd (SqlSystemStore.InsertIfExists first Sample.healthy))))
     = master (snd (SqlSystemStore.InsertIfExists first Sample.healthy)).
Proof.
  intros first second.
  assert (Hvalue : System.Value first <> EmptyString) by discriminate.
  split; [reflexivity|]. split; [reflexivity|]. split; [exact Hvalue|].
  split; [reflexivity|].
  apply (InsertIfExists_first_writer_wins Sample.healthy first second);
    [reflexivity | reflexivity | exact Hvalue | reflexivity].
Defined.

Lemma Status_SaveOrUpdate_then_Get_witness :
  let status := Sample.status Sample.user1 "away" in
  script Sample.healthy = []
  /\ (is_Some (StatusRows (replica Sample.healthy) !! Status.UserId status)
      <-> is_Some (StatusRows (master Sample.healthy) !! Status.UserId status))
  /\ fst (SqlStatusStore.SaveOrUpdate status Sample.healthy) = None
  /\ StatusRows (master (snd (SqlStatusStore.SaveOrUpdate status Sample.healthy)))
     = <[Status.UserId status := status]> (StatusRows (master Sample.healthy))
  /\ fst (SqlStatusStore.Get (Status.UserId status)
            (caughtUp (snd (SqlStatusStore.SaveOrUpdate status Sample.healthy))))
     = (Some status, None).
Proof.
  intros status.
  assert (Hsync : is_Some (StatusRows (replica Sample.healthy) !! Status.UserId status)
                  <-> is_Some (StatusRows (master Sample.healthy)
                                 !! Status.UserId status))
    by (split; intros H; exact H).
  split; [reflexivity|]. split; [exact Hsync|].
  apply (Status_SaveOrUpdate_then_Get Sample.healthy status);
    [reflexivity | exact Hsync].
Defined.

Lemma UpdateStatusOptimistically_one_winner_witness :
  noOtherSession Sample.healthy
  /\ "in_progress" <> "pending"
  /\ fst (SqlJobStore.UpdateStatusOptimistically (M := upstream) "job1" "pending"
            "in_progress" 10 10 Sample.healthy) = (true, None)
  /\ let s1 := snd (SqlJobStore.UpdateStatusOptimistically (M := upstream) "job1"
                      "pending" "in_progress" 10 10 Sample.healthy) in
     fst (fst (SqlJobStore.UpdateStatusOptimistically (M := upstream) "job1"
                 "pending" "cancel_requested" 20 20 s1)) = false
     /\ master (snd (SqlJobStore.UpdateStatusOptimistically (M := upstream) "job1"
                       "pending" "cancel_requested" 20 20 s1))
        = master s1.
Proof.
  assert (Hne : "in_progress" <> "pending") by discriminate.
  split; [constructor|]. split; [exact Hne|]. split; [reflexivity|].
  apply (UpdateStatusOptimistically_one_winner (M := upstream) Sample.healthy
           "job1" "pending" "in_progress" "cancel_requested" 10 10 20 20);
    [constructor | exact Hne | reflexivity].
Defined.

Lemma Delete_then_UpdateStatus_witness :
  noOtherSession Sample.healthy
  /\ snd (fst (SqlJobStore.Delete "job1" Sample.healthy)) = None
  /\ let s1 := snd (SqlJobStore.Delete "job1" Sample.healthy) in
     snd (fst (SqlJobStore.UpdateStatus "job1" "in_progress" 5 s1)) = None
     /\ fst (fst (SqlJobStore.Delete "job1" Sample.healthy)) = "job1"
     /\ (exists job,
           fst (fst (SqlJobStore.UpdateStatus "job1" "in_progress" 5 s1)) = Some job
           /\ Job.Id job = "job1" /\ Job.Status job = "in_progress")
     /\ Jobs (master (snd (SqlJobStore.UpdateStatus "job1" "in_progress" 5 s1)))
          !! "job1" = None.
Proof.
  split; [constructor|]. split; [reflexivity|].
  split; [reflexivity|].
  apply (Delete_then_UpdateStatus Sample.healthy "job1" "in_progress" 5);
    [constructor | reflexivity | reflexivity].
Defined.

Lemma ClearAllCustomRoleAssignments_witness :
  script Sample.legacy = []
  /\ strictTotal (collation Sample.legacy)
  /\ List.NoDup (map memberKey (TeamMembers (master Sample.legacy)))
  /\ exists s',
      SqlTeamStore.ClearAllCustomRoleAssignments Cases.builtInRoles
        (S (length (TeamMembers (master Sample.legacy)))) Sample.legacy
      = (Some None, s')
      /\ master s'
         = withTeamMembers (master Sample.legacy)
             (map (rewrittenWhere (clearRow Cases.builtInRoles)
                     (keyLt (collation Sample.legacy) (zeroId, zeroId)))
                  (TeamMembers (master Sample.legacy)))
      /\ replica s' = replica Sample.legacy.
Proof.
  split; [reflexivity|]. split; [exact String_ltb_strict|].
  split; [exact legacy_keys_NoDup|].
  apply (ClearAllCustomRoleAssignments_result Cases.builtInRoles Sample.legacy);
    [reflexivity | exact String_ltb_strict | exact legacy_keys_NoDup].
Defined.

(** The run on the three legacy rows: the custom role goes, the built-in
    ones stay. *)
Example ClearAllCustomRoleAssignments_run :
  let '(r, s') :=
    SqlTeamStore.ClearAllCustomRoleAssignments Cases.builtInRoles 4 Sample.legacy in
  r = Some None
  /\ map teamMember.Roles (TeamMembers (master s'))
     = ["team_user"; "team_guest"; "team_user team_admin"].
Proof. vm_compute. repeat split. Qed.

Lemma GetTeamsForUser_agrees_witness :
  script Sample.healthy = []
  /\ List.NoDup (map memberKey (TeamMembers (replica Sample.healthy)))
  /\ fst (SqlTeamStore.GetTeamsForUser (M := upstream) Sample.user1 Sample.healthy)
     = (Some [Cases.read], None)
  /\ Forall (fun member =>
               TeamMember.UserId member = Sample.user1
               /\ fst (SqlTeamStore.GetMember (M := upstream)
                         (TeamMember.TeamId member) Sample.user1 Sample.healthy)
                  = (Some member, None))
            [Cases.read].
Proof.
  assert (Hnd : List.NoDup (map memberKey (TeamMembers (replica Sample.healthy))))
    by (repeat constructor; intros []).
  assert (Hlist : fst (SqlTeamStore.GetTeamsForUser (M := upstream) Sample.user1
                         Sample.healthy) = (Some [Cases.read], None))
    by (vm_compute; reflexivity).
  split; [reflexivity|]. split; [exact Hnd|]. split; [exact Hlist|].
  apply (GetTeamsForUser_agrees_with_GetMember (M := upstream) Sample.healthy
           Sample.user1 [Cases.read]); [reflexivity | exact Hnd | exact Hlist].
Defined.

Lemma RemoveAll_then_read_witness :
  noOtherSession Sample.healthy
  /\ (forall userId,
        fst (SqlTeamStore.RemoveAllMembersByUser userId Sample.healthy) = None ->
        fst (SqlTeamStore.GetTeamsForUser (M := upstream) userId
               (caughtUp (snd (SqlTeamStore.RemoveAllMembersByUser userId
                                 Sample.healthy))))
        = (Some [], None))
  /\ (forall teamId userId,
        fst (SqlTeamStore.RemoveAllMembersByTeam teamId Sample.healthy) = None ->
        fst (SqlTeamStore.GetMember (M := upstream) teamId userId
               (caughtUp (snd (SqlTeamStore.RemoveAllMembersByTeam teamId
                                 Sample.healthy))))
        = (None, Some ErrNoRows)).
Proof.
  split; [constructor|].
  apply (RemoveAll_then_read (M := upstream) Sample.healthy). constructor.
Defined.

Lemma System_Save_Update_Get_witness :
  script Sample.healthy = []
  /\ Systems (master Sample.healthy) !! "DiagnosticId" = None
  /\ let saved := {| System.Name := "DiagnosticId"; System.Value := "abc" |} in
     let updated := {| System.Name := "DiagnosticId"; System.Value := "xyz" |} in
     let s1 := snd (SqlSystemStore.Save saved Sample.healthy) in
     let s2 := snd (SqlSystemStore.Update updated s1) in
     fst (SqlSystemStore.Save saved Sample.healthy) = None
     /\ fst (SqlSystemStore.Update updated s1) = None
     /\ fst (SqlSystemStore.Get (caughtUp s2))
        = (Some (<["DiagnosticId" := "xyz"]> (Systems (master Sample.healthy))), None).
Proof.
  split; [reflexivity|]. split; [reflexivity|].
  apply (System_Save_Update_Get Sample.healthy "DiagnosticId" "abc" "xyz");
    reflexivity.
Defined.

(** The repeated token of the well-known id comes back once. *)
Example getTeamRoles_fallback_run :
  roles (getTeamRoles (M := upstream) false false false
           EmptyString EmptyString EmptyString
           ["team_user"; "custom"; "team_user"])
  = ["custom"; "team_user"].
Proof. reflexivity. Qed.

Lemma GetByNames_missing_name_witness :
  script Sample.healthy = []
  /\ List.NoDup (map Team.Name (map snd (map_to_list (Teams (replica Sample.healthy)))))
  /\ In "gamma" (Cases.removeDuplicates ["alpha"; "gamma"; "alpha"])
  /\ (forall team,
        In team (map snd (map_to_list (Teams (replica Sample.healthy)))) ->
        Team.Name team <> "gamma")
  /\ fst (SqlTeamStore.GetByNames Cases.removeDuplicates ["alpha"; "gamma"; "alpha"]
            Sample.healthy)
     = (None, None).
Proof.
  assert (Hnd : List.NoDup (map Team.Name
                              (map snd (map_to_list (Teams (replica Sample.healthy)))))).
  { vm_compute. repeat constructor; simpl; intros H;
      repeat (destruct H as [H|H]; try discriminate H); exact H. }
  assert (Hname : In "gamma" (Cases.removeDuplicates ["alpha"; "gamma"; "alpha"]))
    by (vm_compute; auto).
  assert (Hmissing : forall team,
            In team (map snd (map_to_list (Teams (replica Sample.healthy)))) ->
            Team.Name team <> "gamma").
  { apply List.Forall_forall. vm_compute. repeat constructor; discriminate. }
  split; [reflexivity|]. split; [exact Hnd|]. split; [exact Hname|].
  split; [exact Hmissing|].
  apply (GetByNames_missing_name Cases.removeDuplicates Sample.healthy
           ["alpha"; "gamma"; "alpha"] "gamma");
    [reflexivity | exact Hnd | exact Hname | exact Hmissing].
Defined.
